(** * ToolBridge sync engine: LWW push, cursor pull, sessions, epoch and wipe

    A shallow embedding of the server-side sync core
    ([internal/service/syncservice], [internal/session], [internal/grpcapi],
    the session and push handlers of [internal/httpapi]) and of the client
    ([internal/mcpserver/client]: the retry core, the session cache, request
    cloning), together with the properties the specification states about
    them and further properties read off the code.

    The PostgreSQL tables are finite maps keyed by the primary key
    [(owner_id, uid)]; a transaction is a private view of the database that
    replaces it on commit; every statement sent to the driver may fail, which
    is modelled by a schedule of faults consumed one statement at a time. *)

From Stdlib Require Import ZArith Ascii String.
From stdpp Require Import gmap strings list sorting pretty.

Local Open Scope Z_scope.

(** ** Identifiers and entity kinds *)

(** [uuid.UUID] is sixteen bytes; PostgreSQL orders the [uuid] type by those
    bytes, which is the order of the 128-bit big-endian number. *)
Abbreviation UUID := N (only parsing).

Definition uuid_Nil : UUID := 0%N.

Inductive Kind :=
| Note | Task | TaskList | TaskListCategory | Chat | ChatMessage | Comment.

Global Instance Kind_eq_dec : EqDecision Kind.
Proof. solve_decision. Defined.

Definition table_name (k : Kind) : string :=
  match k with
  | Note => "note"
  | Task => "task"
  | TaskList => "task_list"
  | TaskListCategory => "task_list_category"
  | Chat => "chat"
  | ChatMessage => "chat_message"
  | Comment => "comment"
  end.

Definition all_kinds : list Kind :=
  [Note; Task; TaskList; TaskListCategory; Chat; ChatMessage; Comment].

(** ** What the extractor lifts out of a client item *)

(** The header every kind carries ([ext.UID], [ext.UpdatedAtMs],
    [ext.DeletedAtMs], [ext.Version]). *)
Record CommonExt := mkCommon {
  UID : UUID;
  UpdatedAtMs : Z;
  DeletedAtMs : option Z;
  Version : Z
}.

(** [syncx.ExtractComment]: the header plus [ParentType] and [ParentUID].
    The push code dereferences [ext.ParentUID] without a nil test, so a
    successful extraction carries the uuid itself. *)
Record CommentExt := mkCommentExt {
  c_common : CommonExt;
  ParentType : string;
  ParentUID : UUID
}.

(** [syncx.ExtractChatMessage]: the header plus [ChatUID]. *)
Record ChatMessageExt := mkChatMessageExt {
  m_common : CommonExt;
  ChatUID : UUID
}.

(** [syncx.Cursor]. *)
Record Cursor := mkCursor { Ms : Z; CurUID : UUID }.

(** The helpers of package [syncx] and of [google/uuid] that the service code
    calls and whose code lives outside the packages embedded here: they are
    the signature the services are written against. [Item] is the client's
    [map[string]any]. *)
Class Syncx (Item : Type) := {
  ExtractCommon : Item → string + CommonExt;
  ExtractComment : Item → string + CommentExt;
  ExtractChatMessage : Item → string + ChatMessageExt;
  RFC3339 : Z → string;
  EncodeCursor : Cursor → string;
  UUIDString : UUID → string;
  (** [json.Marshal(item)] succeeds: it fails on a value JSON cannot carry,
      such as a number that is not finite. *)
  Marshalable : Item → bool;
  (** [syncx.GetString(payload, "uid")] followed by [uuid.Parse]; [uuid.Nil]
      when the key is absent or does not parse. *)
  PayloadUID : Item → UUID;
  (** [payload["uid"] = categoryUID.String()] *)
  SetPayloadUID : Item → UUID → Item;
  BuildServerMutation : Item → Z → bool → Item;
  (** [jsonb_set(payload_json, '{sync,version}', to_jsonb(v))] *)
  JsonbSetSyncVersion : Item → Z → Item;
  (** [mutatedPayload["sync"].(map[string]any)["version"] = v], when the
      [sync] block is an object. *)
  PatchSyncVersion : Item → Z → Item
}.

(** ** Persisted state *)

(** The parent columns of the child tables. *)
Inductive ParentRefs :=
| NoParent
| CommentParent (parent_type : string) (parent_uid : UUID)
| ChatParent (chat_uid : UUID).

Section Store.
Context {Item : Type}.

(** One row of an entity table, the columns the statements name.
    [created_at] is filled by its default and never read or written.
    [updated_at_ms] is a [BIGINT] and [version] an [INT]; the model does not
    bound them: a value out of range makes the statement fail, which is one
    of the faults of the driver below. *)
Record Row := mkRow {
  updated_at_ms : Z;
  deleted_at_ms : option Z;
  version : Z;
  payload_json : Item;
  parent : ParentRefs
}.

(** A table, keyed by its primary key [(owner_id, uid)]. *)
Abbreviation Table := (gmap (string * UUID) Row).

Record OwnerState := mkOwnerState {
  epoch : Z;
  last_wipe_at : option Z;
  last_wipe_by : option string
}.

Record DB := mkDB {
  note : Table;
  task : Table;
  task_list : Table;
  task_list_category : Table;
  chat : Table;
  chat_message : Table;
  comment : Table;
  owner_state : gmap string OwnerState
}.

Definition table (k : Kind) (d : DB) : Table :=
  match k with
  | Note => note d
  | Task => task d
  | TaskList => task_list d
  | TaskListCategory => task_list_category d
  | Chat => chat d
  | ChatMessage => chat_message d
  | Comment => comment d
  end.

Definition set_table (k : Kind) (t : Table) (d : DB) : DB :=
  match k with
  | Note => mkDB t (task d) (task_list d) (task_list_category d) (chat d) (chat_message d) (comment d) (owner_state d)
  | Task => mkDB (note d) t (task_list d) (task_list_category d) (chat d) (chat_message d) (comment d) (owner_state d)
  | TaskList => mkDB (note d) (task d) t (task_list_category d) (chat d) (chat_message d) (comment d) (owner_state d)
  | TaskListCategory => mkDB (note d) (task d) (task_list d) t (chat d) (chat_message d) (comment d) (owner_state d)
  | Chat => mkDB (note d) (task d) (task_list d) (task_list_category d) t (chat_message d) (comment d) (owner_state d)
  | ChatMessage => mkDB (note d) (task d) (task_list d) (task_list_category d) (chat d) t (comment d) (owner_state d)
  | Comment => mkDB (note d) (task d) (task_list d) (task_list_category d) (chat d) (chat_message d) t (owner_state d)
  end.

Definition set_owner_state (o : gmap string OwnerState) (d : DB) : DB :=
  mkDB (note d) (task d) (task_list d) (task_list_category d) (chat d)
       (chat_message d) (comment d) o.

Definition empty_db : DB := mkDB ∅ ∅ ∅ ∅ ∅ ∅ ∅ ∅.

(** ** Statements, faults and the transaction monad *)

(** What [pgx] reports: [pgx.ErrNoRows] is told apart from every other
    error by the callers. *)
Inductive DbErr :=
| ErrNoRows
| ErrOther (msg : string).

Definition err_text (e : DbErr) : string :=
  match e with
  | ErrNoRows => "no rows in result set"
  | ErrOther m => m
  end.

(** The state a handler works on: the rows it sees, and the faults the
    driver will report, one entry per statement still to come ([None]: the
    statement runs). An empty schedule is a healthy connection. *)
Record TxState := mkTx {
  view : DB;
  faults : list (option string)
}.

Definition Tx (A : Type) : Type := TxState → A * TxState.

Definition ret {A} (a : A) : Tx A := λ s, (a, s).

Definition bind {A B} (m : Tx A) (f : A → Tx B) : Tx B :=
  λ s, let '(a, s') := m s in f a s'.

Definition healthy (d : DB) : TxState := mkTx d [].

(** One round trip to the driver: consume the next entry of the schedule. *)
Definition statement : Tx (option string) :=
  λ s, match faults s with
       | [] => (None, s)
       | f :: fs => (f, mkTx (view s) fs)
       end.

Definition read_view : Tx DB := λ s, (view s, s).

Definition write_view (d : DB) : Tx unit := λ s, (tt, mkTx d (faults s)).

End Store.

Arguments Row : clear implicits.
Arguments DB : clear implicits.
Arguments TxState : clear implicits.
Arguments Tx : clear implicits.

Declare Scope tx_scope.
Delimit Scope tx_scope with tx.
Notation "'let*' x ':=' m 'in' k" := (bind m (λ x, k))
  (at level 10, x pattern, m at level 100, k at level 200) : tx_scope.
Local Open Scope tx_scope.

(** ** The statements the services send *)

Section Statements.
Context {Item : Type}.

Abbreviation Table := (gmap (string * UUID) (Row Item)).

(** The LWW upsert, on the table it names:
<<
  INSERT INTO t (uid, owner_id, updated_at_ms, deleted_at_ms, version,
                 payload_json, <parent columns>)
  VALUES ($1, $2, $3, $4, GREATEST($5, 1), $6, ...)
  ON CONFLICT (owner_id, uid) DO UPDATE SET
    payload_json = EXCLUDED.payload_json, updated_at_ms = EXCLUDED.updated_at_ms,
    deleted_at_ms = EXCLUDED.deleted_at_ms, <parent columns> = EXCLUDED...,
    version = CASE WHEN EXCLUDED.updated_at_ms > t.updated_at_ms
                   THEN t.version + 1 ELSE t.version END
  WHERE EXCLUDED.updated_at_ms > t.updated_at_ms
>> *)
Definition upsert_row (owner : string) (uid : UUID) (ms : Z) (del : option Z)
    (v : Z) (payload : Item) (refs : ParentRefs) (t : Table) : Table :=
  match t !! (owner, uid) with
  | None => <[(owner, uid) := mkRow ms del (Z.max v 1) payload refs]> t
  | Some old =>
      if bool_decide (updated_at_ms old < ms) then
        <[(owner, uid) :=
            mkRow ms del
                  (if bool_decide (updated_at_ms old < ms)
                   then version old + 1 else version old)
                  payload refs]> t
      else t
  end.

(** [tx.Exec] of the upsert: the error of the driver, or the table changed. *)
Definition ExecUpsert (k : Kind) (owner : string) (uid : UUID) (ms : Z)
    (del : option Z) (v : Z) (payload : Item) (refs : ParentRefs)
    : Tx Item (option string) :=
  let* f := statement in
  match f with
  | Some e => ret (Some e)
  | None =>
      let* d := read_view in
      let* _ := write_view
                  (set_table k (upsert_row owner uid ms del v payload refs (table k d)) d) in
      ret None
  end.

(** [SELECT version, updated_at_ms FROM t WHERE uid = $1 AND owner_id = $2],
    scanned with [QueryRow(...).Scan]: no row is [pgx.ErrNoRows]. *)
Definition QueryVersionMs (k : Kind) (owner : string) (uid : UUID)
    : Tx Item (DbErr + Z * Z) :=
  let* f := statement in
  match f with
  | Some e => ret (inl (ErrOther e))
  | None =>
      let* d := read_view in
      match table k d !! (owner, uid) with
      | Some r => ret (inr (version r, updated_at_ms r))
      | None => ret (inl ErrNoRows)
      end
  end.

(** [SELECT updated_at_ms, version FROM t WHERE owner_id = $1 AND uid = $2]. *)
Definition QueryMsVersion (k : Kind) (owner : string) (uid : UUID)
    : Tx Item (DbErr + Z * Z) :=
  let* f := statement in
  match f with
  | Some e => ret (inl (ErrOther e))
  | None =>
      let* d := read_view in
      match table k d !! (owner, uid) with
      | Some r => ret (inr (updated_at_ms r, version r))
      | None => ret (inl ErrNoRows)
      end
  end.

(** [SELECT EXISTS(SELECT 1 FROM t WHERE owner_id = $1 AND uid = $2
                   AND deleted_at_ms IS NULL)]. *)
Definition QueryExistsLive (k : Kind) (owner : string) (uid : UUID)
    : Tx Item (DbErr + bool) :=
  let* f := statement in
  match f with
  | Some e => ret (inl (ErrOther e))
  | None =>
      let* d := read_view in
      match table k d !! (owner, uid) with
      | Some r => ret (inr (bool_decide (deleted_at_ms r = None)))
      | None => ret (inr false)
      end
  end.

End Statements.

(** ** Push: one item within the caller's transaction *)

(** [syncservice.PushAck]; the zero value of a string field is [""]. *)
Record PushAck := mkAck {
  AckUID : string;
  AckVersion : Z;
  AckUpdatedAt : string;
  AckError : string
}.

Section Push.
Context {Item : Type} `{!Syncx Item}.

(** The ack of an item that was parsed but not written: it echoes the
    header the client sent. *)
Definition rejected (ext : CommonExt) (msg : string) : PushAck :=
  mkAck (UUIDString (UID ext)) (Version ext) (RFC3339 (UpdatedAtMs ext)) msg.

(** The part every push function ends with: the item is serialised back to
    JSON for storage (the stored payload is the item), upserted, and the
    server-authoritative [(version, updated_at_ms)] is read back. *)
Definition upsertAndAck (k : Kind) (userID : string) (item : Item)
    (ext : CommonExt) (refs : ParentRefs) : Tx Item PushAck :=
  if negb (Marshalable item) then
    ret (rejected ext "payload serialization error")
  else
    let* err := ExecUpsert k userID (UID ext) (UpdatedAtMs ext) (DeletedAtMs ext)
                           (Version ext) item refs in
    match err with
    | Some e => ret (rejected ext e)
    | None =>
        let* r := QueryVersionMs k userID (UID ext) in
        match r with
        | inl _ => ret (rejected ext "failed to confirm write")
        | inr (serverVersion, serverMs) =>
            ret (mkAck (UUIDString (UID ext)) serverVersion (RFC3339 serverMs) "")
        end
    end.

(** [CommentService.PushCommentItem]. *)
Definition PushCommentItem (userID : string) (item : Item) : Tx Item PushAck :=
  match ExtractComment item with
  | inl err => ret (mkAck "" 0 "" err)
  | inr ext =>
      let c := c_common ext in
      if negb (String.eqb (ParentType ext) "note")
         && negb (String.eqb (ParentType ext) "task") then
        ret (rejected c ("invalid parent_type: " +:+ ParentType ext
                         +:+ " (must be 'note' or 'task')"))
      else
        let* early :=
          match DeletedAtMs c with
          | Some _ => ret None
          | None =>
              let* parentExists :=
                if String.eqb (ParentType ext) "note" then
                  QueryExistsLive Note userID (ParentUID ext)
                else if String.eqb (ParentType ext) "task" then
                  QueryExistsLive Task userID (ParentUID ext)
                else ret (inr false) in
              match parentExists with
              | inl _ => ret (Some (rejected c "failed to validate parent"))
              | inr false =>
                  ret (Some (rejected c ("parent " +:+ ParentType ext +:+ " not found: "
                                         +:+ UUIDString (ParentUID ext))))
              | inr true => ret None
              end
          end in
        match early with
        | Some ack => ret ack
        | None =>
            upsertAndAck Comment userID item c
                         (CommentParent (ParentType ext) (ParentUID ext))
        end
  end.

(** [ChatMessageService.PushChatMessageItem]. *)
Definition PushChatMessageItem (userID : string) (item : Item) : Tx Item PushAck :=
  match ExtractChatMessage item with
  | inl err => ret (mkAck "" 0 "" err)
  | inr ext =>
      let c := m_common ext in
      let* early :=
        match DeletedAtMs c with
        | Some _ => ret None
        | None =>
            let* chatExists := QueryExistsLive Chat userID (ChatUID ext) in
            match chatExists with
            | inl _ => ret (Some (rejected c "failed to validate parent chat"))
            | inr false =>
                ret (Some (rejected c ("parent chat not found: "
                                       +:+ UUIDString (ChatUID ext))))
            | inr true => ret None
            end
        end in
      match early with
      | Some ack => ret ack
      | None => upsertAndAck ChatMessage userID item c (ChatParent (ChatUID ext))
      end
  end.

(** The push of a kind without parent columns, as
    [TaskListCategoryService.PushTaskListCategoryItem] has it. *)
Definition pushPlainItem (k : Kind) (userID : string) (item : Item)
    : Tx Item PushAck :=
  match ExtractCommon item with
  | inl err => ret (mkAck "" 0 "" err)
  | inr ext => upsertAndAck k userID item ext NoParent
  end.

(** [TaskListCategoryService.PushTaskListCategoryItem]. *)
Definition PushTaskListCategoryItem : string → Item → Tx Item PushAck :=
  pushPlainItem TaskListCategory.

(** Modelled from the spec: [NoteService.PushNoteItem] is called by the
    handlers but its file is not among the sources embedded here. The spec gives all
    kinds one LWW upsert protocol and a parent validation to the two child
    kinds only, so it is the plain push at its own table. *)
Definition PushNoteItem : string → Item → Tx Item PushAck := pushPlainItem Note.

(** Modelled from the spec: [TaskService.PushTaskItem], whose file is not
    among the sources; the plain push at table [task], as for notes. *)
Definition PushTaskItem : string → Item → Tx Item PushAck := pushPlainItem Task.

(** Modelled from the spec: [ChatService.PushChatItem], whose file is not
    among the sources; the plain push at table [chat], as for notes. *)
Definition PushChatItem : string → Item → Tx Item PushAck := pushPlainItem Chat.

(** Modelled from the spec: [TaskListService.PushTaskListItem], whose file
    is not among the sources; the plain push at table [task_list], as for
    notes. *)
Definition PushTaskListItem : string → Item → Tx Item PushAck := pushPlainItem TaskList.

(** The push function of each kind. *)
Definition PushItem (k : Kind) : string → Item → Tx Item PushAck :=
  match k with
  | Note => PushNoteItem
  | Task => PushTaskItem
  | TaskList => PushTaskListItem
  | TaskListCategory => PushTaskListCategoryItem
  | Chat => PushChatItem
  | ChatMessage => PushChatMessageItem
  | Comment => PushCommentItem
  end.

End Push.

(** ** Pull: one page of a kind's table *)

(** A tombstone as a pull reports it: [{"uid": uid, "deletedAt": ...}]. *)
Record DeleteEntry := mkDelete {
  del_uid : string;
  del_deletedAt : string
}.

Section Pull.
Context {Item : Type} `{!Syncx Item}.

(** [syncservice.PullResponse]. *)
Record PullResponse := mkPull {
  Upserts : list Item;
  Deletes : list DeleteEntry;
  NextCursor : option string
}.

(** The row comparison [(updated_at_ms, uid) > ($2, $3::uuid)]. *)
Definition after_cursor (c : Cursor) (ms : Z) (uid : UUID) : Prop :=
  Ms c < ms ∨ (Ms c = ms ∧ (CurUID c < uid)%N).

(** [ORDER BY updated_at_ms, uid] on the selected rows. *)
Definition scan_le (a b : UUID * Row Item) : Prop :=
  updated_at_ms a.2 < updated_at_ms b.2
  ∨ (updated_at_ms a.2 = updated_at_ms b.2 ∧ (a.1 ≤ b.1)%N).

Definition scan_lt (a b : UUID * Row Item) : Prop :=
  updated_at_ms a.2 < updated_at_ms b.2
  ∨ (updated_at_ms a.2 = updated_at_ms b.2 ∧ (a.1 < b.1)%N).

Global Instance scan_le_dec a b : Decision (scan_le a b).
Proof. unfold scan_le. apply _. Defined.

Global Instance after_cursor_dec c ms uid : Decision (after_cursor c ms uid).
Proof. unfold after_cursor. apply _. Defined.

(** The rows of one owner that lie after the cursor, with their uid. *)
Definition selected (owner : string) (c : Cursor)
    (t : gmap (string * UUID) (Row Item)) : list (UUID * Row Item) :=
  omap (λ kr : (string * UUID) * Row Item,
          if bool_decide (kr.1.1 = owner
                          ∧ after_cursor c (updated_at_ms kr.2) kr.1.2)
          then Some (kr.1.2, kr.2) else None)
       (map_to_list t).

(** The page the query returns:
<<
  SELECT payload_json, deleted_at_ms, updated_at_ms, uid FROM t
  WHERE owner_id = $1 AND (updated_at_ms, uid) > ($2, $3::uuid)
  ORDER BY updated_at_ms, uid LIMIT $4
>>
    PostgreSQL refuses a negative [LIMIT]. *)
Definition page (owner : string) (c : Cursor) (limit : Z)
    (t : gmap (string * UUID) (Row Item)) : list (UUID * Row Item) :=
  take (Z.to_nat limit) (merge_sort scan_le (selected owner c t)).

Definition QueryPage (k : Kind) (owner : string) (c : Cursor) (limit : Z)
    : Tx Item (DbErr + list (UUID * Row Item)) :=
  let* f := statement in
  match f with
  | Some e => ret (inl (ErrOther e))
  | None =>
      if bool_decide (limit < 0) then
        ret (inl (ErrOther "LIMIT must not be negative"))
      else
        let* d := read_view in
        ret (inr (page owner c limit (table k d)))
  end.

(** The loop over [rows.Next()]: what it has collected so far. *)
Record PullAcc := mkAcc {
  acc_upserts : list Item;
  acc_deletes : list DeleteEntry;
  lastMs : Z;
  lastUID : UUID
}.

Definition pull_step (a : PullAcc) (r : UUID * Row Item) : PullAcc :=
  match deleted_at_ms r.2 with
  | Some deletedAtMs =>
      mkAcc (acc_upserts a)
            (acc_deletes a ++ [mkDelete (UUIDString r.1) (RFC3339 deletedAtMs)])
            (updated_at_ms r.2) r.1
  | None =>
      mkAcc (acc_upserts a ++ [payload_json r.2]) (acc_deletes a)
            (updated_at_ms r.2) r.1
  end.

(** The pull of one kind, as [PullComments], [PullChatMessages] and
    [PullTaskListCategories] have it (they differ in the table they name). *)
Definition pullKind (k : Kind) (userID : string) (cursor : Cursor) (limit : Z)
    : Tx Item (string + PullResponse) :=
  let* rows := QueryPage k userID cursor limit in
  match rows with
  | inl e => ret (inl (err_text e))
  | inr rows =>
      let a := fold_left pull_step rows (mkAcc [] [] 0 uuid_Nil) in
      let* f := statement in   (* rows.Err() *)
      match f with
      | Some e => ret (inl e)
      | None =>
          let nextCursor :=
            if bool_decide (0 < length (acc_upserts a) + length (acc_deletes a))%nat
            then Some (EncodeCursor (mkCursor (lastMs a) (lastUID a)))
            else None in
          ret (inr (mkPull (acc_upserts a) (acc_deletes a) nextCursor))
      end
  end.

(** [CommentService.PullComments]. *)
Definition PullComments : string → Cursor → Z → Tx Item (string + PullResponse) :=
  pullKind Comment.

(** [ChatMessageService.PullChatMessages]. *)
Definition PullChatMessages : string → Cursor → Z → Tx Item (string + PullResponse) :=
  pullKind ChatMessage.

(** [TaskListCategoryService.PullTaskListCategories]. *)
Definition PullTaskListCategories : string → Cursor → Z → Tx Item (string + PullResponse) :=
  pullKind TaskListCategory.

(** What the specification reads off a page: the cursor pair of a row, the upserts
    and the deletes it gives rise to. *)
Definition cursor_of (r : UUID * Row Item) : Cursor :=
  mkCursor (updated_at_ms r.2) r.1.

Definition upserts_of (rows : list (UUID * Row Item)) : list Item :=
  omap (λ r : UUID * Row Item,
          match deleted_at_ms r.2 with
          | None => Some (payload_json r.2)
          | Some _ => None
          end) rows.

Definition deletes_of (rows : list (UUID * Row Item)) : list DeleteEntry :=
  omap (λ r : UUID * Row Item,
          match deleted_at_ms r.2 with
          | Some t => Some (mkDelete (UUIDString r.1) (RFC3339 t))
          | None => None
          end) rows.

End Pull.

Arguments PullResponse : clear implicits.

(** ** Transactions *)

Section Transactions.
Context {Item : Type}.

(** [tx, err := DB.Begin(ctx); defer tx.Rollback(ctx); ...; tx.Commit(ctx)]:
    the body works on a private view; an error return of the body, or a
    failed commit, leaves the rows as they were at [Begin]. *)
Definition transaction {E A : Type} (beginErr commitErr : string → E)
    (body : Tx Item (E + A)) : Tx Item (E + A) :=
  λ s0,
    let '(f, s1) := statement s0 in
    match f with
    | Some e => (inl (beginErr e), s1)
    | None =>
        let '(r, s2) := body s1 in
        match r with
        | inl e => (inl e, mkTx (view s0) (faults s2))
        | inr a =>
            let '(c, s3) := statement s2 in
            match c with
            | Some e => (inl (commitErr e), mkTx (view s0) (faults s3))
            | None => (inr a, s3)
            end
        end
    end.

End Transactions.

(** ** Push: the batch of a handler *)

Section Batch.
Context {Item : Type} `{!Syncx Item}.

(** The loop [for _, item := range req.Items]: items are pushed in the order
    presented and every ack is kept. *)
Fixpoint pushItems (k : Kind) (userID : string) (items : list Item)
    : Tx Item (list PushAck) :=
  match items with
  | [] => ret []
  | item :: rest =>
      let* ack := PushItem k userID item in
      let* acks := pushItems k userID rest in
      ret (ack :: acks)
  end.

(** The push handlers of [internal/httpapi] ([PushNotes], [PushChats],
    [PushTaskLists], [PushTaskListCategories]): one transaction per batch;
    the status code and the acks written to the client. *)
Definition PushBatch (k : Kind) (userID : string) (items : list Item)
    : Tx Item (Z * list PushAck) :=
  λ s,
    let '(r, s') :=
      transaction (λ _ : string, "transaction error") (λ _ : string, "commit failed")
                  (let* acks := pushItems k userID items in ret (inr acks)) s in
    match r with
    | inl e => ((500, [mkAck "" 0 "" e]), s')
    | inr acks => ((200, acks), s')
    end.

End Batch.

(** ** REST mutation of a task list category *)

(** [syncservice.MutationOpts]; [EnforceVersion] says that
    [ExpectedVersion] was provided. *)
Record MutationOpts := mkOpts {
  EnforceVersion : bool;
  ExpectedVersion : Z;
  ForceTimestampMs : option Z;
  SetDeleted : bool
}.

(** The errors a mutation returns: [*VersionMismatchError],
    [*MutationError], or the error of the driver. *)
Inductive MutationErr :=
| VersionMismatchError (Expected Actual : Z)
| MutationError (Message : string)
| DriverError (msg : string).

(** Modelled from the spec: [syncx.EnsureMonotonicTimestamp] is not among
    the sources; the spec gives the write timestamp of an existing row as
    [max(now_ms, stored_ms + 1)]. *)
Definition EnsureMonotonicTimestamp (now_ms existingMs : Z) : Z :=
  Z.max now_ms (existingMs + 1).

Section Mutation.
Context {Item : Type} `{!Syncx Item}.

(** [syncservice.RESTItem]. *)
Record RESTItem := mkRESTItem {
  r_UID : string;
  r_Version : Z;
  r_UpdatedAt : string;
  r_DeletedAt : option string;
  r_Payload : Item
}.

(** The uid the mutation addresses: the one in the payload, or a fresh one
    ([uuid.New()], here [fresh]) written back into the payload. *)
Definition mutation_target (fresh : UUID) (payload : Item) : UUID * Item :=
  if bool_decide (PayloadUID payload = uuid_Nil)
  then (fresh, SetPayloadUID payload fresh)
  else (PayloadUID payload, payload).

(** [UPDATE task_list_category SET payload_json = jsonb_set(...)
     WHERE owner_id = $2 AND uid = $3]. *)
Definition ExecSetSyncVersion (k : Kind) (v : Z) (owner : string) (uid : UUID)
    : Tx Item (option string) :=
  let* f := statement in
  match f with
  | Some e => ret (Some e)
  | None =>
      let* d := read_view in
      let* _ := write_view
        (set_table k
           (alter (λ r, mkRow (updated_at_ms r) (deleted_at_ms r) (version r)
                              (JsonbSetSyncVersion (payload_json r) v) (parent r))
                  (owner, uid) (table k d)) d) in
      ret None
  end.

(** The mutation once the probe has answered: [isNew] is
    [err == pgx.ErrNoRows], and [existingMs], [existingVersion] keep their
    zero values when no row was scanned. *)
Definition applyProbed (now_ms : Z) (userID : string) (categoryUID : UUID)
    (payload : Item) (opts : MutationOpts)
    (isNew : bool) (existingMs existingVersion : Z)
    : Tx Item (MutationErr + RESTItem) :=
  if negb isNew && EnforceVersion opts
     && negb (Z.eqb existingVersion (ExpectedVersion opts)) then
    ret (inl (VersionMismatchError (ExpectedVersion opts) existingVersion))
  else
    let timestampMs :=
      match ForceTimestampMs opts with
      | Some t => t
      | None => if isNew then now_ms
                else EnsureMonotonicTimestamp now_ms existingMs
      end in
    let mutatedPayload :=
      BuildServerMutation payload timestampMs (SetDeleted opts) in
    let* ack := PushTaskListCategoryItem userID mutatedPayload in
    if negb (String.eqb (AckError ack) "") then
      ret (inl (MutationError (AckError ack)))
    else
      let* err := ExecSetSyncVersion TaskListCategory (AckVersion ack)
                                     userID categoryUID in
      match err with
      | Some e => ret (inl (DriverError e))
      | None =>
          let deletedAt :=
            if SetDeleted opts then Some (RFC3339 timestampMs) else None in
          ret (inr (mkRESTItem (AckUID ack) (AckVersion ack)
                               (AckUpdatedAt ack) deletedAt
                               (PatchSyncVersion mutatedPayload (AckVersion ack))))
      end.

(** [TaskListCategoryService.ApplyTaskListCategoryMutation]; [now_ms] is what
    [syncx.NowMs()] reads. The commit is the last fallible step: what
    follows it in the source only assembles the value returned. *)
Definition ApplyTaskListCategoryMutation (now_ms : Z) (fresh : UUID)
    (userID : string) (payload : Item) (opts : MutationOpts)
    : Tx Item (MutationErr + RESTItem) :=
  transaction DriverError DriverError
    (let target := mutation_target fresh payload in
     let* probe := QueryMsVersion TaskListCategory userID target.1 in
     match probe with
     | inl (ErrOther e) => ret (inl (DriverError e))
     | inl ErrNoRows => applyProbed now_ms userID target.1 target.2 opts true 0 0
     | inr (existingMs, existingVersion) =>
         applyProbed now_ms userID target.1 target.2 opts false
                     existingMs existingVersion
     end).

End Mutation.

Arguments RESTItem : clear implicits.

(** ** The session registry ([internal/session]) *)

(** Instants ([time.Time] in UTC) are counted in nanoseconds. *)
Record Session := mkSession {
  ID : string;
  UserID : string;
  CreatedAt : Z;
  ExpiresAt : Z;
  Epoch : Z
}.

Record Store := mkStore {
  sessions : gmap string Session;
  ttl : Z
}.


(** [cleanupExpiredLocked]: drop every session with [now.After(ExpiresAt)]. *)
Definition cleanupExpiredLocked (now : Z) (s : Store) : Store :=
  mkStore (filter (λ kv : string * Session, ¬ (ExpiresAt kv.2 < now)) (sessions s))
          (ttl s).

(** [CreateSession]; [newID] is [uuid.New().String()], and [now] stands for
    both readings of the clock. *)
Definition CreateSession (now : Z) (newID : string) (userID : string)
    (epoch : Z) (s : Store) : Session * Store :=
  let session := mkSession newID userID now (now + ttl s) epoch in
  (session, cleanupExpiredLocked now (mkStore (<[newID := session]> (sessions s)) (ttl s))).

(** [GetSession]: Go's [(Session{}, false)] is [None]. *)
Definition GetSession (now : Z) (sessionID : string) (s : Store) : option Session :=
  match sessions s !! sessionID with
  | None => None
  | Some session =>
      if bool_decide (ExpiresAt session < now) then None else Some session
  end.

(** [DeleteSession]. *)
Definition DeleteSession (sessionID : string) (s : Store) : bool * Store :=
  match sessions s !! sessionID with
  | Some _ => (true, mkStore (delete sessionID (sessions s)) (ttl s))
  | None => (false, s)
  end.

(** [DeleteUserSessions]: the number of sessions removed, and the registry
    left. *)
Definition DeleteUserSessions (userID : string) (s : Store) : nat * Store :=
  (size (filter (λ kv : string * Session, UserID kv.2 = userID) (sessions s)),
   mkStore (filter (λ kv : string * Session, UserID kv.2 ≠ userID) (sessions s))
           (ttl s)).

(** ** The epoch controller ([internal/grpcapi]: WipeAccount, GetSyncState) *)

(** gRPC status codes the handlers return. *)
Inductive Code :=
| Unauthenticated | InvalidArgument | Internal | NotFound | PermissionDenied.

Record Status := mkStatus { code : Code; message : string }.

(** Go's conversion [int32(x)] of an [int]: the low 32 bits, signed. *)
Definition int32 (x : Z) : Z := (x + 2 ^ 31) mod 2 ^ 32 - 2 ^ 31.

(** The text of the status a wipe without confirmation gets:
    [confirmation required: must send confirm="WIPE"]. *)
Definition confirmation_required : string :=
  "confirmation required: must send confirm="
  +:+ String "034"%char "WIPE" +:+ String "034"%char "".

(** [syncv1.WipeResult]. *)
Record WipeResult := mkWipeResult {
  w_Epoch : Z;
  w_Deleted : gmap string Z
}.

(** [syncv1.UserSyncState]; an unset [LastWipeBy] is the empty string. *)
Record UserSyncState := mkSyncState {
  s_Epoch : Z;
  s_LastWipeAt : option Z;
  s_LastWipeBy : string
}.

(** The tables the wipe names, in its order:
    [[]string{"chat_message", "comment", "chat", "task", "note"}]. *)
Definition wipe_tables : list Kind := [ChatMessage; Comment; Chat; Task; Note].

Section Epoch.
Context {Item : Type}.

(** What a process holds: the database with the driver's faults to come,
    and the session registry. *)
Record Server := mkServer {
  pg : TxState Item;
  registry : Store
}.

(** The rows of one owner in a table. *)
Definition owned (userID : string) (t : gmap (string * UUID) (Row Item))
    : gmap (string * UUID) (Row Item) :=
  filter (λ kr : (string * UUID) * Row Item, kr.1.1 = userID) t.

(** The epoch bump:
<<
  INSERT INTO owner_state(owner_id, epoch, last_wipe_at, last_wipe_by, ...)
  VALUES ($1, 2, NOW(), $1, NOW(), NOW())
  ON CONFLICT (owner_id) DO UPDATE
    SET epoch = owner_state.epoch + 1, last_wipe_at = NOW(),
        last_wipe_by = EXCLUDED.last_wipe_by, updated_at = NOW()
  RETURNING epoch
>> *)
Definition QueryBumpEpoch (now : Z) (userID : string) : Tx Item (DbErr + Z) :=
  let* f := statement in
  match f with
  | Some e => ret (inl (ErrOther e))
  | None =>
      let* d := read_view in
      let newEpoch :=
        match owner_state d !! userID with
        | None => 2
        | Some o => epoch o + 1
        end in
      let* _ := write_view
        (set_owner_state
           (<[userID := mkOwnerState newEpoch (Some now) (Some userID)]> (owner_state d))
           d) in
      ret (inr newEpoch)
  end.

(** [WITH del AS (DELETE FROM t WHERE owner_id = $1 RETURNING 1)
     SELECT COUNT( * ) FROM del]. *)
Definition QueryDeleteOwned (k : Kind) (userID : string) : Tx Item (DbErr + Z) :=
  let* f := statement in
  match f with
  | Some e => ret (inl (ErrOther e))
  | None =>
      let* d := read_view in
      let count := Z.of_nat (size (owned userID (table k d))) in
      let* _ := write_view
        (set_table k
           (filter (λ kr : (string * UUID) * Row Item, kr.1.1 ≠ userID) (table k d))
           d) in
      ret (inr count)
  end.

(** The loop [for _, table := range tables]. *)
Fixpoint deleteTables (tables : list Kind) (userID : string)
    (deleted : gmap string Z) : Tx Item (Status + gmap string Z) :=
  match tables with
  | [] => ret (inr deleted)
  | k :: rest =>
      let* r := QueryDeleteOwned k userID in
      match r with
      | inl _ => ret (inl (mkStatus Internal ("delete failed: " +:+ table_name k)))
      | inr count =>
          deleteTables rest userID (<[table_name k := int32 count]> deleted)
      end
  end.

(** [Server.WipeAccount]; [now] is the database's [NOW()]. *)
Definition WipeAccount (now : Z) (userID confirm : string) (srv : Server)
    : (Status + WipeResult) * Server :=
  if bool_decide (userID = "") then
    (inl (mkStatus Unauthenticated "unauthorized"), srv)
  else if bool_decide (confirm ≠ "WIPE") then
    (inl (mkStatus InvalidArgument confirmation_required), srv)
  else
    let '(r, pg') :=
      transaction
        (λ _, mkStatus Internal "transaction begin failed")
        (λ _, mkStatus Internal "commit failed")
        (let* bumped := QueryBumpEpoch now userID in
         match bumped with
         | inl _ => ret (inl (mkStatus Internal "epoch update failed"))
         | inr newEpoch =>
             let* deleted := deleteTables wipe_tables userID ∅ in
             match deleted with
             | inl st => ret (inl st)
             | inr deleted => ret (inr (newEpoch, deleted))
             end
         end)
        (pg srv) in
    match r with
    | inl st => (inl st, mkServer pg' (registry srv))
    | inr (newEpoch, deleted) =>
        let '(sessionsDeleted, registry') := DeleteUserSessions userID (registry srv) in
        (inr (mkWipeResult (int32 newEpoch) deleted), mkServer pg' registry')
    end.

(** [Server.GetSyncState]:
    [SELECT epoch, last_wipe_at, last_wipe_by FROM owner_state
     WHERE owner_id = $1]. *)
Definition GetSyncState (userID : string) (srv : Server)
    : (Status + UserSyncState) * Server :=
  if bool_decide (userID = "") then
    (inl (mkStatus Unauthenticated "unauthorized"), srv)
  else
    let '(f, pg') := statement (pg srv) in
    match f with
    | Some _ =>
        (inl (mkStatus Internal "failed to load sync state"), mkServer pg' (registry srv))
    | None =>
        match owner_state (view pg') !! userID with
        | None => (inr (mkSyncState 1 None ""), mkServer pg' (registry srv))
        | Some o =>
            (inr (mkSyncState (int32 (epoch o)) (last_wipe_at o)
                              (default "" (last_wipe_by o))),
             mkServer pg' (registry srv))
        end
    end.

(** The epoch the server holds for a user: the stored one, and 1 for a user
    without an [owner_state] row (what [GetSyncState] answers, and what
    [BeginSession] would create). *)
Definition stored_epoch (d : DB Item) (userID : string) : Z :=
  match owner_state d !! userID with
  | Some o => epoch o
  | None => 1
  end.

End Epoch.

Arguments Server : clear implicits.

(** ** The client retry core ([internal/mcpserver/client]) *)

Module Client.

(** The maximum number of retry attempts for retryable errors. *)
Definition MaxRetries : nat := 3.

(** One second, in nanoseconds ([time.Duration]). *)
Definition Second : Z := 1000000000.
Definition DefaultBackoff : Z := 1 * Second.

(** [time.Duration] arithmetic is on [int64]. *)
Definition int64 (x : Z) : Z := (x + 2 ^ 63) mod 2 ^ 64 - 2 ^ 63.

(** A header as the code reads it: absent (the empty string), a decimal
    integer ([strconv.Atoi] succeeds), an HTTP date ([http.ParseTime]
    succeeds, the instant in nanoseconds), or anything else. *)
Inductive HeaderValue :=
| HAbsent
| HInt (n : Z)
| HDate (t : Z)
| HOther.

(** [parseRetryAfter]; [now] is the clock [time.Until] reads. The text of
    an integer is not an HTTP date. *)
Definition parseRetryAfter (now : Z) (value : HeaderValue) : Z :=
  match value with
  | HAbsent => 0
  | HInt seconds => if Z.ltb 0 seconds then int64 (seconds * Second) else 0
  | HDate t => let duration := int64 (t - now) in
               if Z.ltb 0 duration then duration else 0
  | HOther => 0
  end.

(** A response: the status, the two headers the retry core reads, and
    the body as [json.Unmarshal] sees it ([None]: the body could not be read
    or is not JSON; otherwise the [error] and [epoch] fields). *)
Record Response := mkResponse {
  StatusCode : Z;
  RetryAfter : HeaderValue;
  XSyncEpoch : HeaderValue;
  ErrorBody : option (string * Z)
}.

(** [HTTPClient]: the two fields the control flow depends on. In dev mode
    there is no token provider; [hasSessionMgr] is [sessionMgr != nil]. *)
Record HTTPClient := mkClient {
  devMode : bool;
  hasSessionMgr : bool
}.

(** What the outside does at the attempt with a given [retryCount]: whether
    the request body can be read again, the token and the session the
    providers hand out, what the round trip yields, and whether the context
    is cancelled before the backoff timer fires. *)
Record Env := mkEnv {
  cloneOk : nat → bool;
  getToken : nat → option string;
  ensureSession : nat → option (string * Z);
  roundTrip : nat → string + Response;
  ctxDone : nat → bool;
  clock : nat → Z
}.

Inductive Auth :=
| DebugSub
| Bearer (token : string).

(** What a logical call does to the outside, in order. *)
Inductive Event :=
| EvHTTP (auth : Auth) (session : option (string * Z))
| EvInvalidateToken
| EvInvalidateSession
| EvSleep (d : Z).

Inductive ClientErr :=
| CloneFailed
| TokenFailed
| SessionFailed
| TransportError (msg : string)
| AuthFailedAfter (retries : nat)
| AuthFailedDevMode
| ErrEpochMismatch (ServerEpoch : Z)
| ErrRateLimited (RetryAfterSeconds : Z)
| ContextDone.

Inductive Outcome :=
| Returned (resp : Response)
| Failed (err : ClientErr).

(** The result of a run: [None] only when the model ran out of fuel. *)
Abbreviation Run := (option Outcome * list Event)%type.

Section Handlers.
(** The recursive call [c.doWithRetry(ctx, req, logger, correlationID, n)]. *)
Variable self : nat → list Event → Run.
Variable c : HTTPClient.
Variable env : Env.

(** [handleUnauthorized]. *)
Definition handleUnauthorized (retryCount : nat) (tr : list Event) : Run :=
  if bool_decide (MaxRetries ≤ retryCount)%nat then
    (Some (Failed (AuthFailedAfter retryCount)), tr)
  else if devMode c then
    (Some (Failed AuthFailedDevMode), tr)
  else
    self (retryCount + 1)%nat (tr ++ [EvInvalidateToken]).

(** [handleEpochMismatch]. *)
Definition handleEpochMismatch (serverEpoch : Z) (retryCount : nat)
    (tr : list Event) : Run :=
  if bool_decide (MaxRetries ≤ retryCount)%nat then
    (Some (Failed (ErrEpochMismatch serverEpoch)), tr)
  else if negb (hasSessionMgr c) then
    (Some (Failed (ErrEpochMismatch serverEpoch)), tr)
  else
    self (retryCount + 1)%nat (tr ++ [EvInvalidateSession]).

(** [handleConflict]. *)
Definition handleConflict (resp : Response) (retryCount : nat)
    (tr : list Event) : Run :=
  match ErrorBody resp with
  | Some (error, epoch) =>
      if String.eqb error "epoch_mismatch" then
        let epoch := match XSyncEpoch resp with
                     | HInt e => e
                     | _ => epoch
                     end in
        handleEpochMismatch epoch retryCount tr
      else (Some (Returned resp), tr)
  | None => (Some (Returned resp), tr)
  end.

(** [handleRateLimit]. The seconds reported at the last retry are
    [int(retryAfter.Seconds())], the duration cut to whole seconds. *)
Definition handleRateLimit (resp : Response) (retryCount : nat)
    (tr : list Event) : Run :=
  if bool_decide (MaxRetries ≤ retryCount)%nat then
    let retryAfter := parseRetryAfter (clock env retryCount) (RetryAfter resp) in
    (Some (Failed (ErrRateLimited (retryAfter `quot` Second))), tr)
  else
    let retryAfter := parseRetryAfter (clock env retryCount) (RetryAfter resp) in
    let retryAfter :=
      if Z.eqb retryAfter 0
      then int64 (DefaultBackoff * Z.shiftl 1 (Z.of_nat retryCount))
      else retryAfter in
    if ctxDone env retryCount then (Some (Failed ContextDone), tr)
    else self (retryCount + 1)%nat (tr ++ [EvSleep retryAfter]).

End Handlers.

(** [doWithRetry]. The Go function recurses through its handlers; the model
    recurses on [fuel], and [fuel_suffices] below shows that [MaxRetries + 1]
    units are always enough. *)
Fixpoint doWithRetry (fuel : nat) (c : HTTPClient) (env : Env)
    (retryCount : nat) (tr : list Event) : Run :=
  match fuel with
  | O => (None, tr)
  | S fuel' =>
      if negb (cloneOk env retryCount) then (Some (Failed CloneFailed), tr)
      else
        match (if devMode c then Some DebugSub
               else Bearer <$> getToken env retryCount) with
        | None => (Some (Failed TokenFailed), tr)
        | Some auth =>
            match (if hasSessionMgr c then Some <$> ensureSession env retryCount
                   else Some None) with
            | None => (Some (Failed SessionFailed), tr)
            | Some session =>
                let tr := tr ++ [EvHTTP auth session] in
                match roundTrip env retryCount with
                | inl e => (Some (Failed (TransportError e)), tr)
                | inr resp =>
                    if Z.eqb (StatusCode resp) 401 then
                      handleUnauthorized (doWithRetry fuel' c env) c retryCount tr
                    else if Z.eqb (StatusCode resp) 409 then
                      handleConflict (doWithRetry fuel' c env) c resp retryCount tr
                    else if Z.eqb (StatusCode resp) 429 then
                      handleRateLimit (doWithRetry fuel' c env) env resp retryCount tr
                    else (Some (Returned resp), tr)
                end
            end
        end
  end.

(** [HTTPClient.Do]: the logical call. *)
Definition Do (c : HTTPClient) (env : Env) : Run :=
  doWithRetry (S MaxRetries) c env 0 [].

(** The number of HTTP attempts a run made. *)
Definition is_http (e : Event) : bool :=
  match e with
  | EvHTTP _ _ => true
  | _ => false
  end.

Definition attempts (tr : list Event) : nat :=
  length (List.filter is_http tr).

End Client.

(** ** What the specification says, in the terms of the model *)

Section Rules.
Context {Item : Type} `{!Syncx Item}.

(** The header and the parent columns a push of kind [k] takes from an
    item, when its extraction succeeds. *)
Definition pushed (k : Kind) (item : Item) : option (CommonExt * ParentRefs) :=
  match k with
  | Comment =>
      match ExtractComment item with
      | inr e => Some (c_common e, CommentParent (ParentType e) (ParentUID e))
      | inl _ => None
      end
  | ChatMessage =>
      match ExtractChatMessage item with
      | inr e => Some (m_common e, ChatParent (ChatUID e))
      | inl _ => None
      end
  | _ =>
      match ExtractCommon item with
      | inr e => Some (e, NoParent)
      | inl _ => None
      end
  end.

(** A row of [owner] with this uid exists in table [k] and is no tombstone. *)
Definition live (k : Kind) (owner : string) (uid : UUID) (d : DB Item) : bool :=
  match table k d !! (owner, uid) with
  | Some r => bool_decide (deleted_at_ms r = None)
  | None => false
  end.

(** The table a comment's [parent_type] names. *)
Definition parent_kind (parent_type : string) : option Kind :=
  if String.eqb parent_type "note" then Some Note
  else if String.eqb parent_type "task" then Some Task
  else None.

(** The parent row of a child item exists for the same owner and is live:
    a note or task matching [parent_type] for a comment, a chat for a chat
    message. *)
Definition parent_exists (refs : ParentRefs) (owner : string) (d : DB Item) : bool :=
  match refs with
  | NoParent => true
  | CommentParent pt uid =>
      match parent_kind pt with
      | Some k => live k owner uid d
      | None => false
      end
  | ChatParent uid => live Chat owner uid d
  end.

(** The parent columns name a table: [parent_type] is [note] or [task]. *)
Definition valid_parent_type (refs : ParentRefs) : bool :=
  match refs with
  | CommentParent pt _ => bool_decide (is_Some (parent_kind pt))
  | _ => true
  end.

(** The text of the parent-not-found error of an ack. *)
Definition parent_not_found (refs : ParentRefs) : string :=
  match refs with
  | NoParent => ""
  | CommentParent pt uid => "parent " +:+ pt +:+ " not found: " +:+ UUIDString uid
  | ChatParent uid => "parent chat not found: " +:+ UUIDString uid
  end.

(** The push is let through to the upsert: the parent type is valid, the
    item is a tombstone or its parent exists, and the item serialises. *)
Definition validated (item : Item) (ext : CommonExt) (refs : ParentRefs)
    (owner : string) (d : DB Item) : bool :=
  valid_parent_type refs
  && (bool_decide (is_Some (DeletedAtMs ext)) || parent_exists refs owner d)
  && Marshalable item.

(** The database after the upsert of an item. *)
Definition upserted (k : Kind) (owner : string) (item : Item) (ext : CommonExt)
    (refs : ParentRefs) (d : DB Item) : DB Item :=
  set_table k
    (upsert_row owner (UID ext) (UpdatedAtMs ext) (DeletedAtMs ext) (Version ext)
                item refs (table k d)) d.

(** The LWW rule on a key conflict, for one push on a healthy connection of
    an item with header [ext] and parent columns [refs] whose key holds the
    row [old]: a strictly newer push replaces payload, timestamps and parent
    columns and ticks the version; any other push changes nothing and is
    acked with the stored [(version, updated_at_ms)]. *)
Definition lww_conflict_rule (k : Kind) (userID : string) (item : Item)
    (ext : CommonExt) (refs : ParentRefs) (old : Row Item) (d : DB Item) : Prop :=
  let r := PushItem k userID item (healthy d) in
  (updated_at_ms old < UpdatedAtMs ext →
     view r.2 = set_table k
                  (<[(userID, UID ext) :=
                       mkRow (UpdatedAtMs ext) (DeletedAtMs ext)
                             (version old + 1) item refs]> (table k d)) d)
  ∧ (UpdatedAtMs ext ≤ updated_at_ms old →
     view r.2 = d
     ∧ r.1 = mkAck (UUIDString (UID ext)) (version old)
                   (RFC3339 (updated_at_ms old)) "").

(** The parent rule for one push of a child item on a healthy connection:
    a live item is upserted only if its parent exists, and is otherwise
    refused with the parent-not-found error and no write; a tombstone is
    upserted without a look at the parent. *)
Definition parent_rule (k : Kind) (userID : string) (item : Item)
    (ext : CommonExt) (refs : ParentRefs) (d : DB Item) : Prop :=
  let r := PushItem k userID item (healthy d) in
  match DeletedAtMs ext with
  | None =>
      if parent_exists refs userID d
      then view r.2 = upserted k userID item ext refs d ∧ AckError r.1 = ""
      else view r.2 = d ∧ AckError r.1 = parent_not_found refs
  | Some _ =>
      view r.2 = upserted k userID item ext refs d ∧ AckError r.1 = ""
  end.

(** The text of the ack of a comment whose [parent_type] names no table. *)
Definition invalid_parent_type (refs : ParentRefs) : string :=
  match refs with
  | CommentParent pt _ =>
      "invalid parent_type: " +:+ pt +:+ " (must be 'note' or 'task')"
  | _ => ""
  end.

(** Every stored row has a version of at least 1. *)
Definition versions_ok (d : DB Item) : Prop :=
  ∀ k key r, table k d !! key = Some r → 1 ≤ version r.

(** No row of [userID] is left in table [k]. *)
Definition no_rows_of (userID : string) (k : Kind) (d : DB Item) : Prop :=
  ∀ uid, table k d !! (userID, uid) = None.

(** No session of [userID] is left in the registry. *)
Definition no_sessions_of (userID : string) (s : Store) : Prop :=
  ∀ id sess, sessions s !! id = Some sess → UserID sess ≠ userID.

End Rules.

(** ** A small in-memory stand-in for [syncx], for the examples *)

Module Demo.

(** An item whose header is in the open: uid, timestamps, version, parent
    columns, and a title as the domain part. *)
Record item := mkItem {
  i_uid : UUID;
  i_ms : Z;
  i_deleted : option Z;
  i_version : Z;
  i_parent_type : string;
  i_parent_uid : UUID;
  i_title : string
}.

Definition header (i : item) : CommonExt :=
  mkCommon (i_uid i) (i_ms i) (i_deleted i) (i_version i).

Definition with_uid (i : item) (u : UUID) : item :=
  mkItem u (i_ms i) (i_deleted i) (i_version i) (i_parent_type i)
         (i_parent_uid i) (i_title i).

Definition with_version (i : item) (v : Z) : item :=
  mkItem (i_uid i) (i_ms i) (i_deleted i) v (i_parent_type i)
         (i_parent_uid i) (i_title i).

Definition mutate (i : item) (ts : Z) (del : bool) : item :=
  mkItem (i_uid i) ts (if del then Some ts else None) (i_version i)
         (i_parent_type i) (i_parent_uid i) (i_title i).

Global Instance syncx : Syncx item := {|
  ExtractCommon i := inr (header i);
  ExtractComment i := inr (mkCommentExt (header i) (i_parent_type i) (i_parent_uid i));
  ExtractChatMessage i := inr (mkChatMessageExt (header i) (i_parent_uid i));
  RFC3339 ms := "t" +:+ pretty ms;
  EncodeCursor c := pretty (Ms c) +:+ "/" +:+ pretty (CurUID c);
  UUIDString u := pretty u;
  Marshalable _ := true;
  PayloadUID := i_uid;
  SetPayloadUID := with_uid;
  BuildServerMutation := mutate;
  JsonbSetSyncVersion := with_version;
  PatchSyncVersion := with_version
|}.

Definition row_of (i : item) (v : Z) (refs : ParentRefs) : Row item :=
  mkRow (i_ms i) (i_deleted i) v i refs.

(** A comment on note 7, written at 1000, and a newer edit of it. *)
Definition comment1 : item := mkItem 1 1000 None 1 "note" 7 "first".
Definition comment1_edit : item := mkItem 1 2000 None 1 "note" 7 "second".

(** The tombstone of a comment whose parent type names no table. *)
Definition comment_tombstone_bad_type : item :=
  mkItem 2 3000 (Some 3000) 1 "chat" 9 "".

Definition note7 : item := mkItem 7 500 None 1 "" 0 "a note".

(** User [u1] has comment 1 but its note 7 is gone. *)
Definition db_orphan : DB item :=
  set_table Comment {[ ("u1", 1%N) := row_of comment1 1 (CommentParent "note" 7) ]}
            empty_db.

(** User [u1] has note 7 and comment 1 on it. *)
Definition db_note_comment : DB item :=
  set_table Note {[ ("u1", 7%N) := row_of note7 1 NoParent ]} db_orphan.

(** A task list of [u1] and one of its categories. *)
Definition list3 : item := mkItem 3 700 None 1 "" 0 "groceries".
Definition category4 : item := mkItem 4 800 None 3 "" 0 "dairy".

(** User [u1] has a note, a comment on it, a task list and a category;
    user [u2] has a note. *)
Definition db_u1 : DB item :=
  set_table TaskList {[ ("u1", 3%N) := row_of list3 1 NoParent ]}
    (set_table TaskListCategory {[ ("u1", 4%N) := row_of category4 3 NoParent ]}
       (set_table Note {[ ("u1", 7%N) := row_of note7 1 NoParent;
                          ("u2", 8%N) := row_of (mkItem 8 600 None 1 "" 0 "other") 1 NoParent ]}
          db_orphan)).

(** [u1] is at epoch 5 and holds session [s1]; [u2] holds session [s2]. *)
Definition registry_u1 : Store :=
  mkStore {[ "s1" := mkSession "s1" "u1" 0 1800 5;
             "s2" := mkSession "s2" "u2" 0 1800 1 ]} 1800.

Definition server_u1 : Server item :=
  mkServer
    (healthy (set_owner_state {[ "u1" := mkOwnerState 5 None None ]} db_u1))
    registry_u1.

(** The same server on a connection whose fourth statement (the delete of
    [comment]) fails. *)
Definition server_u1_faulty : Server item :=
  mkServer
    (mkTx (set_owner_state {[ "u1" := mkOwnerState 5 None None ]} db_u1)
          [None; None; None; Some "connection reset"])
    registry_u1.

(** What a successful result carries, seen through [f]. *)
Definition on_ok {E A B : Type} (f : A → B) (r : E + A) : E + B :=
  match r with
  | inl e => inl e
  | inr a => inr (f a)
  end.

(** Note 5 in three successive states, for the out-of-order scenario. *)
Definition note5 (ms : Z) (title : string) : item := mkItem 5 ms None 1 "" 0 title.

(** Four notes of [u1] written at 1, 2, 3 and 4. *)
Definition four_notes : DB item :=
  set_table Note
    {[ ("u1", 11%N) := row_of (mkItem 11 1 None 1 "" 0 "a") 1 NoParent;
       ("u1", 12%N) := row_of (mkItem 12 2 None 1 "" 0 "b") 1 NoParent;
       ("u1", 13%N) := row_of (mkItem 13 3 None 1 "" 0 "c") 1 NoParent;
       ("u1", 14%N) := row_of (mkItem 14 4 None 1 "" 0 "d") 1 NoParent ]}
    empty_db.

(** A production client with a session manager, and a server that answers
    every request with 429 and no [Retry-After]. *)
Definition prod_client : Client.HTTPClient := Client.mkClient false true.

Definition always_429 : Client.Env :=
  Client.mkEnv (λ _, true) (λ _, Some "token") (λ _, Some ("s1", 5))
               (λ _, inr (Client.mkResponse 429 Client.HAbsent Client.HAbsent None))
               (λ _, false) (λ _, 0).

End Demo.

(** * More of the code: REST reads, session handlers, pull arguments,
      the client's session cache and request cloning *)

(** ** REST reads of task list categories *)

Section RestReads.
Context {Item : Type} `{!Syncx Item}.

(** [syncservice.RESTListResponse]. *)
Record RESTListResponse := mkRESTList {
  l_Items : list (RESTItem Item);
  l_NextCursor : option string
}.

(** The item a stored row is shown as. *)
Definition rest_item (r : UUID * Row Item) : RESTItem Item :=
  mkRESTItem (UUIDString r.1) (version r.2) (RFC3339 (updated_at_ms r.2))
             (RFC3339 <$> deleted_at_ms r.2) (payload_json r.2).

(** [TaskListCategoryService.GetTaskListCategory]: [(nil, nil)] when there is
    no row, which is [inr None]. *)
Definition GetTaskListCategory (userID : string) (uid : UUID)
    : Tx Item (string + option (RESTItem Item)) :=
  let* f := statement in
  match f with
  | Some e => ret (inl e)
  | None =>
      let* d := read_view in
      match table TaskListCategory d !! (userID, uid) with
      | None => ret (inr None)
      | Some r => ret (inr (Some (rest_item (uid, r))))
      end
  end.

(** The rows the list query returns: the pull query with
    [AND deleted_at_ms IS NULL] added unless [includeDeleted]. *)
Definition listed (owner : string) (c : Cursor) (limit : Z) (includeDeleted : bool)
    (t : gmap (string * UUID) (Row Item)) : list (UUID * Row Item) :=
  take (Z.to_nat limit)
       (merge_sort scan_le
          (filter (λ r : UUID * Row Item,
                     includeDeleted = true ∨ deleted_at_ms r.2 = None)
                  (selected owner c t))).

(** [TaskListCategoryService.ListTaskListCategories]. *)
Definition ListTaskListCategories (userID : string) (cursor : Cursor) (limit : Z)
    (includeDeleted : bool) : Tx Item (string + RESTListResponse) :=
  let* f := statement in
  match f with
  | Some e => ret (inl e)
  | None =>
      if bool_decide (limit < 0) then ret (inl "LIMIT must not be negative")
      else
        let* d := read_view in
        let rows := listed userID cursor limit includeDeleted
                           (table TaskListCategory d) in
        let acc :=
          fold_left (λ (a : list (RESTItem Item) * Z * UUID) (r : UUID * Row Item),
                       (a.1.1 ++ [rest_item r], updated_at_ms r.2, r.1))
                    rows ([], 0, uuid_Nil) in
        let* f := statement in   (* rows.Err() *)
        match f with
        | Some e => ret (inl e)
        | None =>
            let nextCursor :=
              if bool_decide (0 < length acc.1.1)%nat
              then Some (EncodeCursor (mkCursor acc.1.2 acc.2))
              else None in
            ret (inr (mkRESTList acc.1.1 nextCursor))
        end
  end.

End RestReads.

Arguments RESTListResponse : clear implicits.

(** ** The arguments the gRPC pull handlers hand to the service *)

(** [limit := int(req.Limit); if limit <= 0 { limit = 500 };
     if limit > 1000 { limit = 1000 }], the same in every [Pull] of
    [internal/grpcapi]. *)
Definition pullLimit (reqLimit : Z) : Z :=
  let limit := reqLimit in
  let limit := if bool_decide (limit ≤ 0) then 500 else limit in
  if bool_decide (1000 < limit) then 1000 else limit.

(** ** Session handlers ([Server.BeginSession], [Server.EndSession]) *)

(** [syncv1.SyncSession]. *)
Record SyncSession := mkSyncSession {
  ss_Id : string;
  ss_UserId : string;
  ss_CreatedAt : Z;
  ss_ExpiresAt : Z;
  ss_Epoch : Z
}.

Section SessionHandlers.
Context {Item : Type}.

(** [INSERT INTO owner_state(owner_id, epoch, created_at, updated_at)
     VALUES ($1, 1, NOW(), NOW()) ON CONFLICT (owner_id) DO NOTHING
     RETURNING epoch]: a row that exists returns nothing. *)
Definition QueryInitEpoch (userID : string) : Tx Item (DbErr + Z) :=
  let* f := statement in
  match f with
  | Some e => ret (inl (ErrOther e))
  | None =>
      let* d := read_view in
      match owner_state d !! userID with
      | Some _ => ret (inl ErrNoRows)
      | None =>
          let* _ := write_view
            (set_owner_state (<[userID := mkOwnerState 1 None None]> (owner_state d)) d) in
          ret (inr 1)
      end
  end.

(** [SELECT epoch FROM owner_state WHERE owner_id = $1]. *)
Definition QueryEpoch (userID : string) : Tx Item (DbErr + Z) :=
  let* f := statement in
  match f with
  | Some e => ret (inl (ErrOther e))
  | None =>
      let* d := read_view in
      match owner_state d !! userID with
      | Some o => ret (inr (epoch o))
      | None => ret (inl ErrNoRows)
      end
  end.

(** [Server.BeginSession]; the statements run on the pool, outside any
    transaction. [now] and [newID] are what [CreateSession] reads. *)
Definition BeginSession (now : Z) (newID : string) (userID : string)
    (srv : Server Item) : (Status + SyncSession) * Server Item :=
  if bool_decide (userID = "") then
    (inl (mkStatus Unauthenticated "unauthorized"), srv)
  else
    let '(r, pg1) := QueryInitEpoch userID (pg srv) in
    let '(loaded, pg2) :=
      match r with
      | inr epoch => (inr epoch, pg1)
      | inl ErrNoRows =>
          let '(r2, pg2) := QueryEpoch userID pg1 in
          match r2 with
          | inr epoch => (inr epoch, pg2)
          | inl _ => (inl (mkStatus Internal "Failed to load epoch"), pg2)
          end
      | inl (ErrOther _) => (inl (mkStatus Internal "Failed to initialize epoch"), pg1)
      end in
    match loaded with
    | inl st => (inl st, mkServer pg2 (registry srv))
    | inr epoch =>
        let '(sess, registry') := CreateSession now newID userID epoch (registry srv) in
        (inr (mkSyncSession (ID sess) (UserID sess) (CreatedAt sess) (ExpiresAt sess)
                            (int32 (Epoch sess))),
         mkServer pg2 registry')
    end.

(** [Server.EndSession]; [inr tt] is the empty [EndSessionResponse]. *)
Definition EndSession (now : Z) (userID sessionID : string) (srv : Server Item)
    : (Status + unit) * Server Item :=
  if bool_decide (userID = "") then
    (inl (mkStatus Unauthenticated "unauthorized"), srv)
  else if bool_decide (sessionID = "") then
    (inl (mkStatus InvalidArgument "session ID required"), srv)
  else
    match GetSession now sessionID (registry srv) with
    | None => (inl (mkStatus NotFound "session not found or expired"), srv)
    | Some sess =>
        if bool_decide (UserID sess ≠ userID) then
          (inl (mkStatus PermissionDenied "forbidden"), srv)
        else
          (inr tt, mkServer (pg srv) (DeleteSession sessionID (registry srv)).2)
    end.


End SessionHandlers.

(** ** The client's session cache ([SessionManager]) and request cloning *)

Module ClientSession.

(** [client.Session]. *)
Record Session := mkSession {
  ID : string;
  UserID : string;
  Epoch : Z;
  CreatedAt : Z;
  ExpiresAt : Z
}.

(** Twenty-three hours and one minute, in nanoseconds. *)
Definition SessionCacheTTL : Z := 23 * 3600 * Client.Second.
Definition SessionRefreshBuffer : Z := 60 * Client.Second.

(** The zero [time.Time], January 1 of year 1, as an instant. *)
Definition zeroTime : Z := -62135596800 * Client.Second.

(** The two fields of [SessionManager] that change. *)
Record SessionManager := mkManager {
  cachedSession : option Session;
  cacheExpiry : Z
}.

(** What the outside gives to one [createSession]: the token, whether the
    request can be built, and the answer to the POST: a transport error, or
    the status, the [X-Sync-Epoch] header and the decoded body ([None]: the
    body does not decode). *)
Record CreateEnv := mkCreateEnv {
  token : option string;
  requestOk : bool;
  answer : string + (Z * Client.HeaderValue * option Session)
}.

Inductive CreateErr :=
| TokenError
| RequestError
| PostError (msg : string)
| BadStatus (status : Z)
| DecodeError.

(** A call's result, the manager afterwards, and the POSTs it sent. *)
Record Outcome := mkOutcome {
  result : CreateErr + Session;
  manager : SessionManager;
  posts : nat
}.

(** [cached != nil && time.Now().Add(SessionRefreshBuffer).Before(expiry)]. *)
Definition usable (now : Z) (sm : SessionManager) : option Session :=
  match cachedSession sm with
  | Some s => if bool_decide (now + SessionRefreshBuffer < cacheExpiry sm)
              then Some s else None
  | None => None
  end.

(** [createSession]; [now] is its own reading of the clock. *)
Definition createSession (now : Z) (env : CreateEnv) (sm : SessionManager)
    : Outcome :=
  match usable now sm with
  | Some s => mkOutcome (inr s) sm 0
  | None =>
      match token env with
      | None => mkOutcome (inl TokenError) sm 0
      | Some _ =>
          if negb (requestOk env) then mkOutcome (inl RequestError) sm 0
          else
            match answer env with
            | inl e => mkOutcome (inl (PostError e)) sm 1
            | inr (status, epochHeader, body) =>
                if negb (Z.eqb status 201) && negb (Z.eqb status 200) then
                  mkOutcome (inl (BadStatus status)) sm 1
                else
                  match body with
                  | None => mkOutcome (inl DecodeError) sm 1
                  | Some sessionResp =>
                      let epoch := match epochHeader with
                                   | Client.HInt e => e
                                   | _ => Epoch sessionResp
                                   end in
                      let session :=
                        mkSession (ID sessionResp) (UserID sessionResp) epoch
                                  (CreatedAt sessionResp) (ExpiresAt sessionResp) in
                      mkOutcome (inr session)
                                (mkManager (Some session)
                                           (CreatedAt session + SessionCacheTTL))
                                1
                  end
            end
      end
  end.

(** [EnsureSession]; [now1] is the clock of the fast path and [now2] the one
    [createSession] reads. *)
Definition EnsureSession (now1 now2 : Z) (env : CreateEnv) (sm : SessionManager)
    : Outcome :=
  match usable now1 sm with
  | Some s => mkOutcome (inr s) sm 0
  | None => createSession now2 env sm
  end.

(** [InvalidateSession]. *)
Definition InvalidateSession (sm : SessionManager) : SessionManager :=
  mkManager None zeroTime.

(** A request as [cloneRequest] sees it; [Body] is [None] for a nil body. *)
Record Request := mkRequest {
  Method : string;
  URL : string;
  Header : gmap string (list string);
  Body : option string
}.

(** The headers [cloneRequest] leaves behind because they are injected anew. *)
Definition reinjected (k : string) : bool :=
  bool_decide (k = "Authorization" ∨ k = "X-Sync-Session"
               ∨ k = "X-Sync-Epoch" ∨ k = "X-Debug-Sub").

(** [cloneRequest]: [None] when the body cannot be read ([readOk] is what
    [io.ReadAll] makes of a body that is there) or when
    [http.NewRequestWithContext] refuses the method or the URL
    ([rebuildOk]); the clone always has a body, empty for a request without
    one. *)
Definition cloneRequest (readOk rebuildOk : bool) (req : Request) : option Request :=
  if negb readOk && bool_decide (is_Some (Body req)) then None
  else if negb rebuildOk then None
  else
    Some (mkRequest (Method req) (URL req)
                    (filter (λ kv : string * list string, reinjected kv.1 = false)
                            (Header req))
                    (Some (default "" (Body req)))).

(** [Header.Set]: one value under the canonical key. *)
Definition Set_ (k v : string) (h : gmap string (list string))
    : gmap string (list string) := <[k := [v]]> h.

(** The headers [doWithRetry] puts on the clone before it is sent: the
    correlation id, the dev subject or the bearer token, and the session
    headers when a session manager is configured. The keys are the canonical
    forms [Header.Set] stores. *)
Definition inject (c : Client.HTTPClient) (debugSub correlationID : string)
    (auth : Client.Auth) (session : option (string * Z)) (req : Request)
    : Request :=
  let h := Set_ "X-Correlation-Id" correlationID (Header req) in
  let h := match auth with
           | Client.DebugSub => Set_ "X-Debug-Sub" debugSub h
           | Client.Bearer token => Set_ "Authorization" ("Bearer " +:+ token) h
           end in
  let h := match session with
           | Some (id, epoch) =>
               Set_ "X-Sync-Epoch" (pretty epoch) (Set_ "X-Sync-Session" id h)
           | None => h
           end in
  mkRequest (Method req) (URL req) h (Body req).

End ClientSession.


(** ** What the trace of a call may hold, by the client's mode *)

(** An HTTP attempt carries the credentials of the client's mode, the
    debug subject in dev mode and a bearer token otherwise, and a session
    exactly when a session manager is configured; a token is invalidated
    only outside dev mode and a session only where there is a manager. *)
Definition mode_event (c : Client.HTTPClient) (ev : Client.Event) : Prop :=
  match ev with
  | Client.EvHTTP auth session =>
      (if Client.devMode c then auth = Client.DebugSub
       else ∃ tok, auth = Client.Bearer tok)
      ∧ (if Client.hasSessionMgr c then is_Some session else session = None)
  | Client.EvInvalidateToken => Client.devMode c = false
  | Client.EvInvalidateSession => Client.hasSessionMgr c = true
  | Client.EvSleep _ => True
  end.

(** ** What a request of one user leaves of everyone else *)

(** The rows and the epochs of every user but [userID] are in [d'] what
    they are in [d]. *)
Definition others_kept {Item : Type} (userID : string) (d d' : DB Item) : Prop :=
  (∀ k o uid, o ≠ userID → table k d' !! (o, uid) = table k d !! (o, uid))
  ∧ (∀ o, o ≠ userID → owner_state d' !! o = owner_state d !! o).

(** Between [d] and [d'] nothing differs but rows of [userID] in table
    [k]: the epochs are the same, and so is every row of another table or of
    another owner. *)
Definition only_rows_of {Item : Type} (k : Kind) (userID : string)
    (d d' : DB Item) : Prop :=
  owner_state d' = owner_state d
  ∧ ∀ k' o uid, k' ≠ k ∨ o ≠ userID →
                table k' d' !! (o, uid) = table k' d !! (o, uid).

(** ** More fixtures for the examples *)

Module Demo2.
Import Demo.

(** Category 4 of [u1] as a tombstone written at 900. *)
Definition category4_gone : item := mkItem 4 900 (Some 900) 1 "" 0 "".

(** Two categories of [u1], one of them deleted, and one of [u2]. *)
Definition db_categories : DB item :=
  set_table TaskListCategory
    {[ ("u1", 4%N) := row_of category4 3 NoParent;
       ("u1", 6%N) := row_of (mkItem 6 900 (Some 900) 1 "" 0 "") 2 NoParent;
       ("u2", 9%N) := row_of (mkItem 9 850 None 1 "" 0 "theirs") 1 NoParent ]}
    empty_db.

(** The session the server hands to the client at instant 0. *)
Definition client_session : ClientSession.Session :=
  ClientSession.mkSession "s1" "u1" 5 0 (30 * 60 * Client.Second).

Definition create_ok : ClientSession.CreateEnv :=
  ClientSession.mkCreateEnv (Some "token") true
    (inr (201, Client.HInt 6, Some client_session)).

Definition create_down : ClientSession.CreateEnv :=
  ClientSession.mkCreateEnv (Some "token") true (inl "connection refused").

(** A server that answers 429 with [Retry-After: 2] once and 200 from
    then on. *)
Definition busy_once : Client.Env :=
  Client.mkEnv (λ _, true) (λ _, Some "token") (λ _, Some ("s1", 5))
    (λ n, match n with
          | O => inr (Client.mkResponse 429 (Client.HInt 2) Client.HAbsent None)
          | S _ => inr (Client.mkResponse 200 Client.HAbsent Client.HAbsent None)
          end)
    (λ _, false) (λ _, 0).

(** A request that carries credentials of its own. *)
Definition forged_request : ClientSession.Request :=
  ClientSession.mkRequest "POST" "/v1/sync/notes/push"
    {[ "Authorization" := ["Bearer stolen"];
       "X-Sync-Epoch" := ["1"];
       "Content-Type" := ["application/json"] ]}
    (Some "{}").

End Demo2.

(** * Properties *)

(** ** Tables and the upsert statement *)

Section StoreFacts.
Context {Item : Type}.
Implicit Types (d : DB Item) (t : gmap (string * UUID) (Row Item)).

Lemma table_set_table_eq k t d : table k (set_table k t d) = t.
Proof. by destruct k. Qed.

Lemma table_set_table_ne k k' t d :
  k ≠ k' → table k (set_table k' t d) = table k d.
Proof. by destruct k, k'. Qed.

Lemma set_table_id k d : set_table k (table k d) d = d.
Proof. by destruct k, d. Qed.

Lemma owner_state_set_table k t d : owner_state (set_table k t d) = owner_state d.
Proof. by destruct k. Qed.

Lemma upsert_row_absent o u ms del v (p : Item) refs t :
  t !! (o, u) = None →
  upsert_row o u ms del v p refs t = <[(o, u) := mkRow ms del (Z.max v 1) p refs]> t.
Proof. intros H. unfold upsert_row. by rewrite H. Qed.

Lemma upsert_row_newer o u ms del v (p : Item) refs t old :
  t !! (o, u) = Some old → updated_at_ms old < ms →
  upsert_row o u ms del v p refs t
  = <[(o, u) := mkRow ms del (version old + 1) p refs]> t.
Proof.
  intros H Hlt. unfold upsert_row. rewrite H.
  by rewrite !bool_decide_eq_true_2.
Qed.

Lemma upsert_row_stale o u ms del v (p : Item) refs t old :
  t !! (o, u) = Some old → ms ≤ updated_at_ms old →
  upsert_row o u ms del v p refs t = t.
Proof.
  intros H Hle. unfold upsert_row. rewrite H.
  rewrite bool_decide_eq_false_2; [done | lia].
Qed.

(** After the statement the key holds a row, whatever was there. *)
Lemma upsert_row_lookup o u ms del v (p : Item) refs t :
  upsert_row o u ms del v p refs t !! (o, u)
  = Some match t !! (o, u) with
         | None => mkRow ms del (Z.max v 1) p refs
         | Some old =>
             if bool_decide (updated_at_ms old < ms)
             then mkRow ms del (version old + 1) p refs else old
         end.
Proof.
  unfold upsert_row. destruct (t !! (o, u)) as [old|] eqn:E.
  - case_bool_decide.
    + by rewrite lookup_insert_eq.
    + done.
  - by rewrite lookup_insert_eq.
Qed.

Lemma upsert_row_lookup_ne o u ms del v (p : Item) refs t key :
  key ≠ (o, u) → upsert_row o u ms del v p refs t !! key = t !! key.
Proof.
  intros Hne. unfold upsert_row. destruct (t !! (o, u)) as [old|].
  - case_bool_decide; [by rewrite lookup_insert_ne | done].
  - by rewrite lookup_insert_ne.
Qed.

End StoreFacts.

(** ** Pushes on a healthy connection *)

Section PushFacts.
Context {Item : Type} `{!Syncx Item}.
Implicit Types (d : DB Item) (s : TxState Item).

Lemma QueryExistsLive_healthy k owner uid d :
  QueryExistsLive k owner uid (healthy d) = (inr (live k owner uid d), healthy d).
Proof.
  unfold QueryExistsLive, live, bind, statement, read_view, ret, healthy; simpl.
  by destruct (table k d !! (owner, uid)).
Qed.

(** The upsert and its read back: the ack carries what the key holds
    afterwards. *)
Lemma upsertAndAck_healthy k userID (item : Item) ext refs d :
  Marshalable item = true →
  ∃ r, table k (upserted k userID item ext refs d) !! (userID, UID ext) = Some r
     ∧ upsertAndAck k userID item ext refs (healthy d)
       = (mkAck (UUIDString (UID ext)) (version r) (RFC3339 (updated_at_ms r)) "",
          healthy (upserted k userID item ext refs d)).
Proof.
  intros Hm. unfold upserted.
  pose proof (upsert_row_lookup userID (UID ext) (UpdatedAtMs ext) (DeletedAtMs ext)
                (Version ext) item refs (table k d)) as Hl.
  eexists. split.
  - rewrite table_set_table_eq. exact Hl.
  - unfold upsertAndAck, ExecUpsert, QueryVersionMs, bind, statement, read_view,
      write_view, ret, healthy; rewrite Hm; simpl.
    rewrite table_set_table_eq, Hl. reflexivity.
Qed.

Lemma parent_kind_Some pt k :
  parent_kind pt = Some k → (pt = "note" ∧ k = Note) ∨ (pt = "task" ∧ k = Task).
Proof.
  unfold parent_kind.
  destruct (String.eqb pt "note") eqn:E1.
  - apply String.eqb_eq in E1. intros [= <-]. by left.
  - destruct (String.eqb pt "task") eqn:E2; [|done].
    apply String.eqb_eq in E2. intros [= <-]. by right.
Qed.

Lemma parent_kind_None pt :
  parent_kind pt = None → String.eqb pt "note" = false ∧ String.eqb pt "task" = false.
Proof.
  unfold parent_kind.
  destruct (String.eqb pt "note"); [done|].
  by destruct (String.eqb pt "task").
Qed.

(** A validated push is its upsert. *)
Lemma PushItem_validated k userID (item : Item) ext refs d :
  pushed k item = Some (ext, refs) →
  validated item ext refs userID d = true →
  PushItem k userID item (healthy d) = upsertAndAck k userID item ext refs (healthy d).
Proof.
  intros Hp Hv. unfold validated in Hv.
  apply andb_true_iff in Hv as [Hv _].
  apply andb_true_iff in Hv as [Hty Hpar].
  destruct k; simpl in Hp |- *;
    unfold PushNoteItem, PushTaskItem, PushTaskListItem, PushTaskListCategoryItem,
      PushChatItem, pushPlainItem, PushChatMessageItem, PushCommentItem.
  1-5: by destruct (ExtractCommon item) as [|e]; simplify_eq.
  - destruct (ExtractChatMessage item) as [|e]; simplify_eq. simpl in *.
    unfold bind at 1.
    destruct (DeletedAtMs (m_common e)) as [t|] eqn:Edel; simpl in *.
    + reflexivity.
    + unfold bind at 1. rewrite QueryExistsLive_healthy.
      by rewrite Hpar.
  - destruct (ExtractComment item) as [|e]; simplify_eq. simpl in *.
    apply bool_decide_eq_true in Hty as [pk Hpk].
    rewrite Hpk in Hpar.
    apply parent_kind_Some in Hpk as [[Hpt ->]|[Hpt ->]]; rewrite Hpt in *; simpl.
    + unfold bind at 1.
      destruct (DeletedAtMs (c_common e)) as [t|] eqn:Edel; simpl in *.
      * reflexivity.
      * unfold bind at 1. rewrite QueryExistsLive_healthy. by rewrite Hpar.
    + unfold bind at 1.
      destruct (DeletedAtMs (c_common e)) as [t|] eqn:Edel; simpl in *.
      * reflexivity.
      * unfold bind at 1. rewrite QueryExistsLive_healthy. by rewrite Hpar.
Qed.

(** A live child whose parent is missing is refused without a write. *)
Lemma PushItem_parent_missing k userID (item : Item) ext refs d :
  pushed k item = Some (ext, refs) →
  valid_parent_type refs = true →
  DeletedAtMs ext = None →
  parent_exists refs userID d = false →
  PushItem k userID item (healthy d)
  = (rejected ext (parent_not_found refs), healthy d).
Proof.
  intros Hp Hty Hdel Hpar.
  destruct k; simpl in Hp |- *;
    unfold PushNoteItem, PushTaskItem, PushTaskListItem, PushTaskListCategoryItem,
      PushChatItem, pushPlainItem, PushChatMessageItem, PushCommentItem.
  1-5: by destruct (ExtractCommon item) as [|e]; simplify_eq.
  - destruct (ExtractChatMessage item) as [|e]; simplify_eq. simpl in *.
    unfold bind at 1. rewrite Hdel.
    unfold bind at 1. rewrite QueryExistsLive_healthy. by rewrite Hpar.
  - destruct (ExtractComment item) as [|e]; simplify_eq. simpl in *.
    apply bool_decide_eq_true in Hty as [pk Hpk].
    rewrite Hpk in Hpar.
    apply parent_kind_Some in Hpk as [[Hpt ->]|[Hpt ->]]; rewrite Hpt in *; simpl.
    + unfold bind at 1. rewrite Hdel.
      unfold bind at 1. rewrite QueryExistsLive_healthy. by rewrite Hpar.
    + unfold bind at 1. rewrite Hdel.
      unfold bind at 1. rewrite QueryExistsLive_healthy. by rewrite Hpar.
Qed.

(** A comment whose parent type names no table is refused without a write,
    tombstone or not. *)
Lemma PushItem_invalid_parent_type k userID (item : Item) ext refs d :
  pushed k item = Some (ext, refs) →
  valid_parent_type refs = false →
  PushItem k userID item (healthy d)
  = (rejected ext (invalid_parent_type refs), healthy d).
Proof.
  intros Hp Hty.
  destruct k; simpl in Hp.
  1-5: by destruct (ExtractCommon item) as [|e]; simplify_eq.
  - by destruct (ExtractChatMessage item) as [|e]; simplify_eq.
  - simpl. unfold PushCommentItem.
    destruct (ExtractComment item) as [|e]; simplify_eq. simpl in *.
    apply bool_decide_eq_false in Hty.
    destruct (parent_kind (ParentType e)) eqn:Hpk; [by destruct Hty|].
    apply parent_kind_None in Hpk as [-> ->]. reflexivity.
Qed.

End PushFacts.

(** ** Pushes under any schedule of faults *)

Section PushAnyState.
Context {Item : Type} `{!Syncx Item}.
Implicit Types (d : DB Item) (s : TxState Item).

Lemma QueryExistsLive_view k owner uid s :
  view (QueryExistsLive k owner uid s).2 = view s.
Proof.
  destruct s as [d [|[e|] fs]];
    unfold QueryExistsLive, bind, statement, read_view, ret; simpl;
    try done; by destruct (table k d !! (owner, uid)).
Qed.

Lemma QueryVersionMs_view k owner uid s :
  view (QueryVersionMs k owner uid s).2 = view s.
Proof.
  destruct s as [d [|[e|] fs]];
    unfold QueryVersionMs, bind, statement, read_view, ret; simpl;
    try done; by destruct (table k d !! (owner, uid)).
Qed.

Lemma ExecUpsert_view k owner uid ms del v (p : Item) refs s :
  view (ExecUpsert k owner uid ms del v p refs s).2
  = match (ExecUpsert k owner uid ms del v p refs s).1 with
    | Some _ => view s
    | None => set_table k (upsert_row owner uid ms del v p refs (table k (view s)))
                        (view s)
    end.
Proof.
  by destruct s as [d [|[e|] fs]].
Qed.

(** The tail of a push either leaves the rows alone or applies the upsert. *)
Lemma upsertAndAck_view k userID (item : Item) ext refs s :
  view (upsertAndAck k userID item ext refs s).2 = view s
  ∨ view (upsertAndAck k userID item ext refs s).2
    = upserted k userID item ext refs (view s).
Proof.
  unfold upsertAndAck, upserted.
  destruct (Marshalable item); simpl; [|by left]. unfold bind.
  pose proof (ExecUpsert_view k userID (UID ext) (UpdatedAtMs ext) (DeletedAtMs ext)
                (Version ext) item refs s) as He.
  destruct (ExecUpsert _ _ _ _ _ _ _ _ s) as [[e|] s1]; simpl in *.
  - by left.
  - right. rewrite <- He.
    pose proof (QueryVersionMs_view k userID (UID ext) s1) as Hq.
    destruct (QueryVersionMs k userID (UID ext) s1) as [[?|[??]] s2]; done.
Qed.

(** A push either leaves the rows alone or applies the upsert of its item. *)
Lemma PushItem_view k userID (item : Item) s :
  view (PushItem k userID item s).2 = view s
  ∨ ∃ ext refs, pushed k item = Some (ext, refs)
      ∧ view (PushItem k userID item s).2 = upserted k userID item ext refs (view s).
Proof.
  assert (∀ k' ext refs s1, pushed k' item = Some (ext, refs) → view s1 = view s →
            view (upsertAndAck k' userID item ext refs s1).2 = view s
            ∨ ∃ ext' refs', pushed k' item = Some (ext', refs')
                ∧ view (upsertAndAck k' userID item ext refs s1).2
                  = upserted k' userID item ext' refs' (view s)) as Htail.
  { intros k' ext refs s1 Hp Hs1.
    destruct (upsertAndAck_view k' userID item ext refs s1) as [H|H];
      rewrite Hs1 in H; [by left | right; eauto]. }
  destruct k;
    unfold PushItem, PushNoteItem, PushTaskItem, PushTaskListItem,
      PushTaskListCategoryItem, PushChatItem, pushPlainItem, PushChatMessageItem,
      PushCommentItem.
  1-5: destruct (ExtractCommon item) as [|e] eqn:E; [by left|];
       apply Htail; [unfold pushed; by rewrite E | done].
  - destruct (ExtractChatMessage item) as [|e] eqn:E; [by left|].
    cbv zeta. unfold bind.
    destruct (DeletedAtMs (m_common e)) as [t|].
    + apply Htail; [unfold pushed; by rewrite E | done].
    + pose proof (QueryExistsLive_view Chat userID (ChatUID e) s) as Hq.
      destruct (QueryExistsLive Chat userID (ChatUID e) s) as [[?|[]] s1];
        simpl in Hq; try by left.
      apply Htail; [unfold pushed; by rewrite E | done].
  - destruct (ExtractComment item) as [|e] eqn:E; [by left|].
    cbv zeta.
    destruct (negb _ && negb _) eqn:Hg; [by left|].
    unfold bind.
    destruct (DeletedAtMs (c_common e)) as [t|].
    + apply Htail; [unfold pushed; by rewrite E | done].
    + assert (∃ q : Tx Item (DbErr + bool),
                 (if String.eqb (ParentType e) "note"
                  then QueryExistsLive Note userID (ParentUID e)
                  else if String.eqb (ParentType e) "task"
                       then QueryExistsLive Task userID (ParentUID e)
                       else ret (inr false)) = q
                 ∧ view (q s).2 = view s) as (q & -> & Hq).
      { eexists; split; [reflexivity|].
        repeat case_match; simpl; auto using QueryExistsLive_view. }
      destruct (q s) as [[?|[]] s1]; simpl in Hq; try by left.
      apply Htail; [unfold pushed; by rewrite E | done].
Qed.

Lemma upserted_versions_ok k userID (item : Item) ext refs d :
  versions_ok d → versions_ok (upserted k userID item ext refs d).
Proof.
  intros Hok k' key r. unfold upserted.
  destruct (decide (k' = k)) as [->|Hk].
  - rewrite table_set_table_eq.
    destruct (decide (key = (userID, UID ext))) as [->|Hkey].
    + rewrite upsert_row_lookup. intros [= <-].
      destruct (table k d !! (userID, UID ext)) as [old|] eqn:E; simpl; [|lia].
      specialize (Hok _ _ _ E). case_bool_decide; simpl; lia.
    + rewrite upsert_row_lookup_ne by done. apply Hok.
  - rewrite table_set_table_ne by done. apply Hok.
Qed.

(** No push can store a version below 1. *)
Lemma PushItem_versions_ok k userID (item : Item) s :
  versions_ok (view s) → versions_ok (view (PushItem k userID item s).2).
Proof.
  intros Hok. destruct (PushItem_view k userID item s) as [->|(ext & refs & _ & ->)];
    auto using upserted_versions_ok.
Qed.

End PushAnyState.

(** ** The LWW rule, the parent rule and the version floor *)

Section PushClaims.
Context {Item : Type} `{!Syncx Item}.
Implicit Types (d : DB Item) (s : TxState Item).

(** C1 (as amended). For every entity kind and every push that is let
    through to the upsert (the item serialises and, for a comment or chat
    message, the parent type is valid and the item is a tombstone or its
    parent is live) of an item whose
    [(owner_id, uid)] already exists: if the pushed [updated_at_ms] is
    strictly greater than the stored one, payload, [updated_at_ms],
    [deleted_at_ms] and parent columns are replaced by the pushed values and
    the version becomes the stored version + 1; otherwise nothing changes and
    the ack returns the stored [(version, updated_at_ms)]. *)
Theorem C1_lww_conflict_validated k userID (item : Item) ext refs old d :
  pushed k item = Some (ext, refs) →
  validated item ext refs userID d = true →
  table k d !! (userID, UID ext) = Some old →
  lww_conflict_rule k userID item ext refs old d.
Proof.
  intros Hp Hv Hold. unfold lww_conflict_rule. cbv zeta.
  rewrite (PushItem_validated _ _ _ _ _ _ Hp Hv).
  assert (Marshalable item = true) as Hm
    by (unfold validated in Hv; by apply andb_true_iff in Hv as [_ ?]).
  destruct (upsertAndAck_healthy k userID item ext refs d Hm) as (r & Hr & ->).
  simpl. unfold upserted in *. split.
  - intros Hlt. by rewrite (upsert_row_newer _ _ _ _ _ _ _ _ _ Hold Hlt).
  - intros Hle. rewrite (upsert_row_stale _ _ _ _ _ _ _ _ _ Hold Hle) in *.
    rewrite set_table_id in *. rewrite Hold in Hr. by simplify_eq.
Qed.

(** C4 (as amended). For every push of a comment or chat message that
    serialises and whose
    parent type is valid ([note] or [task] for a comment): a live item is
    upserted only if its parent row exists for the same owner and is live,
    and is otherwise acked with the parent-not-found error and nothing is
    written; a tombstone is upserted without the parent check. A comment
    whose parent type is neither [note] nor [task] is refused with the
    invalid-parent-type error and nothing is written, tombstone or not.
    (Kinds without parent columns have no check at all.) *)
Theorem C4_parent_rule_valid_type k userID (item : Item) ext refs d :
  pushed k item = Some (ext, refs) →
  Marshalable item = true →
  if valid_parent_type refs
  then parent_rule k userID item ext refs d
  else PushItem k userID item (healthy d)
       = (rejected ext (invalid_parent_type refs), healthy d).
Proof.
  intros Hp Hm. destruct (valid_parent_type refs) eqn:Hty.
  - unfold parent_rule. cbv zeta.
    destruct (DeletedAtMs ext) as [t|] eqn:Hdel.
    + rewrite (PushItem_validated _ _ _ ext refs d Hp).
      * by destruct (upsertAndAck_healthy k userID item ext refs d Hm) as (r & _ & ->).
      * unfold validated. by rewrite Hty, Hdel, Hm.
    + destruct (parent_exists refs userID d) eqn:Hpar.
      * rewrite (PushItem_validated _ _ _ ext refs d Hp).
        -- by destruct (upsertAndAck_healthy k userID item ext refs d Hm) as (r & _ & ->).
        -- unfold validated. by rewrite Hty, Hpar, Hm, orb_true_r.
      * by rewrite (PushItem_parent_missing _ _ _ _ _ _ Hp Hty Hdel Hpar).
  - by apply PushItem_invalid_parent_type.
Qed.

(** C5. For every push of an item whose [(owner_id, uid)] is absent from the
    store, the row it inserts has version [max(pushed version, 1)] (and a
    push that is let through on a healthy connection does insert it);
    consequently no push, whatever the faults, can leave a row with a
    version below 1 in a store that had none. *)
Theorem C5_insert_version_floor k userID (item : Item) ext refs s :
  pushed k item = Some (ext, refs) →
  table k (view s) !! (userID, UID ext) = None →
  let s' := (PushItem k userID item s).2 in
  (∀ r, table k (view s') !! (userID, UID ext) = Some r →
        r = mkRow (UpdatedAtMs ext) (DeletedAtMs ext) (Z.max (Version ext) 1)
                  item refs)
  ∧ (faults s = [] → validated item ext refs userID (view s) = true →
     is_Some (table k (view s') !! (userID, UID ext)))
  ∧ (∀ k' userID' (item' : Item) s0,
       versions_ok (view s0) →
       versions_ok (view (PushItem k' userID' item' s0).2)).
Proof.
  intros Hp Habs. cbv zeta. split; [|split].
  - intros r.
    destruct (PushItem_view k userID item s) as [->|(ext' & refs' & Hp' & ->)].
    + by rewrite Habs.
    + rewrite Hp in Hp'. simplify_eq. unfold upserted.
      rewrite table_set_table_eq, upsert_row_lookup, Habs. by intros [= <-].
  - intros Hf Hv. destruct s as [d fs]. simpl in *. subst fs.
    change (mkTx d []) with (healthy d).
    rewrite (PushItem_validated _ _ _ _ _ _ Hp Hv).
    assert (Marshalable item = true) as Hm
      by (unfold validated in Hv; by apply andb_true_iff in Hv as [_ ?]).
    destruct (upsertAndAck_healthy k userID item ext refs d Hm) as (r & Hr & ->).
    simpl. by rewrite Hr.
  - intros. by apply PushItem_versions_ok.
Qed.

End PushClaims.

(** C1 at a comment edit whose note exists. *)
Lemma C1_witness :
  pushed Comment Demo.comment1_edit
  = Some (Demo.header Demo.comment1_edit, CommentParent "note" 7%N)
  ∧ lww_conflict_rule Comment "u1" Demo.comment1_edit
      (Demo.header Demo.comment1_edit) (CommentParent "note" 7%N)
      (Demo.row_of Demo.comment1 1 (CommentParent "note" 7%N))
      Demo.db_note_comment.
Proof.
  split; [reflexivity|].
  apply C1_lww_conflict_validated; vm_compute; reflexivity.
Defined.

(** C1 as stated fails: a strictly newer edit of comment 1 is pushed after
    its note is gone; the push is refused and the row keeps its old fields. *)
Lemma C1_counterexample :
  pushed Comment Demo.comment1_edit
  = Some (Demo.header Demo.comment1_edit, CommentParent "note" 7%N)
  ∧ table Comment Demo.db_orphan !! ("u1", 1%N)
    = Some (Demo.row_of Demo.comment1 1 (CommentParent "note" 7%N))
  ∧ ¬ lww_conflict_rule Comment "u1" Demo.comment1_edit
        (Demo.header Demo.comment1_edit) (CommentParent "note" 7%N)
        (Demo.row_of Demo.comment1 1 (CommentParent "note" 7%N))
        Demo.db_orphan.
Proof.
  split; [reflexivity|]. split; [vm_compute; reflexivity|].
  intros [Hnewer _].
  assert (1000 < 2000) as Hlt by lia.
  specialize (Hnewer Hlt).
  apply (f_equal (λ d, version <$> table Comment d !! ("u1", 1%N))) in Hnewer.
  vm_compute in Hnewer. discriminate.
Qed.

(** C4 at the tombstone of a comment on a note that is gone. *)
Lemma C4_witness :
  parent_rule Comment "u1" (Demo.mkItem 1 2000 (Some 2000) 1 "note" 7 "")
    (mkCommon 1 2000 (Some 2000) 1) (CommentParent "note" 7%N) Demo.db_orphan.
Proof.
  exact (C4_parent_rule_valid_type Comment "u1"
           (Demo.mkItem 1 2000 (Some 2000) 1 "note" 7 "")
           (mkCommon 1 2000 (Some 2000) 1) (CommentParent "note" 7%N)
           Demo.db_orphan eq_refl eq_refl).
Defined.

(** C4 as stated fails: the tombstone of a comment whose parent type is
    [chat] is not upserted. *)
Lemma C4_counterexample :
  pushed Comment Demo.comment_tombstone_bad_type
  = Some (Demo.header Demo.comment_tombstone_bad_type, CommentParent "chat" 9%N)
  ∧ DeletedAtMs (Demo.header Demo.comment_tombstone_bad_type) = Some 3000
  ∧ ¬ parent_rule Comment "u1" Demo.comment_tombstone_bad_type
        (Demo.header Demo.comment_tombstone_bad_type) (CommentParent "chat" 9%N)
        Demo.db_note_comment.
Proof.
  split; [reflexivity|]. split; [reflexivity|].
  intros [_ Herr]. vm_compute in Herr. discriminate.
Qed.

(** C5 at the first push of a note with client version 0. *)
Lemma C5_witness :
  let s' := (PushItem Note "u1" (Demo.mkItem 7 500 None 0 "" 0 "a note")
                      (healthy empty_db)).2 in
  (∀ r, table Note (view s') !! ("u1", 7%N) = Some r →
        r = mkRow 500 None (Z.max 0 1) (Demo.mkItem 7 500 None 0 "" 0 "a note") NoParent)
  ∧ is_Some (table Note (view s') !! ("u1", 7%N)).
Proof.
  pose proof (C5_insert_version_floor Note "u1"
                (Demo.mkItem 7 500 None 0 "" 0 "a note")
                (mkCommon 7 500 None 0) NoParent (healthy empty_db)
                eq_refl eq_refl) as (H1 & H2 & _).
  split; [exact H1 | exact (H2 eq_refl eq_refl)].
Defined.

(** ** Pull: the page and what the loop makes of it *)

Section PullFacts.
Context {Item : Type} `{!Syncx Item}.
Implicit Types (t : gmap (string * UUID) (Row Item)) (rows : list (UUID * Row Item)).

Global Instance scan_le_total : Total (@scan_le Item).
Proof. intros a b. unfold scan_le. lia. Qed.

Global Instance scan_le_trans : Transitive (@scan_le Item).
Proof. intros a b c. unfold scan_le. lia. Qed.

Lemma elem_of_selected owner c t uid r :
  (uid, r) ∈ selected owner c t
  ↔ t !! (owner, uid) = Some r ∧ after_cursor c (updated_at_ms r) uid.
Proof.
  unfold selected. rewrite list_elem_of_omap. split.
  - intros ([[o u] r'] & Hin & Hsel). apply elem_of_map_to_list in Hin.
    simpl in Hsel. case_bool_decide as Hc; simplify_eq.
    by destruct Hc as [-> ?].
  - intros [Hl Ha]. exists ((owner, uid), r). split.
    + by apply elem_of_map_to_list.
    + simpl. by rewrite bool_decide_eq_true_2.
Qed.

(** Within one owner the uid identifies the row. *)
Lemma NoDup_selected owner c t : NoDup (selected owner c t).*1.
Proof.
  unfold selected.
  pose proof (NoDup_fst_map_to_list t) as Hnd.
  induction (map_to_list t) as [|[[o u] r] l IH]; simpl; [constructor|].
  apply NoDup_cons in Hnd as [Hnotin Hnd].
  case_bool_decide as Hc; simpl; [|by apply IH].
  apply NoDup_cons. split; [|by apply IH].
  intros Hin. apply Hnotin.
  apply list_elem_of_fmap in Hin as ([u' r'] & Hu & Hin). simpl in Hu. subst u'.
  apply list_elem_of_omap in Hin as ([[o2 u2] r2] & Hin & Hsel).
  simpl in Hsel. case_bool_decide as Hc2; simplify_eq.
  destruct Hc as [-> _], Hc2 as [-> _].
  apply list_elem_of_fmap. by exists ((owner, u), r').
Qed.

Lemma StronglySorted_scan_lt rows :
  StronglySorted scan_le rows → NoDup rows.*1 → StronglySorted scan_lt rows.
Proof.
  induction 1 as [|x l Hs IH Hall]; intros Hnd; constructor.
  - apply IH. by apply NoDup_cons in Hnd as [_ ?].
  - apply NoDup_cons in Hnd as [Hnotin _].
    apply Forall_forall. intros y Hy.
    assert (x.1 ≠ y.1) as Hne.
    { intros Heq. apply Hnotin. rewrite Heq. apply list_elem_of_fmap. eauto. }
    rewrite Forall_forall in Hall. specialize (Hall y Hy).
    unfold scan_le, scan_lt in *. lia.
Qed.

(** The page is strictly ascending in [(updated_at_ms, uid)]. *)
Lemma page_sorted owner c limit t : StronglySorted scan_lt (page owner c limit t).
Proof.
  unfold page.
  eapply (StronglySorted_app_1_l _ _ (drop (Z.to_nat limit) _)).
  rewrite take_drop.
  apply StronglySorted_scan_lt.
  - apply StronglySorted_merge_sort; apply _.
  - rewrite merge_sort_Permutation. apply NoDup_selected.
Qed.

Lemma elem_of_page owner c limit t uid r :
  (uid, r) ∈ page owner c limit t →
  t !! (owner, uid) = Some r ∧ after_cursor c (updated_at_ms r) uid.
Proof.
  unfold page. intros Hin. apply subseteq_take in Hin.
  rewrite merge_sort_Permutation in Hin. by apply elem_of_selected.
Qed.

Lemma length_page owner c limit t :
  0 ≤ limit → Z.of_nat (length (page owner c limit t)) ≤ limit.
Proof. intros. unfold page. rewrite length_take. lia. Qed.

(** What the loop has collected after a run of rows. *)
Lemma fold_pull_step rows a :
  fold_left pull_step rows a
  = mkAcc (acc_upserts a ++ upserts_of rows)
          (acc_deletes a ++ deletes_of rows)
          (from_option (λ r, updated_at_ms r.2) (lastMs a) (last rows))
          (from_option fst (lastUID a) (last rows)).
Proof.
  revert a. induction rows as [|x rows IH]; intros a; simpl.
  - destruct a. by rewrite !app_nil_r.
  - rewrite IH. unfold pull_step, upserts_of, deletes_of. simpl.
    destruct (deleted_at_ms x.2); simpl; rewrite <- ?app_assoc; simpl;
      rewrite last_cons; by destruct (last rows).
Qed.

Lemma length_upserts_deletes rows :
  (length (upserts_of rows) + length (deletes_of rows) = length rows)%nat.
Proof.
  induction rows as [|x rows IH]; simpl; [done|].
  unfold upserts_of, deletes_of in *. simpl.
  destruct (deleted_at_ms x.2); simpl; lia.
Qed.

(** C2. For every pull with cursor [c] and limit [limit] that returns a
    page: the page is the rows [page ...] of the query and holds at most
    [limit] of them; every one is a row of the user that lies after the
    cursor in the lexicographic order of [(updated_at_ms, uid)]; they are in
    strictly ascending [(updated_at_ms, uid)] order; the live rows appear as
    upserts with the stored payload and the tombstones as deletes
    [{uid, deletedAt}], each list in page order; and [NextCursor] is the
    encoding of the last row's pair when there is a row, and absent when
    there is none. The pull changes no row. *)
Theorem C2_pull_page k userID c limit (s s' : TxState Item) resp :
  pullKind k userID c limit s = (inr resp, s') →
  let rows := page userID c limit (table k (view s)) in
  Z.of_nat (length rows) ≤ limit
  ∧ (∀ uid r, (uid, r) ∈ rows →
       table k (view s) !! (userID, uid) = Some r
       ∧ after_cursor c (updated_at_ms r) uid)
  ∧ StronglySorted scan_lt rows
  ∧ Upserts resp = upserts_of rows
  ∧ Deletes resp = deletes_of rows
  ∧ (length (Upserts resp) + length (Deletes resp) = length rows)%nat
  ∧ NextCursor resp = (λ r, EncodeCursor (cursor_of r)) <$> last rows
  ∧ view s' = view s.
Proof.
  intros Hrun. cbv zeta.
  assert (0 ≤ limit
          ∧ resp = mkPull (upserts_of (page userID c limit (table k (view s))))
                          (deletes_of (page userID c limit (table k (view s))))
                          ((λ r, EncodeCursor (cursor_of r))
                             <$> last (page userID c limit (table k (view s))))
          ∧ view s' = view s) as (Hlim & -> & Hview).
  { destruct s as [d fs]. revert Hrun.
    unfold pullKind, QueryPage, bind, statement, read_view, ret. simpl.
    assert (∀ fs0,
      (let a := fold_left pull_step (page userID c limit (table k d))
                          (mkAcc [] [] 0 uuid_Nil) in
       (inr (mkPull (acc_upserts a) (acc_deletes a)
               (if bool_decide (0 < length (acc_upserts a) + length (acc_deletes a))%nat
                then Some (EncodeCursor (mkCursor (lastMs a) (lastUID a)))
                else None)) : string + PullResponse Item, mkTx d fs0)) = (inr resp, s') →
      resp = mkPull (upserts_of (page userID c limit (table k d)))
                    (deletes_of (page userID c limit (table k d)))
                    ((λ r, EncodeCursor (cursor_of r))
                       <$> last (page userID c limit (table k d)))
      ∧ view s' = d) as Hok.
    { intros fs0. cbv zeta. rewrite fold_pull_step. simpl.
      intros [= <- <-]. split; [|done]. f_equal.
      pose proof (length_upserts_deletes (page userID c limit (table k d))) as Hlen.
      rewrite Hlen.
      destruct (page userID c limit (table k d)) as [|x l] eqn:E using rev_ind.
      - done.
      - rewrite last_snoc, length_app. simpl.
        rewrite bool_decide_eq_true_2 by lia. done. }
    destruct fs as [|[e|] fs]; simpl; [| intros [=] |].
    - case_bool_decide as Hneg; simpl; [intros [=]|].
      intros Hrun. split; [lia|]. by apply (Hok []).
    - case_bool_decide as Hneg; simpl; [intros [=]|].
      destruct fs as [|[e|] fs]; simpl; [| intros [=] |];
        intros Hrun; (split; [lia|]); eapply Hok; exact Hrun. }
  split; [by apply length_page|].
  split; [by intros; eapply elem_of_page|].
  split; [apply page_sorted|].
  simpl. repeat split; auto using length_upserts_deletes.
Qed.

End PullFacts.

(** C2 at the first page of the comments of [u1], limit 10. *)
Lemma C2_witness :
  ∃ resp s',
    pullKind Comment "u1" (mkCursor 0 0) 10 (healthy Demo.db_note_comment)
    = (inr resp, s')
    ∧ Upserts resp = [Demo.comment1]
    ∧ Deletes resp = []
    ∧ NextCursor resp = Some (EncodeCursor (mkCursor 1000 1)).
Proof.
  eexists _, _. split; [vm_compute; reflexivity|].
  pose proof (C2_pull_page Comment "u1" (mkCursor 0 0) 10
                (healthy Demo.db_note_comment) _ _ eq_refl) as (_ & _ & _ & Hu & Hd & _).
  split; [exact Hu|]. split; [exact Hd|]. reflexivity.
Defined.

(** ** Transactions roll back on failure *)

Section TransactionFacts.
Context {Item : Type}.
Implicit Types (s : TxState Item).

Lemma statement_view s : view (statement s).2 = view s.
Proof. by destruct s as [d [|[e|] fs]]. Qed.

(** A transaction that returns an error leaves the rows as they were. *)
Lemma transaction_rollback {E A} (beginErr commitErr : string → E)
    (body : Tx Item (E + A)) s s' e :
  transaction beginErr commitErr body s = (inl e, s') → view s' = view s.
Proof.
  unfold transaction.
  pose proof (statement_view s) as Hs.
  destruct (statement s) as [[f|] s1]; simpl in Hs.
  - by intros [= _ <-].
  - destruct (body s1) as [[e1|a] s2].
    + by intros [= _ <-].
    + destruct (statement s2) as [[f|] s3].
      * by intros [= _ <-].
      * intros [=].
Qed.

(** On a healthy connection a transaction is its body, committed. *)
Lemma transaction_healthy {E A} (beginErr commitErr : string → E)
    (body : Tx Item (E + A)) d a d' :
  body (healthy d) = (inr a, healthy d') →
  transaction beginErr commitErr body (healthy d) = (inr a, healthy d').
Proof. unfold transaction. simpl. by intros ->. Qed.

Lemma transaction_healthy_error {E A} (beginErr commitErr : string → E)
    (body : Tx Item (E + A)) d e s' :
  body (healthy d) = (inl e, s') → faults s' = [] →
  transaction beginErr commitErr body (healthy d) = (inl e, healthy d).
Proof. unfold transaction. simpl. intros -> Hf. simpl. by rewrite Hf. Qed.

End TransactionFacts.

(** ** The session registry *)

(** C9. For every session id, [GetSession] answers not-found whenever the
    stored session's [ExpiresAt] is earlier than the current time; a session
    it does return is the stored one and has not expired. *)
Theorem C9_expired_session_not_found now sessionID st :
  (∀ sess, sessions st !! sessionID = Some sess → ExpiresAt sess < now →
           GetSession now sessionID st = None)
  ∧ (∀ sess, GetSession now sessionID st = Some sess →
             sessions st !! sessionID = Some sess ∧ now ≤ ExpiresAt sess).
Proof.
  unfold GetSession. split.
  - intros sess -> Hexp. by rewrite bool_decide_eq_true_2.
  - intros sess. destruct (sessions st !! sessionID) as [x|]; [|done].
    case_bool_decide; [done|]. intros [= ->]. split; [done|lia].
Qed.

(** C9 at session [s1], which expires at 1800, read at 1801. *)
Lemma C9_witness : GetSession 1801 "s1" Demo.registry_u1 = None.
Proof.
  apply (proj1 (C9_expired_session_not_found 1801 "s1" Demo.registry_u1)
           (mkSession "s1" "u1" 0 1800 5)).
  - vm_compute. reflexivity.
  - simpl. lia.
Defined.

Lemma DeleteUserSessions_none userID st :
  no_sessions_of userID (DeleteUserSessions userID st).2.
Proof.
  intros id sess. unfold DeleteUserSessions. simpl.
  rewrite map_lookup_filter_Some. by intros [_ ?].
Qed.

Lemma DeleteUserSessions_others userID st id sess :
  UserID sess ≠ userID → sessions st !! id = Some sess →
  sessions (DeleteUserSessions userID st).2 !! id = Some sess.
Proof.
  intros Hne Hl. unfold DeleteUserSessions. simpl.
  by rewrite map_lookup_filter_Some.
Qed.

(** ** The wipe and the sync state *)

Section EpochFacts.
Context {Item : Type}.
Implicit Types (d : DB Item) (srv : Server Item).

Lemma no_rows_of_filter (userID : string) (t : gmap (string * UUID) (Row Item))
    (uid : UUID) :
  filter (λ kr : (string * UUID) * Row Item, kr.1.1 ≠ userID) t !! (userID, uid) = None.
Proof.
  apply eq_None_not_Some. intros [r Hr].
  apply map_lookup_filter_Some in Hr as [_ Hne]. by apply Hne.
Qed.

(** On a healthy connection the delete loop empties the user's rows in the
    tables it is given and touches nothing else. *)
Lemma deleteTables_healthy tables (userID : string) deleted d :
  NoDup tables →
  ∃ deleted' d',
    deleteTables tables userID deleted (healthy d) = (inr deleted', healthy d')
    ∧ owner_state d' = owner_state d
    ∧ ∀ k, table k d'
           = if bool_decide (k ∈ tables)
             then filter (λ kr : (string * UUID) * Row Item, kr.1.1 ≠ userID) (table k d)
             else table k d.
Proof.
  revert deleted d. induction tables as [|k rest IH]; intros deleted d Hnd.
  - exists deleted, d. by repeat split.
  - apply NoDup_cons in Hnd as [Hk Hnd].
    set (d1 := set_table k
                 (filter (λ kr : (string * UUID) * Row Item, kr.1.1 ≠ userID) (table k d)) d).
    destruct (IH (<[table_name k := int32 (Z.of_nat (size (owned userID (table k d))))]> deleted)
                 d1 Hnd) as (deleted' & d' & Hrun & Hos & Htab).
    exists deleted', d'. split; [exact Hrun|]. split.
    + rewrite Hos. unfold d1. apply owner_state_set_table.
    + intros k'. rewrite Htab. unfold d1.
      destruct (decide (k' = k)) as [->|Hne].
      * rewrite (bool_decide_eq_false_2 _ Hk), table_set_table_eq.
        by rewrite bool_decide_eq_true_2 by apply list_elem_of_here.
      * rewrite table_set_table_ne by done.
        destruct (decide (k' ∈ rest)) as [Hin|Hnin].
        -- rewrite (bool_decide_eq_true_2 _ Hin).
           by rewrite bool_decide_eq_true_2 by (by apply list_elem_of_further).
        -- rewrite (bool_decide_eq_false_2 _ Hnin).
           by rewrite bool_decide_eq_false_2 by (by apply not_elem_of_cons).
Qed.

Lemma QueryBumpEpoch_healthy now (userID : string) d :
  QueryBumpEpoch now userID (healthy d)
  = (inr (stored_epoch d userID + 1),
     healthy (set_owner_state
                (<[userID := mkOwnerState (stored_epoch d userID + 1) (Some now)
                                          (Some userID)]> (owner_state d)) d)).
Proof.
  unfold QueryBumpEpoch, stored_epoch, bind, statement, read_view, write_view, ret,
    healthy; simpl.
  by destruct (owner_state d !! userID).
Qed.

(** What a confirmed wipe of an authenticated user does on a healthy
    connection: the epoch is the former one plus one, the tables the wipe
    names hold no row of the user, every other table is as it was, and the
    registry holds no session of the user. *)
Lemma WipeAccount_healthy now (userID : string) d reg :
  userID ≠ "" →
  ∃ deleted d',
    WipeAccount now userID "WIPE" (mkServer (healthy d) reg)
    = (inr (mkWipeResult (int32 (stored_epoch d userID + 1)) deleted),
       mkServer (healthy d') (DeleteUserSessions userID reg).2)
    ∧ stored_epoch d' userID = stored_epoch d userID + 1
    ∧ (∀ k, k ∈ wipe_tables → no_rows_of userID k d')
    ∧ (∀ k, k ∉ wipe_tables → table k d' = table k d)
    ∧ no_sessions_of userID (DeleteUserSessions userID reg).2.
Proof.
  intros Hu.
  set (d1 := set_owner_state
               (<[userID := mkOwnerState (stored_epoch d userID + 1) (Some now)
                                         (Some userID)]> (owner_state d)) d).
  assert (NoDup wipe_tables) as Hnd.
  { apply NoDup_ListNoDup. unfold wipe_tables.
    repeat constructor; simpl; intuition discriminate. }
  destruct (deleteTables_healthy wipe_tables userID ∅ d1 Hnd)
    as (deleted & d' & Hrun & Hos & Htab).
  exists deleted, d'. split; [|split; [|split; [|split]]].
  - unfold WipeAccount.
    rewrite bool_decide_eq_false_2 by done.
    rewrite bool_decide_eq_false_2 by (by intros []).
    cbn [pg registry].
    match goal with
    | |- context [transaction ?b ?c ?body (healthy d)] =>
        assert (body (healthy d)
                = (inr (stored_epoch d userID + 1, deleted), healthy d')) as Hbody;
        [|by rewrite (transaction_healthy b c body d _ d' Hbody)]
    end.
    unfold bind at 1. rewrite QueryBumpEpoch_healthy. fold d1.
    unfold bind. by rewrite Hrun.
  - unfold stored_epoch at 1. rewrite Hos. unfold d1. simpl.
    by rewrite lookup_insert_eq.
  - intros k Hk uid. rewrite Htab, bool_decide_eq_true_2 by done.
    apply no_rows_of_filter.
  - intros k Hk. rewrite Htab, bool_decide_eq_false_2 by done.
    unfold d1. by destruct k.
  - apply DeleteUserSessions_none.
Qed.

(** A wipe that returns an error has changed neither rows nor sessions. *)
Lemma WipeAccount_error now userID confirm srv st srv' :
  WipeAccount now userID confirm srv = (inl st, srv') →
  view (pg srv') = view (pg srv) ∧ registry srv' = registry srv.
Proof.
  unfold WipeAccount.
  case_bool_decide; [by intros [= _ <-]|].
  case_bool_decide; [by intros [= _ <-]|].
  match goal with
  | |- context [transaction ?b ?c ?body (pg srv)] =>
      pose proof (transaction_rollback b c body (pg srv)) as Hrb;
      destruct (transaction b c body (pg srv)) as [[e|[newEpoch deleted]] pg']
  end.
  - intros [= _ <-]. simpl. split; [by eapply Hrb|done].
  - by destruct (DeleteUserSessions userID (registry srv)).
Qed.

End EpochFacts.

Section EpochClaims.
Context {Item : Type}.
Implicit Types (d : DB Item) (srv : Server Item).

(** C3, on the code. After a successful wipe for user [u] the stored epoch
    is the epoch before plus one, no row of [u] remains in the five tables
    the wipe names ([chat_message], [comment], [chat], [task], [note]) and no
    session of [u] remains in the registry; but the tables [task_list] and
    [task_list_category] are exactly as before, so every task list and
    category of [u] survives the wipe. *)
Theorem C3_wipe_leaves_task_lists now (userID : string) d reg :
  userID ≠ "" →
  ∃ w srv',
    WipeAccount now userID "WIPE" (mkServer (healthy d) reg) = (inr w, srv')
    ∧ stored_epoch (view (pg srv')) userID = stored_epoch d userID + 1
    ∧ (∀ k, k ∈ wipe_tables → no_rows_of userID k (view (pg srv')))
    ∧ no_sessions_of userID (registry srv')
    ∧ table TaskList (view (pg srv')) = table TaskList d
    ∧ table TaskListCategory (view (pg srv')) = table TaskListCategory d.
Proof.
  intros Hu.
  destruct (WipeAccount_healthy now userID d reg Hu)
    as (deleted & d' & Hrun & Hep & Hgone & Hkept & Hsess).
  eexists _, _. split; [exact Hrun|]. cbn [pg registry view].
  repeat split; try done.
  - apply (Hkept TaskList). unfold wipe_tables.
    rewrite !elem_of_cons, elem_of_nil. intuition discriminate.
  - apply (Hkept TaskListCategory). unfold wipe_tables.
    rewrite !elem_of_cons, elem_of_nil. intuition discriminate.
Qed.

(** C8. A wipe whose confirmation token is not the literal [WIPE] changes
    nothing and fails, for an authenticated caller with the
    confirmation-required error (a caller without a user id is turned away
    as unauthorized before the token is looked at). Whenever the wipe fails,
    at whatever step, the rows (epoch included) and the sessions are as they
    were; and a fault of the driver at any of the eight statements of the
    transaction (begin, epoch bump, five deletes, commit) makes it fail. *)
Theorem C8_wipe_guard_and_rollback now userID confirm srv :
  let r := WipeAccount now userID confirm srv in
  (confirm ≠ "WIPE" →
     r.2 = srv
     ∧ ∃ st, r.1 = inl st
          ∧ (userID ≠ "" → st = mkStatus InvalidArgument confirmation_required))
  ∧ (∀ st, r.1 = inl st →
       view (pg r.2) = view (pg srv) ∧ registry r.2 = registry srv)
  ∧ (∀ w, r.1 = inr w → Forall (λ f, f = None) (take 8 (faults (pg srv)))).
Proof.
  cbv zeta. split; [|split].
  - intros Hc. unfold WipeAccount.
    case_bool_decide as Hu.
    + split; [done|]. eexists. split; [done|]. intros Hne. by destruct Hne.
    + rewrite bool_decide_eq_true_2 by done. split; [done|]. by eexists.
  - intros st Hst.
    destruct (WipeAccount now userID confirm srv) as [r srv'] eqn:E.
    simpl in Hst. subst r. by eapply WipeAccount_error.
  - intros w. unfold WipeAccount.
    case_bool_decide; [done|].
    case_bool_decide; [done|].
    destruct srv as [[d fs] reg]. cbn [pg registry faults].
    unfold transaction, wipe_tables, deleteTables, QueryBumpEpoch, QueryDeleteOwned,
      bind, statement, read_view, write_view, ret.
    cbn [faults view].
    do 8 (destruct fs as [|[e|] fs];
          [ intros _; repeat constructor
          | cbn [faults view fst snd]; intros Hw; discriminate Hw
          | cbn [faults view fst snd] ]).
    intros _. cbn [take]. repeat constructor.
Qed.

(** C10. For every user without an [owner_state] row, [GetSyncState]
    succeeds with epoch 1, no [last_wipe_at] and no [last_wipe_by], and
    leaves the database and the registry as they were; and no call of
    [GetSyncState], whatever its outcome, creates or changes a row or a
    session. *)
Theorem C10_sync_state_default (userID : string) srv :
  userID ≠ "" →
  faults (pg srv) = [] →
  owner_state (view (pg srv)) !! userID = None →
  GetSyncState userID srv = (inr (mkSyncState 1 None ""), srv)
  ∧ ∀ userID' srv',
      view (pg (GetSyncState userID' srv').2) = view (pg srv')
      ∧ registry (GetSyncState userID' srv').2 = registry srv'.
Proof.
  intros Hu Hf Hnone. split.
  - destruct srv as [[d fs] reg]. simpl in *. subst fs.
    unfold GetSyncState. rewrite bool_decide_eq_false_2 by done.
    simpl. by rewrite Hnone.
  - intros userID' srv'. unfold GetSyncState.
    case_bool_decide; [done|].
    pose proof (statement_view (pg srv')) as Hs.
    destruct (statement (pg srv')) as [[e|] pg']; simpl in *; [done|].
    by destruct (owner_state (view pg') !! userID').
Qed.

End EpochClaims.

(** C3 at user [u1] (epoch 5, one task list, one category, session [s1]):
    the wipe succeeds, the epoch is 6, session [s1] is gone, and the task
    list and the category are still stored. *)
Lemma C3_witness :
  ∃ w srv',
    WipeAccount 99 "u1" "WIPE" Demo.server_u1 = (inr w, srv')
    ∧ stored_epoch (view (pg srv')) "u1" = 6
    ∧ sessions (registry srv') !! "s1" = None
    ∧ table TaskList (view (pg srv')) !! ("u1", 3%N)
      = Some (Demo.row_of Demo.list3 1 NoParent)
    ∧ table TaskListCategory (view (pg srv')) !! ("u1", 4%N)
      = Some (Demo.row_of Demo.category4 3 NoParent).
Proof.
  destruct (C3_wipe_leaves_task_lists 99 "u1"
              (set_owner_state {[ "u1" := mkOwnerState 5 None None ]} Demo.db_u1)
              Demo.registry_u1 ltac:(discriminate))
    as (w & srv' & Hrun & Hep & _ & Hsess & Htl & Htc).
  exists w, srv'. split; [exact Hrun|].
  split; [rewrite Hep; vm_compute; reflexivity|].
  split.
  - destruct (sessions (registry srv') !! "s1") as [sess|] eqn:E; [|reflexivity].
    exfalso. apply (Hsess _ _ E).
    assert (registry srv' = (DeleteUserSessions "u1" Demo.registry_u1).2) as Hreg.
    { revert Hrun. vm_compute. by intros [= _ <-]. }
    rewrite Hreg in E. vm_compute in E. discriminate.
  - split; [rewrite Htl | rewrite Htc]; vm_compute; reflexivity.
Defined.

(** C8 at [u1]: a wipe confirmed with [wipe] is refused and changes nothing;
    a confirmed wipe whose delete of [comment] fails reports that failure
    and leaves rows and sessions as they were. *)
Lemma C8_witness :
  (WipeAccount 99 "u1" "wipe" Demo.server_u1).2 = Demo.server_u1
  ∧ (WipeAccount 99 "u1" "WIPE" Demo.server_u1_faulty).1
    = inl (mkStatus Internal "delete failed: comment")
  ∧ view (pg (WipeAccount 99 "u1" "WIPE" Demo.server_u1_faulty).2)
    = view (pg Demo.server_u1_faulty)
  ∧ registry (WipeAccount 99 "u1" "WIPE" Demo.server_u1_faulty).2
    = registry Demo.server_u1_faulty.
Proof.
  split.
  - apply (proj1 (C8_wipe_guard_and_rollback 99 "u1" "wipe" Demo.server_u1)).
    discriminate.
  - assert ((WipeAccount 99 "u1" "WIPE" Demo.server_u1_faulty).1
            = inl (mkStatus Internal "delete failed: comment")) as Herr
      by (vm_compute; reflexivity).
    split; [exact Herr|].
    exact (proj1 (proj2 (C8_wipe_guard_and_rollback 99 "u1" "WIPE" Demo.server_u1_faulty))
             _ Herr).
Defined.

(** C10 at [u2], who has never opened a session on this server. *)
Lemma C10_witness :
  GetSyncState "u2" Demo.server_u1 = (inr (mkSyncState 1 None ""), Demo.server_u1).
Proof.
  apply C10_sync_state_default.
  - discriminate.
  - reflexivity.
  - vm_compute. reflexivity.
Defined.

(** ** REST mutation: optimistic concurrency *)

Section MutationClaims.
Context {Item : Type} `{!Syncx Item}.
Implicit Types (d : DB Item) (s : TxState Item).

Lemma QueryMsVersion_healthy k owner uid d r :
  table k d !! (owner, uid) = Some r →
  QueryMsVersion k owner uid (healthy d)
  = (inr (updated_at_ms r, version r), healthy d).
Proof.
  intros Hr. unfold QueryMsVersion, bind, statement, read_view, ret, healthy; simpl.
  by rewrite Hr.
Qed.

(** C7. For every REST mutation of a task list category in which the
    expected version is provided and a row with the target
    [(owner_id, uid)] exists: if the stored version differs, the mutation
    fails with the version-mismatch error carrying the expected and the
    actual version, and the database is left as it was. Moreover no
    mutation that fails, for whatever reason, has written anything. *)
Theorem C7_version_mismatch now fresh userID (payload : Item) opts d r :
  EnforceVersion opts = true →
  table TaskListCategory d !! (userID, (mutation_target fresh payload).1) = Some r →
  version r ≠ ExpectedVersion opts →
  ApplyTaskListCategoryMutation now fresh userID payload opts (healthy d)
  = (inl (VersionMismatchError (ExpectedVersion opts) (version r)), healthy d)
  ∧ ∀ s e s',
      ApplyTaskListCategoryMutation now fresh userID payload opts s = (inl e, s') →
      view s' = view s.
Proof.
  intros Henf Hrow Hne. split.
  - unfold ApplyTaskListCategoryMutation.
    apply (transaction_healthy_error _ _ _ d _ (healthy d)); [|reflexivity].
    cbv zeta. unfold bind. rewrite (QueryMsVersion_healthy _ _ _ _ _ Hrow).
    unfold applyProbed. rewrite Henf. simpl.
    destruct (Z.eqb_spec (version r) (ExpectedVersion opts)); [done|].
    reflexivity.
  - intros s e s'. unfold ApplyTaskListCategoryMutation.
    apply transaction_rollback.
Qed.

End MutationClaims.

(** C7 at category 4 of [u1], stored at version 3, patched with expected
    version 2. *)
Lemma C7_witness :
  ApplyTaskListCategoryMutation 5000 99 "u1" Demo.category4
    (mkOpts true 2 None false) (healthy Demo.db_u1)
  = (inl (VersionMismatchError 2 3), healthy Demo.db_u1).
Proof.
  apply (C7_version_mismatch 5000 99 "u1" Demo.category4 (mkOpts true 2 None false)
           Demo.db_u1 (Demo.row_of Demo.category4 3 NoParent)).
  - reflexivity.
  - vm_compute. reflexivity.
  - simpl. lia.
Defined.

(** ** The client retry core: attempts are bounded *)

Module ClientFacts.
Import Client.

Lemma attempts_app tr tr' : attempts (tr ++ tr') = (attempts tr + attempts tr')%nat.
Proof. unfold attempts. by rewrite List.filter_app, length_app. Qed.

(** From the attempt with [retryCount = n] on, a run makes at most
    [MaxRetries + 1 - n] HTTP attempts, whatever the fuel. *)
Lemma attempts_from fuel c env : ∀ n tr,
  (n ≤ MaxRetries)%nat →
  (attempts (doWithRetry fuel c env n tr).2 ≤ attempts tr + (MaxRetries + 1 - n))%nat.
Proof.
  unfold MaxRetries.
  induction fuel as [|fuel IH]; intros n tr Hn; simpl; [lia|].
  destruct (cloneOk env n); simpl; [|lia].
  destruct (if devMode c then Some DebugSub else Bearer <$> getToken env n)
    as [auth|]; simpl; [|lia].
  destruct (if hasSessionMgr c then Some <$> ensureSession env n else Some None)
    as [session|]; simpl; [|lia].
  assert (attempts (tr ++ [EvHTTP auth session]) = attempts tr + 1)%nat as Hone
    by (by rewrite attempts_app).
  set (tr1 := tr ++ [EvHTTP auth session]) in *.
  assert (∀ ev, is_http ev = false → (n < 3)%nat →
            (attempts (doWithRetry fuel c env (n + 1) (tr1 ++ [ev])).2
             ≤ attempts tr + (3 + 1 - n))%nat) as Hrec.
  { intros ev Hev Hlt.
    etrans; [apply IH; lia|].
    rewrite attempts_app, Hone.
    assert (attempts [ev] = 0%nat) as Hz by (unfold attempts; simpl; by rewrite Hev).
    lia. }
  destruct (roundTrip env n) as [e|resp]; simpl; [lia|].
  destruct (Z.eqb (StatusCode resp) 401).
  { unfold handleUnauthorized.
    case_bool_decide; unfold MaxRetries in *; simpl; [lia|].
    destruct (devMode c); simpl; [lia|]. apply Hrec; [done|lia]. }
  destruct (Z.eqb (StatusCode resp) 409).
  { unfold handleConflict, handleEpochMismatch.
    destruct (ErrorBody resp) as [[error epoch]|]; simpl; [|lia].
    destruct (String.eqb error "epoch_mismatch"); simpl; [|lia].
    case_bool_decide; unfold MaxRetries in *; simpl; [lia|].
    destruct (hasSessionMgr c); simpl; [|lia]. apply Hrec; [done|lia]. }
  destruct (Z.eqb (StatusCode resp) 429); simpl; [|lia].
  unfold handleRateLimit.
  case_bool_decide; unfold MaxRetries in *; simpl; [lia|].
  destruct (ctxDone env n); simpl; [lia|]. apply Hrec; [done|lia].
Qed.

(** With [MaxRetries + 1 - n] units of fuel the run from [retryCount = n]
    ends in a response or an error. *)
Lemma fuel_suffices fuel c env : ∀ n tr,
  (n ≤ MaxRetries)%nat → (MaxRetries + 1 ≤ fuel + n)%nat →
  is_Some (doWithRetry fuel c env n tr).1.
Proof.
  unfold MaxRetries.
  induction fuel as [|fuel IH]; intros n tr Hn Hfuel; [lia|]. simpl.
  destruct (cloneOk env n); simpl; [|done].
  destruct (if devMode c then Some DebugSub else Bearer <$> getToken env n)
    as [auth|]; simpl; [|done].
  destruct (if hasSessionMgr c then Some <$> ensureSession env n else Some None)
    as [session|]; simpl; [|done].
  destruct (roundTrip env n) as [e|resp]; simpl; [done|].
  destruct (Z.eqb (StatusCode resp) 401).
  { unfold handleUnauthorized.
    case_bool_decide; unfold MaxRetries in *; simpl; [done|].
    destruct (devMode c); simpl; [done|]. apply IH; lia. }
  destruct (Z.eqb (StatusCode resp) 409).
  { unfold handleConflict, handleEpochMismatch.
    destruct (ErrorBody resp) as [[error epoch]|]; simpl; [|done].
    destruct (String.eqb error "epoch_mismatch"); simpl; [|done].
    case_bool_decide; unfold MaxRetries in *; simpl; [done|].
    destruct (hasSessionMgr c); simpl; [|done]. apply IH; lia. }
  destruct (Z.eqb (StatusCode resp) 429); simpl; [|done].
  unfold handleRateLimit.
  case_bool_decide; unfold MaxRetries in *; simpl; [done|].
  destruct (ctxDone env n); simpl; [done|]. apply IH; lia.
Qed.

(** A run that ended is not changed by more fuel. *)
Lemma more_fuel fuel c env : ∀ n tr fuel',
  is_Some (doWithRetry fuel c env n tr).1 → (fuel ≤ fuel')%nat →
  doWithRetry fuel' c env n tr = doWithRetry fuel c env n tr.
Proof.
  induction fuel as [|fuel IH]; intros n tr fuel' Hend Hle.
  { simpl in Hend. by destruct Hend. }
  destruct fuel' as [|fuel']; [lia|].
  simpl in *.
  destruct (cloneOk env n); simpl in *; [|done].
  destruct (if devMode c then Some DebugSub else Bearer <$> getToken env n)
    as [auth|]; simpl in *; [|done].
  destruct (if hasSessionMgr c then Some <$> ensureSession env n else Some None)
    as [session|]; simpl in *; [|done].
  destruct (roundTrip env n) as [e|resp]; simpl in *; [done|].
  destruct (Z.eqb (StatusCode resp) 401).
  { unfold handleUnauthorized in *.
    case_bool_decide; unfold MaxRetries in *; simpl in *; [done|].
    destruct (devMode c); simpl in *; [done|]. apply IH; [done|lia]. }
  destruct (Z.eqb (StatusCode resp) 409).
  { unfold handleConflict, handleEpochMismatch in *.
    destruct (ErrorBody resp) as [[error epoch]|]; simpl in *; [|done].
    destruct (String.eqb error "epoch_mismatch"); simpl in *; [|done].
    case_bool_decide; unfold MaxRetries in *; simpl in *; [done|].
    destruct (hasSessionMgr c); simpl in *; [|done]. apply IH; [done|lia]. }
  destruct (Z.eqb (StatusCode resp) 429); simpl in *; [|done].
  unfold handleRateLimit in *.
  case_bool_decide; unfold MaxRetries in *; simpl in *; [done|].
  destruct (ctxDone env n); simpl in *; [done|]. apply IH; [done|lia].
Qed.

(** C6 (as amended). For every logical call through the retry core the
    number of HTTP attempts is at most [MaxRetries + 1 = 4], one first
    attempt and at most three retries, counted together over the 401, the
    409 epoch-mismatch and the 429 paths; the recursion always ends in a
    response or an error, and more fuel than [MaxRetries + 1] changes
    nothing. *)
Theorem C6_attempts_bounded c env :
  (attempts (Do c env).2 ≤ MaxRetries + 1)%nat
  ∧ MaxRetries = 3%nat
  ∧ (∃ outcome, (Do c env).1 = Some outcome)
  ∧ (∀ fuel, (MaxRetries + 1 ≤ fuel)%nat → doWithRetry fuel c env 0 [] = Do c env).
Proof.
  unfold Do. split; [|split; [|split]].
  - pose proof (attempts_from (S MaxRetries) c env 0 [] (Nat.le_0_l _)) as H.
    change (attempts []) with 0%nat in H. lia.
  - reflexivity.
  - apply (fuel_suffices (S MaxRetries) c env 0 []); unfold MaxRetries; lia.
  - intros fuel Hfuel. apply more_fuel; [|unfold MaxRetries in *; lia].
    apply fuel_suffices; unfold MaxRetries; lia.
Qed.

(** C6 as stated fails: against a server that answers 429 every time, a
    logical call makes four HTTP attempts before it gives up. *)
Lemma C6_counterexample :
  attempts (Do Demo.prod_client Demo.always_429).2 = 4%nat
  ∧ ¬ (attempts (Do Demo.prod_client Demo.always_429).2 ≤ 3)%nat.
Proof.
  assert (attempts (Do Demo.prod_client Demo.always_429).2 = 4%nat) as H
    by (vm_compute; reflexivity).
  split; [exact H|]. rewrite H. lia.
Qed.

(** C6 at the server that answers 429 every time: four attempts, an error
    in the end, and ten units of fuel give the same run. *)
Lemma C6_witness :
  (attempts (Do Demo.prod_client Demo.always_429).2 ≤ 4)%nat
  ∧ (Do Demo.prod_client Demo.always_429).1 = Some (Failed (ErrRateLimited 0))
  ∧ doWithRetry 10 Demo.prod_client Demo.always_429 0 []
    = Do Demo.prod_client Demo.always_429.
Proof.
  destruct (C6_attempts_bounded Demo.prod_client Demo.always_429)
    as (Hle & _ & _ & Hfuel).
  split; [exact Hle|]. split; [vm_compute; reflexivity|].
  apply Hfuel. unfold MaxRetries. lia.
Defined.

End ClientFacts.

(** ** Batches and whole pulls *)

Section BatchFacts.
Context {Item : Type} `{!Syncx Item}.
Implicit Types (d : DB Item) (s : TxState Item).

Lemma pushItems_versions_ok k userID (items : list Item) : ∀ s,
  versions_ok (view s) → versions_ok (view (pushItems k userID items s).2).
Proof.
  induction items as [|item rest IH]; intros s Hok; [done|].
  simpl. unfold bind.
  pose proof (PushItem_versions_ok k userID item s Hok) as H1.
  destruct (PushItem k userID item s) as [ack s1]. simpl in H1.
  specialize (IH s1 H1).
  by destruct (pushItems k userID rest s1) as [acks s2].
Qed.

(** The version floor holds after every batch, committed or rolled back. *)
Lemma PushBatch_versions_ok k userID (items : list Item) s :
  versions_ok (view s) → versions_ok (view (PushBatch k userID items s).2).
Proof.
  intros Hok. unfold PushBatch, transaction.
  pose proof (statement_view s) as Hs.
  destruct (statement s) as [[f|] s1]; simpl in Hs; [by rewrite <- Hs in Hok|].
  unfold bind.
  rewrite <- Hs in Hok.
  pose proof (pushItems_versions_ok k userID items s1 Hok) as H1.
  destruct (pushItems k userID items s1) as [acks s2]. simpl in *.
  pose proof (statement_view s2) as Hs2.
  destruct (statement s2) as [[f|] s3]; simpl in *.
  - by rewrite Hs in Hok.
  - by rewrite Hs2.
Qed.

(** On a healthy connection a pull with a limit that is not negative
    returns a page and leaves the connection as it was. *)
Lemma pullKind_healthy k userID c limit d :
  0 ≤ limit →
  ∃ resp, pullKind k userID c limit (healthy d) = (inr resp, healthy d).
Proof.
  intros Hl. unfold pullKind, QueryPage, bind, statement, read_view, ret, healthy.
  simpl. rewrite bool_decide_eq_false_2 by lia. simpl. by eexists.
Qed.

End BatchFacts.

(** ** The end-to-end scenarios of the specification, run on the model *)

Section Scenarios.
Import Demo.

(** S1: the same push twice is acked twice with version 1 and leaves one row. *)
Example S1_duplicate_push :
  let run := (let* a1 := PushItem Note "u1" (note5 1000 "x") in
              let* a2 := PushItem Note "u1" (note5 1000 "x") in
              let* d := read_view in
              ret (AckVersion a1, AckVersion a2, size (table Note d)))
               (healthy empty_db) in
  run.1 = (1, 1, 1%nat).
Proof. vm_compute. reflexivity. Qed.

(** S2: pushes at 2000, 1500 and 3000 are acked with versions 1, 1 and 2,
    and the row ends at the last write. *)
Example S2_out_of_order :
  let run := (let* a1 := PushItem Note "u1" (note5 2000 "new") in
              let* a2 := PushItem Note "u1" (note5 1500 "old") in
              let* a3 := PushItem Note "u1" (note5 3000 "newer") in
              let* d := read_view in
              ret (AckVersion a1, AckVersion a2, AckVersion a3,
                   table Note d !! ("u1", 5%N)))
               (healthy empty_db) in
  run.1 = (1, 1, 2, Some (mkRow 3000 None 2 (note5 3000 "newer") NoParent)).
Proof. vm_compute. reflexivity. Qed.

(** S3: four notes pulled two at a time, then an empty page without cursor. *)
Example S3_paginated_pull :
  on_ok (λ p, (i_ms <$> Upserts p, NextCursor p))
    (pullKind Note "u1" (mkCursor 0 uuid_Nil) 2 (healthy four_notes)).1
  = inr ([1; 2], Some (EncodeCursor (mkCursor 2 12)))
  ∧ on_ok (λ p, (i_ms <$> Upserts p, NextCursor p))
      (pullKind Note "u1" (mkCursor 2 12) 2 (healthy four_notes)).1
    = inr ([3; 4], Some (EncodeCursor (mkCursor 4 14)))
  ∧ (pullKind Note "u1" (mkCursor 4 14) 2 (healthy four_notes)).1
    = inr (mkPull [] [] None).
Proof. repeat split; vm_compute; reflexivity. Qed.

(** S4: a chat message without its chat is refused, its tombstone is
    accepted and the next pull reports the delete. *)
Example S4_parent_missing_then_tombstone :
  let run := (let* a1 := PushItem ChatMessage "u1" (mkItem 21 1 None 1 "" 30 "hi") in
              let* a2 := PushItem ChatMessage "u1" (mkItem 21 2 (Some 2) 1 "" 30 "") in
              let* p := pullKind ChatMessage "u1" (mkCursor 0 uuid_Nil) 10 in
              ret (AckError a1, AckError a2, on_ok Deletes p))
               (healthy empty_db) in
  run.1 = ("parent chat not found: " +:+ UUIDString 30%N, "",
           inr [mkDelete (UUIDString 21%N) (RFC3339 2)]).
Proof. vm_compute. reflexivity. Qed.

(** S5: the wipe of [u1] at epoch 5 answers epoch 6, and session [s1] is
    then unknown to the registry. *)
Example S5_wipe :
  let r := WipeAccount 99 "u1" "WIPE" server_u1 in
  on_ok w_Epoch r.1 = inr 6
  ∧ GetSession 100 "s1" (registry r.2) = None
  ∧ on_ok s_Epoch (GetSyncState "u1" r.2).1 = inr 6.
Proof. repeat split; vm_compute; reflexivity. Qed.

(** S6: of two patches that both expect version 3, the first writes version
    4 and the second fails with expected 3, actual 4. *)
Example S6_optimistic_concurrency :
  let run := (let* r1 := ApplyTaskListCategoryMutation 5000 99 "u1" category4
                           (mkOpts true 3 None false) in
              let* r2 := ApplyTaskListCategoryMutation 5001 99 "u1" category4
                           (mkOpts true 3 None false) in
              ret (on_ok r_Version r1, on_ok r_Version r2))
               (healthy db_u1) in
  run.1 = (inr 4, inl (VersionMismatchError 3 4)).
Proof. vm_compute. reflexivity. Qed.

End Scenarios.

(** * Further properties of the code *)

(** ** Pushes: idempotence, monotonicity, isolation, order independence *)

Section PushMore.
Context {Item : Type} `{!Syncx Item}.
Implicit Types (d : DB Item) (s : TxState Item).

(** An item whose header cannot be extracted is acked with the extractor's
    error and nothing else happens, on any connection. *)
Lemma PushItem_unparsed k userID (item : Item) :
  pushed k item = None →
  ∃ err, ∀ s, PushItem k userID item s = (mkAck "" 0 "" err, s).
Proof.
  intros Hp.
  destruct k; simpl in Hp |- *;
    unfold PushNoteItem, PushTaskItem, PushTaskListItem, PushTaskListCategoryItem,
      PushChatItem, pushPlainItem, PushChatMessageItem, PushCommentItem.
  1-5: destruct (ExtractCommon item) as [err|e]; [by exists err | done].
  - destruct (ExtractChatMessage item) as [err|e]; [by exists err | done].
  - destruct (ExtractComment item) as [err|e]; [by exists err | done].
Qed.

(** A push with a valid parent type that is a tombstone or has its parent is
    the upsert tail, whether or not the item serialises. *)
Lemma PushItem_let_through k userID (item : Item) ext refs d :
  pushed k item = Some (ext, refs) →
  valid_parent_type refs = true →
  bool_decide (is_Some (DeletedAtMs ext)) || parent_exists refs userID d = true →
  PushItem k userID item (healthy d) = upsertAndAck k userID item ext refs (healthy d).
Proof.
  intros Hp Hty Hpar.
  destruct (Marshalable item) eqn:Hm.
  { apply PushItem_validated; [done|]. unfold validated. by rewrite Hty, Hpar, Hm. }
  destruct k; simpl in Hp |- *;
    unfold PushNoteItem, PushTaskItem, PushTaskListItem, PushTaskListCategoryItem,
      PushChatItem, pushPlainItem, PushChatMessageItem, PushCommentItem.
  1-5: by destruct (ExtractCommon item) as [|e]; simplify_eq.
  - destruct (ExtractChatMessage item) as [|e]; simplify_eq. simpl in *.
    unfold bind at 1.
    destruct (DeletedAtMs (m_common e)) as [t|]; simpl in *; [done|].
    unfold bind at 1. rewrite QueryExistsLive_healthy. by rewrite Hpar.
  - destruct (ExtractComment item) as [|e]; simplify_eq. simpl in *.
    apply bool_decide_eq_true in Hty as [pk Hpk]. rewrite Hpk in Hpar.
    apply parent_kind_Some in Hpk as [[Hpt ->]|[Hpt ->]]; rewrite Hpt in *; simpl;
      unfold bind at 1;
      (destruct (DeletedAtMs (c_common e)) as [t|]; simpl in *; [done|]);
      unfold bind at 1; rewrite QueryExistsLive_healthy; by rewrite Hpar.
Qed.

(** The parent columns a kind extracts never point into its own table. *)
Lemma pushed_refs k (item : Item) ext refs :
  pushed k item = Some (ext, refs) →
  refs = NoParent ∨ k = Comment ∨ k = ChatMessage.
Proof.
  destruct k; simpl; intros Hp; auto;
    destruct (ExtractCommon item); simplify_eq; auto.
Qed.

Lemma parent_exists_set_table k refs userID t d :
  refs = NoParent ∨ k = Comment ∨ k = ChatMessage →
  parent_exists refs userID (set_table k t d) = parent_exists refs userID d.
Proof.
  intros [->|Hk]; [done|].
  destruct refs as [|pt uid|uid]; simpl; [done| |].
  - destruct (parent_kind pt) as [pk|] eqn:Hpk; [|done].
    apply parent_kind_Some in Hpk as [[_ ->]|[_ ->]];
      unfold live; rewrite table_set_table_ne; auto; by destruct Hk as [->| ->].
  - unfold live. rewrite table_set_table_ne; auto. by destruct Hk as [->| ->].
Qed.

(** Running the statement a second time changes nothing. *)
Lemma upsert_row_idem (o : string) (u : UUID) (ms : Z) (del : option Z) (v : Z)
    (p : Item) (refs : ParentRefs) (t : gmap (string * UUID) (Row Item)) :
  upsert_row o u ms del v p refs (upsert_row o u ms del v p refs t)
  = upsert_row o u ms del v p refs t.
Proof.
  pose proof (upsert_row_lookup o u ms del v p refs t) as Hl.
  eapply upsert_row_stale; [exact Hl|].
  destruct (t !! (o, u)) as [old|]; simpl; [|lia].
  case_bool_decide; simpl; lia.
Qed.

(** On a healthy connection a push ends on a healthy connection. *)
Lemma PushItem_healthy k userID (item : Item) d :
  ∃ d', (PushItem k userID item (healthy d)).2 = healthy d'.
Proof.
  destruct (pushed k item) as [[ext refs]|] eqn:Hp.
  - destruct (valid_parent_type refs) eqn:Hty.
    + destruct (bool_decide (is_Some (DeletedAtMs ext)) || parent_exists refs userID d)
        eqn:Hpar.
      * rewrite (PushItem_let_through _ _ _ _ _ _ Hp Hty Hpar).
        destruct (Marshalable item) eqn:Hm.
        -- destruct (upsertAndAck_healthy k userID item ext refs d Hm) as (r & _ & ->).
           by eexists.
        -- unfold upsertAndAck. rewrite Hm. by eexists.
      * apply orb_false_iff in Hpar as [Hdel Hpar].
        rewrite (PushItem_parent_missing _ _ _ _ _ _ Hp Hty); [by eexists| |done].
        apply bool_decide_eq_false in Hdel.
        destruct (DeletedAtMs ext); [by destruct Hdel|done].
    + rewrite (PushItem_invalid_parent_type _ _ _ _ _ _ Hp Hty). by eexists.
  - destruct (PushItem_unparsed k userID item Hp) as [err ->]. by eexists.
Qed.

(** X1. Pushing the same item twice in a row on a healthy connection is the
    same as pushing it once: the second push returns the ack of the first
    and leaves every row as the first left it. *)
Theorem X1_push_idempotent k userID (item : Item) d :
  let first := PushItem k userID item (healthy d) in
  PushItem k userID item first.2 = first.
Proof.
  cbv zeta.
  destruct (pushed k item) as [[ext refs]|] eqn:Hp.
  2:{ destruct (PushItem_unparsed k userID item Hp) as [err Hrun].
      by rewrite (Hrun (healthy d)), Hrun. }
  destruct (valid_parent_type refs) eqn:Hty.
  2:{ rewrite (PushItem_invalid_parent_type _ _ _ _ _ d Hp Hty). simpl.
      by rewrite (PushItem_invalid_parent_type _ _ _ _ _ d Hp Hty). }
  destruct (bool_decide (is_Some (DeletedAtMs ext)) || parent_exists refs userID d)
    eqn:Hpar.
  2:{ apply orb_false_iff in Hpar as [Hdel Hpar].
      apply bool_decide_eq_false in Hdel.
      assert (DeletedAtMs ext = None) as Hnone
        by (destruct (DeletedAtMs ext); [by destruct Hdel|done]).
      rewrite (PushItem_parent_missing _ _ _ _ _ _ Hp Hty Hnone Hpar). simpl.
      by rewrite (PushItem_parent_missing _ _ _ _ _ _ Hp Hty Hnone Hpar). }
  rewrite (PushItem_let_through _ _ _ _ _ _ Hp Hty Hpar).
  destruct (Marshalable item) eqn:Hm.
  2:{ assert (upsertAndAck k userID item ext refs (healthy d)
                  = (rejected ext "payload serialization error", healthy d)) as Hrej
        by (unfold upsertAndAck; by rewrite Hm).
      rewrite Hrej. simpl.
      by rewrite (PushItem_let_through _ _ _ _ _ _ Hp Hty Hpar). }
  destruct (upsertAndAck_healthy k userID item ext refs d Hm) as (r & Hr & Hrun).
  rewrite Hrun. simpl.
  assert (upserted k userID item ext refs (upserted k userID item ext refs d)
          = upserted k userID item ext refs d) as Hidem.
  { unfold upserted. rewrite table_set_table_eq, upsert_row_idem.
    by destruct k. }
  rewrite (PushItem_let_through _ _ _ ext refs); [|done|done|].
  - destruct (upsertAndAck_healthy k userID item ext refs
                (upserted k userID item ext refs d) Hm) as (r' & Hr' & ->).
    rewrite Hidem in *. rewrite Hr in Hr'. by simplify_eq.
  - unfold upserted. rewrite parent_exists_set_table; [done|].
    by eapply pushed_refs.
Qed.

(** X2. Whatever the faults, a push never removes a row and never moves a
    row back: the row is still there afterwards, its [updated_at_ms] and
    [version] have not decreased, and the version has grown (by exactly one)
    if and only if [updated_at_ms] has strictly grown. *)
Theorem X2_push_monotone k userID (item : Item) s k' key old :
  table k' (view s) !! key = Some old →
  ∃ new, table k' (view (PushItem k userID item s).2) !! key = Some new
       ∧ updated_at_ms old ≤ updated_at_ms new
       ∧ (updated_at_ms old < updated_at_ms new → version new = version old + 1)
       ∧ (updated_at_ms old = updated_at_ms new → new = old).
Proof.
  intros Hold.
  destruct (PushItem_view k userID item s) as [->|(ext & refs & _ & ->)].
  { exists old. (split; [done|]); (split; [lia|]); (split; [lia|done]). }
  unfold upserted.
  destruct (decide (k' = k)) as [->|Hk].
  2:{ rewrite table_set_table_ne by done. exists old.
      (split; [done|]); (split; [lia|]); (split; [lia|done]). }
  rewrite table_set_table_eq.
  destruct (decide (key = (userID, UID ext))) as [->|Hkey].
  2:{ rewrite upsert_row_lookup_ne by done. exists old.
      (split; [done|]); (split; [lia|]); (split; [lia|done]). }
  rewrite upsert_row_lookup, Hold.
  case_bool_decide; eexists; (split; [reflexivity|]); simpl;
    (split; [lia|]); (split; [lia|]); intros; (done || lia).
Qed.

(** X3. A push changes at most one row: the one with the pushing user's id
    and the item's uid, in the table of the item's kind. Rows of other
    owners, other uids, other tables and the owner state are as before. *)
Theorem X3_push_isolated k userID (item : Item) s :
  let s' := (PushItem k userID item s).2 in
  owner_state (view s') = owner_state (view s)
  ∧ ∀ k' key,
      table k' (view s') !! key ≠ table k' (view s) !! key →
      k' = k ∧ ∃ ext refs, pushed k item = Some (ext, refs) ∧ key = (userID, UID ext).
Proof.
  cbv zeta.
  destruct (PushItem_view k userID item s) as [->|(ext & refs & Hp & ->)].
  { split; [done|]. by intros k' key []. }
  unfold upserted. split; [apply owner_state_set_table|].
  intros k' key Hne.
  destruct (decide (k' = k)) as [->|Hk].
  2:{ rewrite table_set_table_ne in Hne by done. by destruct Hne. }
  split; [done|]. exists ext, refs. split; [done|].
  destruct (decide (key = (userID, UID ext))) as [->|Hkey]; [done|].
  rewrite table_set_table_eq, upsert_row_lookup_ne in Hne by done. by destruct Hne.
Qed.

End PushMore.

Section PushOrder.
Context {Item : Type} `{!Syncx Item}.
Implicit Types (d : DB Item) (s : TxState Item).

(** A push that is let through leaves the database with its upsert applied. *)
Lemma PushItem_validated_state k userID (item : Item) ext refs d :
  pushed k item = Some (ext, refs) →
  validated item ext refs userID d = true →
  (PushItem k userID item (healthy d)).2 = healthy (upserted k userID item ext refs d).
Proof.
  intros Hp Hv. rewrite (PushItem_validated _ _ _ _ _ _ Hp Hv).
  assert (Marshalable item = true) as Hm
    by (unfold validated in Hv; by apply andb_true_iff in Hv as [_ ?]).
  by destruct (upsertAndAck_healthy k userID item ext refs d Hm) as (r & _ & ->).
Qed.

(** The upsert of one item of a kind does not change whether another item
    of that kind is let through. *)
Lemma validated_upserted k userID (item item' : Item) ext refs ext' refs' d :
  pushed k item = Some (ext, refs) →
  validated item ext refs userID (upserted k userID item' ext' refs' d)
  = validated item ext refs userID d.
Proof.
  intros Hp. unfold validated, upserted.
  rewrite parent_exists_set_table; [done|]. by eapply pushed_refs.
Qed.

(** X4. Last write wins whatever the order of arrival: when two items with
    the same uid and timestamps [a < b] are both let through, and the stored
    row (if any) is older than [b], then pushing them in either order leaves
    the row with the payload, timestamps and parent columns of the [b]
    item. *)
Theorem X4_lww_order_independent k userID (i1 i2 : Item) e1 r1 e2 r2 d :
  pushed k i1 = Some (e1, r1) →
  pushed k i2 = Some (e2, r2) →
  UID e1 = UID e2 →
  UpdatedAtMs e1 < UpdatedAtMs e2 →
  validated i1 e1 r1 userID d = true →
  validated i2 e2 r2 userID d = true →
  (∀ old, table k d !! (userID, UID e2) = Some old →
          updated_at_ms old < UpdatedAtMs e2) →
  let after12 := (PushItem k userID i2 (PushItem k userID i1 (healthy d)).2).2 in
  let after21 := (PushItem k userID i1 (PushItem k userID i2 (healthy d)).2).2 in
  ∃ v12 v21,
    table k (view after12) !! (userID, UID e2)
    = Some (mkRow (UpdatedAtMs e2) (DeletedAtMs e2) v12 i2 r2)
    ∧ table k (view after21) !! (userID, UID e2)
      = Some (mkRow (UpdatedAtMs e2) (DeletedAtMs e2) v21 i2 r2).
Proof.
  intros Hp1 Hp2 Huid Hlt Hv1 Hv2 Hold. cbv zeta.
  rewrite (PushItem_validated_state _ _ _ _ _ _ Hp1 Hv1).
  rewrite (PushItem_validated_state _ _ _ _ _ _ Hp2 Hv2).
  rewrite (PushItem_validated_state _ _ _ e2 r2); [|done|by rewrite validated_upserted].
  rewrite (PushItem_validated_state _ _ _ e1 r1); [|done|by rewrite validated_upserted].
  simpl. unfold upserted. rewrite !table_set_table_eq, !upsert_row_lookup.
  rewrite Huid, !upsert_row_lookup.
  destruct (table k d !! (userID, UID e2)) as [old|] eqn:E.
  - specialize (Hold old eq_refl).
    rewrite (bool_decide_eq_true_2 (updated_at_ms old < UpdatedAtMs e2)) by done.
    simpl. rewrite (bool_decide_eq_false_2 (UpdatedAtMs e2 < UpdatedAtMs e1)) by lia.
    destruct (decide (updated_at_ms old < UpdatedAtMs e1)) as [Hlt1|Hge1].
    + rewrite (bool_decide_eq_true_2 _ Hlt1). simpl.
      rewrite (bool_decide_eq_true_2 _ Hlt). by eexists _, _.
    + rewrite (bool_decide_eq_false_2 _ Hge1).
      rewrite (bool_decide_eq_true_2 _ Hold). by eexists _, _.
  - simpl. rewrite (bool_decide_eq_true_2 _ Hlt).
    rewrite (bool_decide_eq_false_2 (UpdatedAtMs e2 < UpdatedAtMs e1)) by lia.
    by eexists _, _.
Qed.

Lemma pushItems_healthy k userID (items : list Item) : ∀ d,
  ∃ acks d', pushItems k userID items (healthy d) = (acks, healthy d')
           ∧ length acks = length items.
Proof.
  induction items as [|item rest IH]; intros d; [by exists [], d|].
  simpl. unfold bind.
  destruct (PushItem_healthy k userID item d) as [d1 H1].
  destruct (PushItem k userID item (healthy d)) as [ack s1]. simpl in H1. subst s1.
  destruct (IH d1) as (acks & d' & -> & Hlen).
  exists (ack :: acks), d'. split; [done|]. simpl. by rewrite Hlen.
Qed.

Lemma pushItems_length k userID (items : list Item) : ∀ s,
  length (pushItems k userID items s).1 = length items.
Proof.
  induction items as [|item rest IH]; intros s; [done|].
  simpl. unfold bind.
  destruct (PushItem k userID item s) as [ack s1].
  specialize (IH s1). destruct (pushItems k userID rest s1) as [acks s2].
  simpl in *. by rewrite IH.
Qed.

(** X5. A push batch is all or nothing. The handler answers 200 with one ack
    per item, in order, or 500 with a single error ack, and in the second
    case every row is as it was before the batch; on a healthy connection it
    always answers 200, whatever the items (an item that is refused gets its
    error in its own ack and does not abort the batch). *)
Theorem X5_batch_atomic k userID (items : list Item) s :
  let r := PushBatch k userID items s in
  ((r.1.1 = 200 ∧ length r.1.2 = length items)
   ∨ (r.1.1 = 500 ∧ length r.1.2 = 1%nat ∧ view r.2 = view s))
  ∧ (faults s = [] → r.1.1 = 200).
Proof.
  cbv zeta. unfold PushBatch. split.
  - match goal with
    | |- context [transaction ?b ?c ?body s] =>
        pose proof (transaction_rollback b c body s) as Hrb;
        assert (∀ acks s', transaction b c body s = (inr acks, s') →
                           length acks = length items) as Hok;
        [|destruct (transaction b c body s) as [[e|acks] s'] eqn:E]
    end.
    + intros acks s'. unfold transaction.
      destruct (statement s) as [[f|] s1]; [done|].
      unfold bind. pose proof (pushItems_length k userID items s1) as Hlen.
      destruct (pushItems k userID items s1) as [acks1 s2]. simpl in *.
      destruct (statement s2) as [[f|] s3]; [done|].
      by intros [= <- _].
    + right. simpl. repeat split. by eapply Hrb.
    + left. simpl. split; [done|]. by eapply Hok.
  - intros Hf. destruct s as [d fs]. simpl in Hf. subst fs.
    change (mkTx d []) with (healthy d).
    destruct (pushItems_healthy k userID items d) as (acks & d' & Hrun & _).
    erewrite transaction_healthy; [done|]. unfold bind. by rewrite Hrun.
Qed.

End PushOrder.

(** ** Pulls: pages chain without loss or repetition *)

Section PullMore.
Context {Item : Type} `{!Syncx Item}.
Implicit Types (t : gmap (string * UUID) (Row Item)) (rows : list (UUID * Row Item))
  (d : DB Item).

(** All rows of the owner after the cursor, in scan order. *)
Lemma scan_sorted (owner : string) (c : Cursor) t :
  StronglySorted scan_lt (merge_sort scan_le (selected owner c t)).
Proof.
  apply StronglySorted_scan_lt.
  - apply StronglySorted_merge_sort; apply _.
  - rewrite merge_sort_Permutation. apply NoDup_selected.
Qed.

Lemma scan_NoDup (owner : string) (c : Cursor) t :
  NoDup (merge_sort scan_le (selected owner c t)).
Proof.
  apply (NoDup_fmap_1 fst). rewrite merge_sort_Permutation. apply NoDup_selected.
Qed.

Lemma elem_of_scan (owner : string) (c : Cursor) t (y : UUID * Row Item) :
  y ∈ merge_sort scan_le (selected owner c t)
  ↔ t !! (owner, y.1) = Some y.2 ∧ after_cursor c (updated_at_ms y.2) y.1.
Proof. rewrite merge_sort_Permutation. destruct y. apply elem_of_selected. Qed.

(** The scan from the last row of a page is the rest of the scan. *)
Lemma scan_resume (owner : string) (c : Cursor) t (n : nat) x :
  last (take n (merge_sort scan_le (selected owner c t))) = Some x →
  merge_sort scan_le (selected owner (cursor_of x) t)
  = drop n (merge_sort scan_le (selected owner c t)).
Proof.
  intros Hlast.
  set (L := merge_sort scan_le (selected owner c t)) in *.
  pose proof (scan_sorted owner c t) as Hsorted. fold L in Hsorted.
  pose proof (scan_NoDup owner c t) as Hnd. fold L in Hnd.
  rewrite <- (take_drop n L) in Hsorted, Hnd.
  apply last_Some in Hlast as [front Hfront].
  assert (x ∈ take n L) as Hx by (rewrite Hfront, elem_of_app, list_elem_of_singleton; auto).
  assert (x ∈ L) as HxL by (by apply subseteq_take in Hx).
  apply (StronglySorted_unique_strong scan_lt).
  - intros x1 x2 _ _. unfold scan_lt. lia.
  - apply scan_sorted.
  - by apply StronglySorted_app_1_r in Hsorted.
  - apply NoDup_Permutation; [apply scan_NoDup | by apply NoDup_app in Hnd as (_ & _ & ?) |].
    intros y. rewrite elem_of_scan. split.
    + intros [Hrow Hafter].
      assert (y ∈ L) as HyL.
      { apply elem_of_scan. split; [done|].
        apply elem_of_scan in HxL as [_ Hxc].
        unfold after_cursor, cursor_of in *. simpl in *. lia. }
      rewrite <- (take_drop n L), elem_of_app in HyL.
      destruct HyL as [Hy|Hy]; [exfalso|done].
      rewrite Hfront in Hy, Hsorted. apply elem_of_app in Hy as [Hy|Hy].
      * rewrite <- app_assoc in Hsorted.
        assert (scan_lt y x) as Hlt.
        { eapply (StronglySorted_app_1_elem_of _ front); [exact Hsorted|done|].
          apply elem_of_app. left. by apply list_elem_of_singleton. }
        unfold scan_lt, after_cursor, cursor_of in *. simpl in *. lia.
      * apply list_elem_of_singleton in Hy. subst y.
        unfold after_cursor, cursor_of in *. simpl in *. lia.
    + intros Hy.
      assert (scan_lt x y) as Hlt
        by (eapply StronglySorted_app_1_elem_of; [exact Hsorted|done..]).
      assert (y ∈ L) as HyL
        by (rewrite <- (take_drop n L), elem_of_app; by right).
      apply elem_of_scan in HyL as [Hrow _].
      split; [done|]. unfold scan_lt, after_cursor, cursor_of in *. simpl. lia.
Qed.

(** The page of [n + m] rows is the page of [n] rows followed by the page of
    [m] rows taken from the cursor of its last row. *)
Lemma page_chain (owner : string) (c : Cursor) (n m : Z) t x :
  0 ≤ n → 0 ≤ m →
  last (page owner c n t) = Some x →
  page owner c (n + m) t = page owner c n t ++ page owner (cursor_of x) m t.
Proof.
  intros Hn Hm Hlast. unfold page in *.
  rewrite (scan_resume owner c t (Z.to_nat n) x Hlast).
  rewrite take_take_drop. f_equal. lia.
Qed.

(** What a pull answers on a healthy connection. *)
Lemma pullKind_healthy_eq k userID c limit d :
  0 ≤ limit →
  pullKind k userID c limit (healthy d)
  = (inr (mkPull (upserts_of (page userID c limit (table k d)))
                 (deletes_of (page userID c limit (table k d)))
                 ((λ r, EncodeCursor (cursor_of r))
                    <$> last (page userID c limit (table k d)))),
     healthy d).
Proof.
  intros Hl. unfold pullKind, QueryPage, bind, statement, read_view, ret, healthy.
  simpl. rewrite bool_decide_eq_false_2 by lia. simpl.
  rewrite fold_pull_step. simpl. do 3 f_equal.
  pose proof (length_upserts_deletes (page userID c limit (table k d))) as Hlen.
  rewrite Hlen.
  destruct (page userID c limit (table k d)) as [|x l] using rev_ind; [done|].
  rewrite last_snoc, length_app. simpl. by rewrite bool_decide_eq_true_2 by lia.
Qed.

(** X6. Pages chain without loss or repetition: on a healthy connection, a
    pull of [n] rows followed by a pull of [m] rows from the cursor it
    returned gives, upserts after upserts and deletes after deletes, exactly
    what a single pull of [n + m] rows gives; and the cursor the first pull
    returned is the encoding of the pair the second one starts from. *)
Theorem X6_pull_pages_chain k userID c (n m : Z) d x :
  0 ≤ n → 0 ≤ m →
  last (page userID c n (table k d)) = Some x →
  ∃ first second whole,
    (pullKind k userID c n (healthy d)).1 = inr first
    ∧ (pullKind k userID (cursor_of x) m (healthy d)).1 = inr second
    ∧ (pullKind k userID c (n + m) (healthy d)).1 = inr whole
    ∧ NextCursor first = Some (EncodeCursor (cursor_of x))
    ∧ Upserts whole = Upserts first ++ Upserts second
    ∧ Deletes whole = Deletes first ++ Deletes second.
Proof.
  intros Hn Hm Hlast.
  rewrite !pullKind_healthy_eq by lia. simpl.
  eexists _, _, _. repeat split.
  - by rewrite Hlast.
  - rewrite (page_chain _ _ _ _ _ x Hn Hm Hlast). apply omap_app.
  - rewrite (page_chain _ _ _ _ _ x Hn Hm Hlast). apply omap_app.
Qed.

(** X7. A pull that returns fewer rows than its limit has returned every
    row of the user that lies after the cursor: each live one is among the
    upserts with its stored payload and each tombstone among the deletes. *)
Theorem X7_short_page_is_complete k userID c limit d resp uid r :
  (pullKind k userID c limit (healthy d)).1 = inr resp →
  (Z.of_nat (length (Upserts resp) + length (Deletes resp)) < limit) →
  table k d !! (userID, uid) = Some r →
  after_cursor c (updated_at_ms r) uid →
  match deleted_at_ms r with
  | None => payload_json r ∈ Upserts resp
  | Some t => mkDelete (UUIDString uid) (RFC3339 t) ∈ Deletes resp
  end.
Proof.
  intros Hrun Hshort Hrow Hafter.
  assert (0 ≤ limit) as Hl by lia.
  rewrite pullKind_healthy_eq in Hrun by done. simpl in Hrun.
  injection Hrun as <-. simpl in *.
  rewrite length_upserts_deletes in Hshort.
  assert ((uid, r) ∈ page userID c limit (table k d)) as Hin.
  { unfold page in *. rewrite length_take in Hshort.
    rewrite take_ge by lia. by apply (elem_of_scan userID c (table k d) (uid, r)). }
  destruct (deleted_at_ms r) as [t|] eqn:Hdel.
  - apply list_elem_of_omap. exists (uid, r). split; [done|]. simpl. by rewrite Hdel.
  - apply list_elem_of_omap. exists (uid, r). split; [done|]. simpl. by rewrite Hdel.
Qed.

End PullMore.

(** X2 at note 7 of [u1] (written at 500, version 1) and an edit of it
    written at 900: the row is still there and has moved forward. *)
Lemma X2_witness :
  ∃ new,
    table Note (view (PushItem Note "u1" (Demo.mkItem 7 900 None 1 "" 0 "edited")
                        (healthy Demo.db_note_comment)).2) !! ("u1", 7%N) = Some new
    ∧ updated_at_ms (Demo.row_of Demo.note7 1 NoParent) ≤ updated_at_ms new
    ∧ (updated_at_ms (Demo.row_of Demo.note7 1 NoParent) < updated_at_ms new →
       version new = version (Demo.row_of Demo.note7 1 NoParent) + 1)
    ∧ (updated_at_ms (Demo.row_of Demo.note7 1 NoParent) = updated_at_ms new →
       new = Demo.row_of Demo.note7 1 NoParent).
Proof.
  apply (X2_push_monotone Note "u1" (Demo.mkItem 7 900 None 1 "" 0 "edited")
           (healthy Demo.db_note_comment) Note ("u1", 7%N)).
  vm_compute. reflexivity.
Defined.

(** X4 at two writes of note 5, at 1000 and at 2000, into an empty
    database: in either order the row ends as the write at 2000. *)
Lemma X4_witness :
  ∃ v12 v21,
    table Note
      (view (PushItem Note "u1" (Demo.note5 2000 "b")
               (PushItem Note "u1" (Demo.note5 1000 "a") (healthy empty_db)).2).2)
      !! ("u1", 5%N)
    = Some (mkRow 2000 None v12 (Demo.note5 2000 "b") NoParent)
    ∧ table Note
        (view (PushItem Note "u1" (Demo.note5 1000 "a")
                 (PushItem Note "u1" (Demo.note5 2000 "b") (healthy empty_db)).2).2)
        !! ("u1", 5%N)
      = Some (mkRow 2000 None v21 (Demo.note5 2000 "b") NoParent).
Proof.
  apply (X4_lww_order_independent Note "u1" (Demo.note5 1000 "a") (Demo.note5 2000 "b")
           (Demo.header (Demo.note5 1000 "a")) NoParent
           (Demo.header (Demo.note5 2000 "b")) NoParent empty_db).
  - reflexivity.
  - reflexivity.
  - reflexivity.
  - simpl. lia.
  - vm_compute. reflexivity.
  - vm_compute. reflexivity.
  - intros old Hold. vm_compute in Hold. discriminate Hold.
Defined.

(** X6 at the four notes of [u1]: two pages of two are one page of four. *)
Lemma X6_witness :
  ∃ first second whole,
    (pullKind Note "u1" (mkCursor 0 uuid_Nil) 2 (healthy Demo.four_notes)).1 = inr first
    ∧ (pullKind Note "u1" (mkCursor 2 12) 2 (healthy Demo.four_notes)).1 = inr second
    ∧ (pullKind Note "u1" (mkCursor 0 uuid_Nil) (2 + 2) (healthy Demo.four_notes)).1
      = inr whole
    ∧ NextCursor first = Some (EncodeCursor (mkCursor 2 12))
    ∧ Upserts whole = Upserts first ++ Upserts second
    ∧ Deletes whole = Deletes first ++ Deletes second.
Proof.
  apply (X6_pull_pages_chain Note "u1" (mkCursor 0 uuid_Nil) 2 2 Demo.four_notes
           (12%N, Demo.row_of (Demo.mkItem 12 2 None 1 "" 0 "b") 1 NoParent)).
  - lia.
  - lia.
  - vm_compute. reflexivity.
Defined.

(** X7 at the four notes of [u1] and a limit of ten: the page is short, so
    note 13 is in it. *)
Lemma X7_witness :
  ∃ resp,
    (pullKind Note "u1" (mkCursor 0 uuid_Nil) 10 (healthy Demo.four_notes)).1 = inr resp
    ∧ Demo.mkItem 13 3 None 1 "" 0 "c" ∈ Upserts resp.
Proof.
  eexists. split; [vm_compute; reflexivity|].
  apply (X7_short_page_is_complete Note "u1" (mkCursor 0 uuid_Nil) 10 Demo.four_notes
           _ 13%N (Demo.row_of (Demo.mkItem 13 3 None 1 "" 0 "c") 1 NoParent)).
  - vm_compute. reflexivity.
  - vm_compute. reflexivity.
  - vm_compute. reflexivity.
  - vm_compute. intuition discriminate.
Defined.

(** ** The session registry as its readers see it *)

(** A session that was just created is served until it expires. *)
Lemma CreateSession_served now t newID userID epoch st :
  0 ≤ ttl st → t ≤ now + ttl st →
  GetSession t newID (CreateSession now newID userID epoch st).2
  = Some (mkSession newID userID now (now + ttl st) epoch).
Proof.
  intros Httl Ht. unfold CreateSession, GetSession, cleanupExpiredLocked.
  cbn [fst snd sessions].
  set (session := mkSession newID userID now (now + ttl st) epoch).
  assert (filter (λ kv : string * Session, ¬ ExpiresAt kv.2 < now)
                 (<[newID := session]> (sessions st)) !! newID = Some session) as ->.
  { apply map_lookup_filter_Some. split; [apply lookup_insert_eq|]. simpl. lia. }
  simpl. by rewrite bool_decide_eq_false_2 by lia.
Qed.

(** The sessions [CreateSession] clears away were already unknown. *)
Lemma CreateSession_others now t newID userID epoch st id :
  id ≠ newID → now ≤ t →
  GetSession t id (CreateSession now newID userID epoch st).2 = GetSession t id st.
Proof.
  intros Hid Ht. unfold CreateSession, GetSession, cleanupExpiredLocked.
  cbn [fst snd sessions].
  destruct (sessions st !! id) as [s|] eqn:E.
  - destruct (decide (ExpiresAt s < now)) as [Hexp|Hlive].
    + rewrite (bool_decide_eq_true_2 (ExpiresAt s < t)) by lia.
      assert (filter (λ kv : string * Session, ¬ ExpiresAt kv.2 < now)
                     (<[newID := mkSession newID userID now (now + ttl st) epoch]>
                        (sessions st)) !! id = None) as ->; [|done].
      apply map_lookup_filter_None. right. intros x.
      rewrite lookup_insert_ne by done. rewrite E. intros [= <-]. simpl. lia.
    + assert (filter (λ kv : string * Session, ¬ ExpiresAt kv.2 < now)
                     (<[newID := mkSession newID userID now (now + ttl st) epoch]>
                        (sessions st)) !! id = Some s) as ->; [|done].
      apply map_lookup_filter_Some. by rewrite lookup_insert_ne by done.
  - assert (filter (λ kv : string * Session, ¬ ExpiresAt kv.2 < now)
                   (<[newID := mkSession newID userID now (now + ttl st) epoch]>
                      (sessions st)) !! id = None) as ->; [|done].
    apply map_lookup_filter_None. left. by rewrite lookup_insert_ne by done.
Qed.


(** X9. Creating a session is invisible to the readers of every other
    session: the expired sessions it clears away were already unknown, and
    the others are served as before, at every later instant; and the session
    count never grows by more than one. *)
Theorem X9_create_keeps_other_sessions now t newID userID epoch st id :
  id ≠ newID → now ≤ t →
  GetSession t id (CreateSession now newID userID epoch st).2 = GetSession t id st
  ∧ (size (sessions (CreateSession now newID userID epoch st).2)
     ≤ S (size (sessions st)))%nat.
Proof.
  intros Hid Ht. split; [by apply CreateSession_others|].
  unfold CreateSession, cleanupExpiredLocked. cbn [fst snd sessions].
  etrans; [apply map_subseteq_size, map_filter_subseteq|].
  destruct (sessions st !! newID) as [old|] eqn:E.
  - rewrite map_size_insert_Some by done. lia.
  - by rewrite map_size_insert_None by done.
Qed.

(** X10. [DeleteUserSessions] removes the sessions of the user and only
    those: the number it returns and the number of sessions left add up to
    the number there was, and a reader finds what was found before unless it
    belonged to the user. *)
Theorem X10_delete_user_sessions userID st :
  let r := DeleteUserSessions userID st in
  (r.1 + size (sessions r.2) = size (sessions st))%nat
  ∧ ∀ t id, GetSession t id r.2
            = match GetSession t id st with
              | Some s => if bool_decide (UserID s = userID) then None else Some s
              | None => None
              end.
Proof.
  cbv zeta. unfold DeleteUserSessions. cbn [fst snd sessions]. split.
  - rewrite <- map_size_disj_union by apply map_disjoint_filter_complement.
    by rewrite map_filter_union_complement.
  - intros t id. unfold GetSession. cbn [sessions].
    destruct (sessions st !! id) as [s|] eqn:E.
    + destruct (decide (UserID s = userID)) as [Hu|Hu].
      * assert (filter (λ kv : string * Session, UserID kv.2 ≠ userID) (sessions st)
                  !! id = None) as ->.
        { apply map_lookup_filter_None. right. intros x. rewrite E.
          intros [= <-]. simpl. by intros []. }
        case_bool_decide; [done|]. by rewrite bool_decide_eq_true_2.
      * assert (filter (λ kv : string * Session, UserID kv.2 ≠ userID) (sessions st)
                  !! id = Some s) as -> by (by apply map_lookup_filter_Some).
        case_bool_decide; [done|]. by rewrite bool_decide_eq_false_2.
    + assert (filter (λ kv : string * Session, UserID kv.2 ≠ userID) (sessions st)
                !! id = None) as ->; [|done].
      apply map_lookup_filter_None. by left.
Qed.


(** X9 at the same registry: creating [s3] at 100 leaves [s2] as it was
    for a reader at 200. *)
Lemma X9_witness :
  GetSession 200 "s2" (CreateSession 100 "s3" "u1" 5 Demo.registry_u1).2
  = GetSession 200 "s2" Demo.registry_u1.
Proof.
  apply (X9_create_keeps_other_sessions 100 200 "s3" "u1" 5 Demo.registry_u1 "s2").
  - discriminate.
  - lia.
Defined.

(** ** Session handlers *)

Section SessionHandlerFacts.
Context {Item : Type}.
Implicit Types (d : DB Item) (s : TxState Item) (srv : Server Item).





(** What [BeginSession] answers on a healthy connection. *)
Lemma BeginSession_healthy now newID userID d reg :
  userID ≠ "" →
  ∃ d', BeginSession now newID userID (mkServer (healthy d) reg)
        = (inr (mkSyncSession newID userID now (now + ttl reg)
                              (int32 (stored_epoch d userID))),
           mkServer (healthy d')
                    (CreateSession now newID userID (stored_epoch d userID) reg).2).
Proof.
  intros Hu. unfold BeginSession, stored_epoch.
  rewrite !bool_decide_eq_false_2 by done.
  unfold QueryInitEpoch, QueryEpoch, bind, statement, read_view, write_view, ret,
    healthy.
  cbn [view faults fst snd pg registry].
  destruct (owner_state d !! userID) as [o|] eqn:E.
  - cbn [view faults fst snd pg registry]. rewrite E. by eexists.
  - by eexists.
Qed.

(** What [EndSession] answers to the owner of a session that is served. *)
Lemma EndSession_own now userID sessionID srv sess :
  userID ≠ "" → sessionID ≠ "" →
  GetSession now sessionID (registry srv) = Some sess → UserID sess = userID →
  EndSession now userID sessionID srv
  = (inr tt, mkServer (pg srv)
                      (mkStore (delete sessionID (sessions (registry srv)))
                               (ttl (registry srv)))).
Proof.
  intros Hu Hs Hget Hown. unfold EndSession.
  rewrite !bool_decide_eq_false_2 by done. rewrite Hget.
  rewrite bool_decide_eq_false_2 by (by intros []).
  unfold DeleteSession, GetSession in *.
  destruct (sessions (registry srv) !! sessionID); [done|done].
Qed.

(** X12. On a healthy connection [BeginSession] succeeds for every
    authenticated user, and the epoch in the session it returns is the one
    [GetSyncState] reports, before the call and after it. *)
Theorem X12_session_epoch_is_sync_state_epoch now newID userID d reg :
  userID ≠ "" →
  ∃ sess srv' st,
    BeginSession now newID userID (mkServer (healthy d) reg) = (inr sess, srv')
    ∧ (GetSyncState userID (mkServer (healthy d) reg)).1 = inr st
    ∧ (GetSyncState userID srv').1 = inr st
    ∧ ss_Epoch sess = s_Epoch st
    ∧ ss_Id sess = newID.
Proof.
  intros Hu. unfold BeginSession, GetSyncState.
  rewrite !bool_decide_eq_false_2 by done.
  unfold QueryInitEpoch, QueryEpoch, bind, statement, read_view, write_view, ret,
    healthy.
  cbn [view faults fst snd pg registry].
  destruct (owner_state d !! userID) as [o|] eqn:E.
  - cbn [view faults fst snd pg registry]. rewrite E.
    cbn [view faults fst snd pg registry].
    unfold CreateSession. eexists _, _, _.
    split; [reflexivity|]. split; [reflexivity|].
    cbn [view faults fst snd pg registry]. rewrite E. by repeat split.
  - cbn [view faults fst snd pg registry].
    unfold CreateSession. eexists _, _, _.
    split; [reflexivity|]. split; [reflexivity|].
    cbn [view faults fst snd pg registry owner_state set_owner_state].
    rewrite lookup_insert_eq. by repeat split.
Qed.

(** X13. Only its owner ends a session. [EndSession] succeeds exactly when
    the caller is authenticated, names a session, and the registry serves
    that session as the caller's; it then forgets that session. In every
    other case the server is left as it was, so a session named by another
    user survives; no call touches the database or another session. *)
Theorem X13_end_session_owner_only now userID sessionID srv :
  let r := EndSession now userID sessionID srv in
  pg r.2 = pg srv
  ∧ (∀ id, id ≠ sessionID →
           sessions (registry r.2) !! id = sessions (registry srv) !! id)
  ∧ (∀ st, r.1 = inl st → r.2 = srv)
  ∧ (r.1 = inr tt ↔
       userID ≠ "" ∧ sessionID ≠ ""
       ∧ ∃ sess, GetSession now sessionID (registry srv) = Some sess
               ∧ UserID sess = userID)
  ∧ (r.1 = inr tt → sessions (registry r.2) !! sessionID = None).
Proof.
  cbv zeta. unfold EndSession.
  case_bool_decide as Hu.
  { repeat split; try done. by intros (? & _). }
  case_bool_decide as Hs.
  { repeat split; try done. by intros (_ & ? & _). }
  destruct (GetSession now sessionID (registry srv)) as [sess|] eqn:Hget.
  2:{ repeat split; try done. by intros (_ & _ & ? & ? & _). }
  case_bool_decide as Hown.
  { repeat split; try done. intros (_ & _ & sess' & [= <-] & ?). by destruct Hown. }
  assert (UserID sess = userID) as Hmine by (by destruct (decide (UserID sess = userID))).
  unfold DeleteSession.
  assert (sessions (registry srv) !! sessionID = Some sess) as Hl.
  { unfold GetSession in Hget. destruct (sessions (registry srv) !! sessionID); [|done].
    by case_bool_decide; simplify_eq. }
  rewrite Hl. simpl. repeat split; try done.
  - intros id Hid. by rewrite lookup_delete_ne.
  - by exists sess.
  - intros _. apply lookup_delete_eq.
Qed.

(** X14. A session that is begun and then ended by its user before it
    expires leaves the registry, for every reader from then on, as it was
    before the session began. *)
Theorem X14_begin_then_end now now' t newID userID d reg :
  userID ≠ "" → newID ≠ "" →
  0 ≤ ttl reg → sessions reg !! newID = None →
  now ≤ now' ≤ now + ttl reg → now ≤ t →
  let begun := BeginSession now newID userID (mkServer (healthy d) reg) in
  let ended := EndSession now' userID newID begun.2 in
  ended.1 = inr tt
  ∧ ∀ id, GetSession t id (registry ended.2) = GetSession t id reg.
Proof.
  intros Hu Hid Httl Hfresh Hnow' Ht. cbv zeta.
  destruct (BeginSession_healthy now newID userID d reg Hu) as [d' ->].
  cbn [fst snd].
  set (epoch := stored_epoch d userID).
  pose proof (CreateSession_served now now' newID userID epoch reg Httl (proj2 Hnow'))
    as Hserved.
  rewrite (EndSession_own now' userID newID
             (mkServer (healthy d') (CreateSession now newID userID epoch reg).2)
             _ Hu Hid Hserved eq_refl).
  split; [done|]. intros id. cbn [snd registry].
  destruct (decide (id = newID)) as [->|Hne].
  - unfold GetSession. cbn [sessions]. by rewrite lookup_delete_eq, Hfresh.
  - rewrite <- (CreateSession_others now t newID userID epoch reg id Hne Ht).
    unfold GetSession. cbn [sessions]. by rewrite lookup_delete_ne.
Qed.

End SessionHandlerFacts.

(** X12 at user [u1] of the examples, who has no [owner_state] row in
    [db_u1]: the session and the sync state agree on the epoch. *)
Lemma X12_witness :
  ∃ sess srv' st,
    BeginSession 100 "s3" "u1" (mkServer (healthy Demo.db_u1) Demo.registry_u1)
    = (inr sess, srv')
    ∧ (GetSyncState "u1" (mkServer (healthy Demo.db_u1) Demo.registry_u1)).1 = inr st
    ∧ (GetSyncState "u1" srv').1 = inr st
    ∧ ss_Epoch sess = s_Epoch st
    ∧ ss_Id sess = "s3".
Proof.
  apply (X12_session_epoch_is_sync_state_epoch 100 "s3" "u1" Demo.db_u1
           Demo.registry_u1).
  discriminate.
Defined.

(** X14 at the same server: [u1] begins session [s3] at 100 and ends it at
    200. *)
Lemma X14_witness :
  (EndSession 200 "u1" "s3"
     (BeginSession 100 "s3" "u1" (mkServer (healthy Demo.db_u1) Demo.registry_u1)).2).1
  = inr tt.
Proof.
  destruct (X14_begin_then_end 100 200 300 "s3" "u1" Demo.db_u1 Demo.registry_u1)
    as [Hend _].
  - discriminate.
  - discriminate.
  - simpl. lia.
  - vm_compute. reflexivity.
  - simpl. lia.
  - lia.
  - exact Hend.
Defined.

(** ** The wipe: isolation, counts, and the epoch seen afterwards *)

Section WipeMore.
Context {Item : Type}.
Implicit Types (d : DB Item) (s : TxState Item) (srv : Server Item).

Lemma others_kept_refl (userID : string) d : others_kept userID d d.
Proof. by split. Qed.

Lemma others_kept_trans (userID : string) d1 d2 d3 :
  others_kept userID d1 d2 → others_kept userID d2 d3 → others_kept userID d1 d3.
Proof.
  intros [Ht1 Ho1] [Ht2 Ho2]. split.
  - intros k o uid Ho. by rewrite Ht2, Ht1.
  - intros o Ho. by rewrite Ho2, Ho1.
Qed.

Lemma QueryBumpEpoch_others now (userID : string) s :
  others_kept userID (view s) (view (QueryBumpEpoch now userID s).2).
Proof.
  unfold QueryBumpEpoch, bind.
  pose proof (statement_view s) as Hs.
  destruct (statement s) as [[f|] s1]; simpl in *.
  { rewrite Hs. apply others_kept_refl. }
  rewrite <- Hs. split.
  - intros k o uid _. by destruct k.
  - intros o Ho. simpl. by rewrite lookup_insert_ne.
Qed.

Lemma QueryDeleteOwned_others k (userID : string) s :
  others_kept userID (view s) (view (QueryDeleteOwned k userID s).2).
Proof.
  unfold QueryDeleteOwned, bind.
  pose proof (statement_view s) as Hs.
  destruct (statement s) as [[f|] s1]; simpl in *.
  { rewrite Hs. apply others_kept_refl. }
  rewrite <- Hs. split.
  - intros k' o uid Ho.
    destruct (decide (k' = k)) as [->|Hk].
    + rewrite table_set_table_eq.
      destruct (table k (view s1) !! (o, uid)) as [r|] eqn:E.
      * by apply map_lookup_filter_Some.
      * apply map_lookup_filter_None. by left.
    + by rewrite table_set_table_ne.
  - intros o _. by rewrite owner_state_set_table.
Qed.

Lemma deleteTables_others tables (userID : string) : ∀ deleted s,
  others_kept userID (view s) (view (deleteTables tables userID deleted s).2).
Proof.
  induction tables as [|k rest IH]; intros deleted s; [apply others_kept_refl|].
  simpl. unfold bind.
  pose proof (QueryDeleteOwned_others k userID s) as H1.
  destruct (QueryDeleteOwned k userID s) as [[e|count] s1]; simpl in *; [done|].
  eapply others_kept_trans; [exact H1|apply IH].
Qed.

(** The rows after a transaction are those at its beginning or those its
    body left. *)
Lemma transaction_view {E A} (beginErr commitErr : string → E)
    (body : Tx Item (E + A)) s :
  view (transaction beginErr commitErr body s).2 = view s
  ∨ view (transaction beginErr commitErr body s).2 = view (body (statement s).2).2.
Proof.
  unfold transaction.
  pose proof (statement_view s) as Hs.
  destruct (statement s) as [[f|] s1]; simpl in *; [by left|].
  destruct (body s1) as [[e|a] s2]; simpl; [by left|].
  pose proof (statement_view s2) as Hs2.
  destruct (statement s2) as [[f|] s3]; simpl in *; [by left|by right].
Qed.

(** X15. A wipe touches nobody else, on any connection and whatever its
    outcome: the rows and the epoch of every other user and the sessions of
    every other user are after the call what they were before. *)
Theorem X15_wipe_isolated now userID confirm srv :
  let r := WipeAccount now userID confirm srv in
  others_kept userID (view (pg srv)) (view (pg r.2))
  ∧ ∀ id sess, UserID sess ≠ userID →
               sessions (registry srv) !! id = Some sess →
               sessions (registry r.2) !! id = Some sess.
Proof.
  cbv zeta. unfold WipeAccount.
  case_bool_decide; [split; [apply others_kept_refl|done]|].
  case_bool_decide; [split; [apply others_kept_refl|done]|].
  match goal with
  | |- context [transaction ?b ?c ?body (pg srv)] =>
      pose proof (transaction_view b c body (pg srv)) as Hv;
      assert (others_kept userID (view (pg srv))
                (view (body (statement (pg srv)).2).2)) as Hbody;
      [|destruct (transaction b c body (pg srv)) as [[e|[newEpoch deleted]] pg']]
  end.
  { pose proof (statement_view (pg srv)) as Hs.
    destruct (statement (pg srv)) as [f s1]. cbn [snd] in Hs |- *. rewrite <- Hs.
    unfold bind at 1.
    pose proof (QueryBumpEpoch_others now userID s1) as H1.
    destruct (QueryBumpEpoch now userID s1) as [[e|newEpoch] s2];
      cbn [snd] in H1 |- *; [done|].
    unfold bind.
    pose proof (deleteTables_others wipe_tables userID ∅ s2) as H2.
    destruct (deleteTables wipe_tables userID ∅ s2) as [[st|deleted] s3];
      cbn [snd] in H2 |- *; by eapply others_kept_trans. }
  - cbn [fst snd pg registry] in *. split; [|done].
    destruct Hv as [->| ->]; [apply others_kept_refl|done].
  - pose proof (DeleteUserSessions_others userID (registry srv)) as Hkept.
    destruct (DeleteUserSessions userID (registry srv)) as [n reg'].
    cbn [fst snd pg registry] in *. split.
    + destruct Hv as [->| ->]; [apply others_kept_refl|done].
    + intros id sess Hne Hl. by apply Hkept.
Qed.

End WipeMore.

Section WipeCounts.
Context {Item : Type}.
Implicit Types (d : DB Item) (srv : Server Item).

Lemma table_name_inj k k' : table_name k = table_name k' → k = k'.
Proof. by destruct k, k'. Qed.

(** What the delete loop reports: one count per table it was given, the
    number of rows of the user in that table, and nothing else. *)
Lemma deleteTables_counts tables (userID : string) : ∀ (deleted : gmap string Z) d,
  NoDup tables →
  ∃ deleted' d',
    deleteTables tables userID deleted (healthy d) = (inr deleted', healthy d')
    ∧ (∀ k, k ∈ tables →
            deleted' !! table_name k
            = Some (int32 (Z.of_nat (size (owned userID (table k d))))))
    ∧ (∀ name, (∀ k, k ∈ tables → table_name k ≠ name) →
               deleted' !! name = deleted !! name).
Proof.
  induction tables as [|k rest IH]; intros deleted d Hnd.
  - exists deleted, d. split; [done|]. split; [|done].
    intros k Hk. by apply elem_of_nil in Hk.
  - apply NoDup_cons in Hnd as [Hk Hnd].
    set (d1 := set_table k
                 (filter (λ kr : (string * UUID) * Row Item, kr.1.1 ≠ userID) (table k d)) d).
    set (deleted1 :=
           <[table_name k := int32 (Z.of_nat (size (owned userID (table k d))))]> deleted).
    destruct (IH deleted1 d1 Hnd) as (deleted' & d' & Hrun & Hin & Hout).
    exists deleted', d'. split; [exact Hrun|]. split.
    + intros k' Hk'. apply elem_of_cons in Hk' as [->|Hk'].
      * rewrite Hout; [unfold deleted1; by rewrite lookup_insert_eq|].
        intros k'' Hk'' Heq. apply table_name_inj in Heq. by subst.
      * rewrite (Hin k' Hk'). unfold d1. rewrite table_set_table_ne; [done|].
        by intros ->.
    + intros name Hname. rewrite Hout.
      * unfold deleted1. rewrite lookup_insert_ne; [done|].
        apply Hname, list_elem_of_here.
      * intros k' Hk'. by apply Hname, list_elem_of_further.
Qed.

(** A confirmed wipe on a healthy connection, in full. *)
Lemma WipeAccount_healthy_full now (userID : string) d reg :
  userID ≠ "" →
  ∃ deleted d',
    WipeAccount now userID "WIPE" (mkServer (healthy d) reg)
    = (inr (mkWipeResult (int32 (stored_epoch d userID + 1)) deleted),
       mkServer (healthy d') (DeleteUserSessions userID reg).2)
    ∧ owner_state d'
      = <[userID := mkOwnerState (stored_epoch d userID + 1) (Some now) (Some userID)]>
          (owner_state d)
    ∧ (∀ k, table k d'
            = if bool_decide (k ∈ wipe_tables)
              then filter (λ kr : (string * UUID) * Row Item, kr.1.1 ≠ userID) (table k d)
              else table k d)
    ∧ (∀ k, k ∈ wipe_tables →
            deleted !! table_name k
            = Some (int32 (Z.of_nat (size (owned userID (table k d))))))
    ∧ (∀ name, (∀ k, k ∈ wipe_tables → table_name k ≠ name) → deleted !! name = None).
Proof.
  intros Hu.
  set (d1 := set_owner_state
               (<[userID := mkOwnerState (stored_epoch d userID + 1) (Some now)
                                         (Some userID)]> (owner_state d)) d).
  assert (NoDup wipe_tables) as Hnd.
  { apply NoDup_ListNoDup. unfold wipe_tables.
    repeat constructor; simpl; intuition discriminate. }
  destruct (deleteTables_healthy wipe_tables userID ∅ d1 Hnd)
    as (deleted & d' & Hrun & Hos & Htab).
  destruct (deleteTables_counts wipe_tables userID ∅ d1 Hnd)
    as (deleted2 & d2 & Hrun2 & Hin & Hout).
  rewrite Hrun in Hrun2. injection Hrun2 as <- _.
  exists deleted, d'. split; [|split; [|split; [|split]]].
  - unfold WipeAccount.
    rewrite bool_decide_eq_false_2 by done.
    rewrite bool_decide_eq_false_2 by (by intros []).
    cbn [pg registry].
    match goal with
    | |- context [transaction ?b ?c ?body (healthy d)] =>
        assert (body (healthy d)
                = (inr (stored_epoch d userID + 1, deleted), healthy d')) as Hbody;
        [|by rewrite (transaction_healthy b c body d _ d' Hbody)]
    end.
    unfold bind at 1. rewrite QueryBumpEpoch_healthy. fold d1.
    unfold bind. by rewrite Hrun.
  - by rewrite Hos.
  - intros k. rewrite Htab. unfold d1. by destruct k.
  - intros k Hk. rewrite (Hin k Hk). unfold d1. by destruct k.
  - intros name Hname. by rewrite (Hout name Hname).
Qed.

(** X16. After a wipe, the epoch the wipe returned is the epoch the server
    hands out: [GetSyncState] reports it together with the instant and the
    author of the wipe, and the next session of the user carries it. *)
Theorem X16_wipe_then_epoch now now' newID userID d reg :
  userID ≠ "" →
  ∃ w srv' sess srv'',
    WipeAccount now userID "WIPE" (mkServer (healthy d) reg) = (inr w, srv')
    ∧ (GetSyncState userID srv').1 = inr (mkSyncState (w_Epoch w) (Some now) userID)
    ∧ BeginSession now' newID userID srv' = (inr sess, srv'')
    ∧ ss_Epoch sess = w_Epoch w.
Proof.
  intros Hu.
  destruct (WipeAccount_healthy_full now userID d reg Hu)
    as (deleted & d' & Hrun & Hos & _).
  destruct (BeginSession_healthy now' newID userID d'
              (DeleteUserSessions userID reg).2 Hu) as [d'' Hbegin].
  assert (stored_epoch d' userID = stored_epoch d userID + 1) as Hep.
  { unfold stored_epoch at 1. by rewrite Hos, lookup_insert_eq. }
  eexists _, _, _, _. split; [exact Hrun|]. split; [|split; [exact Hbegin|]].
  - unfold GetSyncState. rewrite bool_decide_eq_false_2 by done.
    cbn [pg registry statement healthy faults view fst snd].
    by rewrite Hos, lookup_insert_eq.
  - simpl. by rewrite Hep.
Qed.

(** X17. The counts a wipe reports are the rows that disappeared: for each
    of the tables the wipe names, the count under the table's name is the
    number of rows the user had there, and the table has shrunk by exactly
    that many rows; the tables it does not name are not reported and are
    unchanged. *)
Theorem X17_wipe_reports_counts now userID d reg :
  userID ≠ "" →
  ∃ w srv',
    WipeAccount now userID "WIPE" (mkServer (healthy d) reg) = (inr w, srv')
    ∧ (∀ k, k ∈ wipe_tables →
         w_Deleted w !! table_name k
         = Some (int32 (Z.of_nat (size (owned userID (table k d)))))
         ∧ (size (table k (view (pg srv'))) + size (owned userID (table k d))
            = size (table k d))%nat)
    ∧ (∀ k, k ∉ wipe_tables →
         w_Deleted w !! table_name k = None
         ∧ table k (view (pg srv')) = table k d).
Proof.
  intros Hu.
  destruct (WipeAccount_healthy_full now userID d reg Hu)
    as (deleted & d' & Hrun & _ & Htab & Hin & Hout).
  eexists _, _. split; [exact Hrun|]. cbn [w_Deleted pg view]. split.
  - intros k Hk. split; [by apply Hin|].
    rewrite Htab, bool_decide_eq_true_2 by done. unfold owned.
    rewrite Nat.add_comm.
    rewrite <- map_size_disj_union by apply map_disjoint_filter_complement.
    by rewrite map_filter_union_complement.
  - intros k Hk. split.
    + apply Hout. intros k' Hk' Heq. apply table_name_inj in Heq. by subst.
    + by rewrite Htab, bool_decide_eq_false_2.
Qed.

End WipeCounts.

(** X16 at the server of the examples ([u1] at epoch 5): the wipe answers
    epoch 6, and so do the sync state and the next session. *)
Lemma X16_witness :
  ∃ w srv' sess srv'',
    WipeAccount 99 "u1" "WIPE" Demo.server_u1 = (inr w, srv')
    ∧ (GetSyncState "u1" srv').1 = inr (mkSyncState (w_Epoch w) (Some 99) "u1")
    ∧ BeginSession 100 "s3" "u1" srv' = (inr sess, srv'')
    ∧ ss_Epoch sess = w_Epoch w.
Proof.
  apply (X16_wipe_then_epoch 99 100 "s3" "u1"
           (set_owner_state {[ "u1" := mkOwnerState 5 None None ]} Demo.db_u1)
           Demo.registry_u1).
  discriminate.
Defined.

(** X17 at the same server: the one comment and the one note of [u1] are
    counted. *)
Lemma X17_witness :
  ∃ w srv',
    WipeAccount 99 "u1" "WIPE" Demo.server_u1 = (inr w, srv')
    ∧ w_Deleted w !! "comment" = Some 1
    ∧ w_Deleted w !! "note" = Some 1
    ∧ w_Deleted w !! "task_list" = None.
Proof.
  destruct (X17_wipe_reports_counts 99 "u1"
              (set_owner_state {[ "u1" := mkOwnerState 5 None None ]} Demo.db_u1)
              Demo.registry_u1) as (w & srv' & Hrun & Hin & Hout); [discriminate|].
  exists w, srv'. split; [exact Hrun|]. split; [|split].
  - destruct (Hin Comment) as [H _].
    + unfold wipe_tables. rewrite !elem_of_cons. auto.
    + etrans; [exact H|]. vm_compute. reflexivity.
  - destruct (Hin Note) as [H _].
    + unfold wipe_tables. rewrite !elem_of_cons. auto 6.
    + etrans; [exact H|]. vm_compute. reflexivity.
  - destruct (Hout TaskList) as [H _]; [|exact H].
    unfold wipe_tables. rewrite !elem_of_cons, elem_of_nil. intuition discriminate.
Defined.

(** ** REST reads of task list categories, and the limit of a pull *)

Section RestFacts.
Context {Item : Type} `{!Syncx Item}.
Implicit Types (d : DB Item) (t : gmap (string * UUID) (Row Item))
  (rows : list (UUID * Row Item)).

Lemma filter_all {A} (P : A → Prop) `{!∀ x, Decision (P x)} (l : list A) :
  (∀ x, P x) → filter P l = l.
Proof.
  intros HP. induction l as [|x l IH]; [done|].
  rewrite filter_cons. destruct (decide (P x)) as [|Hn]; [by rewrite IH|].
  by destruct Hn.
Qed.

(** With tombstones included the list query is the pull query. *)
Lemma listed_all (owner : string) (c : Cursor) (limit : Z) t :
  listed owner c limit true t = page owner c limit t.
Proof. unfold listed, page. rewrite filter_all; [done|]. intros x. by left. Qed.

Lemma elem_of_listed (owner : string) (c : Cursor) (limit : Z) (includeDeleted : bool)
    t (x : UUID * Row Item) :
  x ∈ listed owner c limit includeDeleted t →
  t !! (owner, x.1) = Some x.2
  ∧ after_cursor c (updated_at_ms x.2) x.1
  ∧ (includeDeleted = false → deleted_at_ms x.2 = None).
Proof.
  unfold listed. intros Hin. apply subseteq_take in Hin.
  rewrite merge_sort_Permutation in Hin.
  apply list_elem_of_filter in Hin as [HP Hin]. destruct x as [uid r].
  apply elem_of_selected in Hin as [Hl Ha].
  split; [done|]. split; [done|]. intros ->. by destruct HP.
Qed.

(** What the loop of the list query has collected after a run of rows. *)
Lemma fold_list_step rows (a : list (RESTItem Item) * Z * UUID) :
  fold_left (λ (a : list (RESTItem Item) * Z * UUID) (r : UUID * Row Item),
               (a.1.1 ++ [rest_item r], updated_at_ms r.2, r.1)) rows a
  = (a.1.1 ++ (rest_item <$> rows),
     from_option (λ r : UUID * Row Item, updated_at_ms r.2) a.1.2 (last rows),
     from_option fst a.2 (last rows)).
Proof.
  revert a. induction rows as [|x rows IH]; intros [[items ms] uid]; simpl.
  - by rewrite app_nil_r.
  - rewrite IH. simpl. rewrite <- app_assoc. simpl.
    rewrite last_cons. by destruct (last rows).
Qed.

(** What the list answers on a healthy connection. *)
Lemma ListTaskListCategories_healthy (userID : string) (c : Cursor) (limit : Z)
    (includeDeleted : bool) d :
  0 ≤ limit →
  ListTaskListCategories userID c limit includeDeleted (healthy d)
  = (inr (mkRESTList
            (rest_item <$> listed userID c limit includeDeleted (table TaskListCategory d))
            ((λ r, EncodeCursor (cursor_of r))
               <$> last (listed userID c limit includeDeleted (table TaskListCategory d)))),
     healthy d).
Proof.
  intros Hl. unfold ListTaskListCategories, bind, statement, read_view, ret, healthy.
  simpl. rewrite bool_decide_eq_false_2 by lia. simpl.
  rewrite fold_list_step. simpl. do 3 f_equal.
  destruct (listed userID c limit includeDeleted (task_list_category d))
    as [|x l _] using rev_ind; [done|].
  rewrite fmap_app, last_snoc, length_app. simpl.
  by rewrite bool_decide_eq_true_2 by lia.
Qed.

(** X18. What a push acks is what a read shows: after the push of a task
    list category that parses and serialises, [GetTaskListCategory] finds
    the row, and its uid, version and timestamp are those of the ack,
    whether the push won or lost against the stored row; when it won (the
    row was absent or older), the payload read is the item pushed and the
    deletion mark is the item's. *)
Theorem X18_get_after_push (userID : string) (item : Item) ext d :
  ExtractCommon item = inr ext → Marshalable item = true →
  let run := PushItem TaskListCategory userID item (healthy d) in
  ∃ it, GetTaskListCategory userID (UID ext) run.2 = (inr (Some it), run.2)
      ∧ AckError run.1 = ""
      ∧ r_UID it = AckUID run.1
      ∧ r_Version it = AckVersion run.1
      ∧ r_UpdatedAt it = AckUpdatedAt run.1
      ∧ ((∀ old, table TaskListCategory d !! (userID, UID ext) = Some old →
                 updated_at_ms old < UpdatedAtMs ext) →
         r_Payload it = item ∧ r_DeletedAt it = RFC3339 <$> DeletedAtMs ext).
Proof.
  intros Hext Hm. cbv zeta.
  assert (PushItem TaskListCategory userID item (healthy d)
          = upsertAndAck TaskListCategory userID item ext NoParent (healthy d)) as ->.
  { simpl. unfold PushTaskListCategoryItem, pushPlainItem. by rewrite Hext. }
  destruct (upsertAndAck_healthy TaskListCategory userID item ext NoParent d Hm)
    as (r & Hr & ->).
  cbn [fst snd].
  exists (rest_item (UID ext, r)). split.
  { unfold GetTaskListCategory, bind, statement, read_view, ret, healthy.
    cbn [faults view fst snd]. by rewrite Hr. }
  split; [done|]. split; [done|]. split; [done|]. split; [done|].
  intros Hwon. unfold upserted in Hr.
  rewrite table_set_table_eq, upsert_row_lookup in Hr.
  destruct (table TaskListCategory d !! (userID, UID ext)) as [old|] eqn:E.
  - rewrite (bool_decide_eq_true_2 _ (Hwon old eq_refl)) in Hr. by simplify_eq.
  - by simplify_eq.
Qed.

(** X19. The category list on a healthy connection: it holds at most
    [limit] items; each is a row of the user that lies after the cursor,
    shown with its stored version and timestamp; without [includeDeleted] no
    item carries a deletion mark; with it, the list pages exactly as the
    pull does: it holds as many items as the pull has upserts and deletes,
    and hands out the same cursor. *)
Theorem X19_list_categories (userID : string) (c : Cursor) (limit : Z)
    (includeDeleted : bool) d :
  0 ≤ limit →
  ∃ resp,
    ListTaskListCategories userID c limit includeDeleted (healthy d)
    = (inr resp, healthy d)
    ∧ Z.of_nat (length (l_Items resp)) ≤ limit
    ∧ (∀ it, it ∈ l_Items resp →
         ∃ uid r, table TaskListCategory d !! (userID, uid) = Some r
                  ∧ after_cursor c (updated_at_ms r) uid
                  ∧ it = rest_item (uid, r)
                  ∧ (includeDeleted = false → r_DeletedAt it = None))
    ∧ (includeDeleted = true →
       ∃ p, (pullKind TaskListCategory userID c limit (healthy d)).1 = inr p
            ∧ l_NextCursor resp = NextCursor p
            ∧ length (l_Items resp)
              = (length (Upserts p) + length (Deletes p))%nat).
Proof.
  intros Hl. rewrite ListTaskListCategories_healthy by done.
  eexists. split; [done|]. cbn [l_Items l_NextCursor]. split; [|split].
  - rewrite length_fmap. unfold listed. rewrite length_take. lia.
  - intros it Hin. apply list_elem_of_fmap in Hin as ([uid r] & -> & Hin).
    apply elem_of_listed in Hin as (Hrow & Hafter & Hlive).
    exists uid, r. split; [done|]. split; [done|]. split; [done|].
    intros Hno. simpl in *. by rewrite (Hlive Hno).
  - intros ->. rewrite pullKind_healthy_eq by done. eexists. split; [done|].
    cbn [NextCursor Upserts Deletes]. rewrite listed_all. split; [done|].
    by rewrite length_fmap, length_upserts_deletes.
Qed.

(** X20. The limit a gRPC pull hands to the service is always between 1
    and 1000, and is the requested one when that lies in this range; with it
    the pull of any kind succeeds on a healthy connection and returns at most
    1000 rows. *)
Theorem X20_pull_limit k (userID : string) (c : Cursor) (reqLimit : Z) d :
  1 ≤ pullLimit reqLimit ≤ 1000
  ∧ (1 ≤ reqLimit ≤ 1000 → pullLimit reqLimit = reqLimit)
  ∧ ∃ resp,
      pullKind k userID c (pullLimit reqLimit) (healthy d) = (inr resp, healthy d)
      ∧ (length (Upserts resp) + length (Deletes resp) ≤ 1000)%nat.
Proof.
  assert (1 ≤ pullLimit reqLimit ≤ 1000) as Hrange.
  { unfold pullLimit. repeat case_bool_decide; lia. }
  split; [done|]. split.
  - intros Hin. unfold pullLimit. repeat case_bool_decide; lia.
  - rewrite pullKind_healthy_eq by lia. eexists. split; [done|].
    cbn [Upserts Deletes]. rewrite length_upserts_deletes.
    pose proof (length_page userID c (pullLimit reqLimit) (table k d)). lia.
Qed.

End RestFacts.

(** X18 at the database of the examples, where category 4 of [u1] is
    stored with timestamp 800 and version 3: an edit at 950 is read back
    with version 4. *)
Lemma X18_witness :
  ∃ it,
    GetTaskListCategory "u1" 4%N
      (PushItem TaskListCategory "u1" (Demo.mkItem 4 950 None 3 "" 0 "cheese")
                (healthy Demo.db_u1)).2
    = (inr (Some it),
       (PushItem TaskListCategory "u1" (Demo.mkItem 4 950 None 3 "" 0 "cheese")
                 (healthy Demo.db_u1)).2)
    ∧ r_Version it = 4
    ∧ r_Payload it = Demo.mkItem 4 950 None 3 "" 0 "cheese".
Proof.
  destruct (X18_get_after_push "u1" (Demo.mkItem 4 950 None 3 "" 0 "cheese")
              (Demo.header (Demo.mkItem 4 950 None 3 "" 0 "cheese")) Demo.db_u1)
    as (it & Hget & _ & _ & Hv & _ & Hwon); [reflexivity|reflexivity|].
  exists it. split; [exact Hget|]. split.
  - etrans; [exact Hv|]. vm_compute. reflexivity.
  - apply Hwon. intros old Hold. vm_compute in Hold.
    injection Hold as <-. simpl. lia.
Defined.

(** X19 at the categories of the examples: without [includeDeleted] the
    list of [u1] holds no tombstone. *)
Lemma X19_witness :
  ∃ resp,
    ListTaskListCategories "u1" (mkCursor 0 uuid_Nil) 10 false
                           (healthy Demo2.db_categories)
    = (inr resp, healthy Demo2.db_categories)
    ∧ Z.of_nat (length (l_Items resp)) ≤ 10.
Proof.
  destruct (X19_list_categories "u1" (mkCursor 0 uuid_Nil) 10 false
              Demo2.db_categories) as (resp & Hrun & Hlen & _); [lia|].
  exists resp. split; [exact Hrun|exact Hlen].
Defined.

(** ** The client's session cache *)

Module ClientSessionFacts.
Import ClientSession.

(** What a cache that is not usable makes of an answer. *)
Lemma createSession_fresh now env sm tok status hdr body :
  usable now sm = None →
  token env = Some tok → requestOk env = true →
  answer env = inr (status, hdr, Some body) →
  status = 201 ∨ status = 200 →
  let session := mkSession (ID body) (UserID body)
                           (match hdr with Client.HInt e => e | _ => Epoch body end)
                           (CreatedAt body) (ExpiresAt body) in
  createSession now env sm
  = mkOutcome (inr session)
              (mkManager (Some session) (CreatedAt body + SessionCacheTTL)) 1.
Proof.
  intros Hu Htok Hreq Hans Hst. cbv zeta. unfold createSession.
  rewrite Hu, Htok, Hreq, Hans. simpl.
  by destruct Hst as [-> | ->].
Qed.

(** X22. What [EnsureSession] does to the cache, whatever the clock, the
    token provider and the server do: it sends at most one POST; a usable
    cached session is returned without any POST; an error leaves the cache as
    it was; and a session is returned only if it is the cached one
    afterwards. *)
Theorem X22_ensure_session_cache now1 now2 env sm :
  let o := EnsureSession now1 now2 env sm in
  (posts o ≤ 1)%nat
  ∧ (∀ s, usable now1 sm = Some s → o = mkOutcome (inr s) sm 0)
  ∧ (∀ e, result o = inl e → manager o = sm)
  ∧ (∀ s, result o = inr s → cachedSession (manager o) = Some s)
  ∧ (posts o = 0%nat → manager o = sm).
Proof.
  cbv zeta. unfold EnsureSession.
  destruct (usable now1 sm) as [s1|] eqn:H1.
  { simpl. repeat split; try done; try lia.
    - by intros s [= <-].
    - intros s [= <-]. unfold usable in H1.
      destruct (cachedSession sm); [|done]. by case_bool_decide; simplify_eq. }
  unfold createSession.
  destruct (usable now2 sm) as [s2|] eqn:H2.
  { simpl. repeat split; try done; try lia.
    intros s [= <-]. unfold usable in H2.
    destruct (cachedSession sm); [|done]. by case_bool_decide; simplify_eq. }
  destruct (token env) as [tok|]; [|by simpl; repeat split; try done; lia].
  destruct (requestOk env); simpl; [|by repeat split; try done; lia].
  destruct (answer env) as [e|[[status hdr] body]]; simpl;
    [by repeat split; try done; lia|].
  destruct (negb (Z.eqb status 201) && negb (Z.eqb status 200)); simpl;
    [by repeat split; try done; lia|].
  destruct body as [body|]; simpl; [|by repeat split; try done; lia].
  repeat split; try done; try lia. by intros s [= <-].
Qed.

(** X23. A session the manager has just created is handed out again,
    without a POST, for as long as the clock plus one minute is before the
    session's [CreatedAt] plus 23 hours, and not after; after
    [InvalidateSession] the next call always goes to the server when it has
    a token. *)
Theorem X23_created_session_is_reused now env sm s t t' env' :
  usable now sm = None →
  result (createSession now env sm) = inr s →
  let sm' := manager (createSession now env sm) in
  (t + SessionRefreshBuffer < CreatedAt s + SessionCacheTTL →
     EnsureSession t t' env' sm' = mkOutcome (inr s) sm' 0)
  ∧ (CreatedAt s + SessionCacheTTL ≤ t + SessionRefreshBuffer →
     usable t sm' = None)
  ∧ (is_Some (token env') → requestOk env' = true →
     posts (EnsureSession t t' env' (InvalidateSession sm')) = 1%nat).
Proof.
  intros Hu Hres. cbv zeta. revert Hres. unfold createSession. rewrite Hu.
  destruct (token env) as [tok|]; [|done].
  destruct (requestOk env); simpl; [|done].
  destruct (answer env) as [e|[[status hdr] body]]; simpl; [done|].
  destruct (negb (Z.eqb status 201) && negb (Z.eqb status 200)); simpl; [done|].
  destruct body as [body|]; simpl; [|done].
  intros [= <-]. simpl. split; [|split].
  - intros Ht. unfold EnsureSession, usable. simpl.
    by rewrite bool_decide_eq_true_2.
  - intros Ht. unfold usable. simpl. by rewrite bool_decide_eq_false_2 by lia.
  - intros [tok' Htok] Hreq. unfold EnsureSession, createSession, usable. simpl.
    rewrite Htok, Hreq. simpl.
    destruct (answer env') as [e|[[status' hdr'] body']]; simpl; [done|].
    destruct (negb (Z.eqb status' 201) && negb (Z.eqb status' 200)); simpl; [done|].
    by destruct body'.
Qed.

End ClientSessionFacts.

(** X23 with the answer of the examples: the session created at instant 0
    is reused one hour later. *)
Lemma X23_witness :
  ClientSession.EnsureSession (3600 * Client.Second) (3600 * Client.Second)
    Demo2.create_down
    (ClientSession.manager
       (ClientSession.createSession 0 Demo2.create_ok
          (ClientSession.mkManager None ClientSession.zeroTime)))
  = ClientSession.mkOutcome
      (inr (ClientSession.mkSession "s1" "u1" 6 0 (30 * 60 * Client.Second)))
      (ClientSession.manager
         (ClientSession.createSession 0 Demo2.create_ok
            (ClientSession.mkManager None ClientSession.zeroTime)))
      0.
Proof.
  destruct (ClientSessionFacts.X23_created_session_is_reused 0 Demo2.create_ok
              (ClientSession.mkManager None ClientSession.zeroTime)
              (ClientSession.mkSession "s1" "u1" 6 0 (30 * 60 * Client.Second))
              (3600 * Client.Second) (3600 * Client.Second) Demo2.create_down)
    as (Hreuse & _); [reflexivity|reflexivity|].
  apply Hreuse. vm_compute. reflexivity.
Defined.

(** ** The client's cache against the server's registry *)

Section CacheAgainstRegistry.
Context {Item : Type}.
Implicit Types (d : DB Item).




End CacheAgainstRegistry.


(** ** The client retry core: what is returned, what is sent, and when *)

Module ClientMore.
Import Client.

(** A response that is returned is one the server gave, and is not one the
    core answers by a retry. *)
Lemma returned_from fuel c env : ∀ n tr resp tr',
  doWithRetry fuel c env n tr = (Some (Returned resp), tr') →
  (∃ m, (n ≤ m)%nat ∧ roundTrip env m = inr resp)
  ∧ StatusCode resp ≠ 401
  ∧ StatusCode resp ≠ 429
  ∧ (∀ error epoch, StatusCode resp = 409 → ErrorBody resp = Some (error, epoch) →
                    error ≠ "epoch_mismatch").
Proof.
  induction fuel as [|fuel IH]; intros n tr resp tr'; simpl; [done|].
  destruct (cloneOk env n); simpl; [|done].
  destruct (if devMode c then Some DebugSub else Bearer <$> getToken env n)
    as [auth|]; simpl; [|done].
  destruct (if hasSessionMgr c then Some <$> ensureSession env n else Some None)
    as [session|]; simpl; [|done].
  assert (∀ tr0 : list Event,
            doWithRetry fuel c env (n + 1) tr0 = (Some (Returned resp), tr') →
            (∃ m, (n ≤ m)%nat ∧ roundTrip env m = inr resp)
            ∧ StatusCode resp ≠ 401 ∧ StatusCode resp ≠ 429
            ∧ (∀ error epoch, StatusCode resp = 409 →
                 ErrorBody resp = Some (error, epoch) → error ≠ "epoch_mismatch"))
    as Hrec.
  { intros tr0 Hrun. destruct (IH _ _ _ _ Hrun) as ((m & Hm & Hrt) & Hrest).
    split; [|done]. exists m. split; [lia|done]. }
  destruct (roundTrip env n) as [e|resp0] eqn:Hrt; simpl; [done|].
  destruct (Z.eqb (StatusCode resp0) 401) eqn:E401.
  { unfold handleUnauthorized. case_bool_decide; [done|].
    destruct (devMode c); [done|]. apply Hrec. }
  apply Z.eqb_neq in E401.
  destruct (Z.eqb (StatusCode resp0) 409) eqn:E409.
  { apply Z.eqb_eq in E409. unfold handleConflict, handleEpochMismatch.
    destruct (ErrorBody resp0) as [[error epoch]|] eqn:Hbody.
    - destruct (String.eqb error "epoch_mismatch") eqn:Heq.
      + case_bool_decide; [done|].
        destruct (hasSessionMgr c); simpl; [|done]. apply Hrec.
      + intros [= <- <-]. apply String.eqb_neq in Heq.
        split; [by exists n|]. split; [done|]. split; [lia|].
        intros error' epoch' _. rewrite Hbody. by intros [= <- <-].
    - intros [= <- <-]. split; [by exists n|]. split; [done|]. split; [lia|].
      intros error' epoch' _. by rewrite Hbody. }
  apply Z.eqb_neq in E409.
  destruct (Z.eqb (StatusCode resp0) 429) eqn:E429.
  { unfold handleRateLimit. case_bool_decide; [done|].
    destruct (ctxDone env n); [done|]. apply Hrec. }
  apply Z.eqb_neq in E429.
  intros [= <- <-]. split; [by exists n|]. by repeat split.
Qed.

(** X24. The response a call returns is one the server gave at one of its
    attempts, and it is never a 401, never a 429 and never an epoch
    mismatch: those are retried or turned into an error. A 409 that is
    returned is some other conflict, such as a version mismatch. *)
Theorem X24_retryable_never_returned c env resp tr :
  Do c env = (Some (Returned resp), tr) →
  (∃ m, roundTrip env m = inr resp)
  ∧ StatusCode resp ≠ 401
  ∧ StatusCode resp ≠ 429
  ∧ (∀ error epoch, StatusCode resp = 409 → ErrorBody resp = Some (error, epoch) →
                    error ≠ "epoch_mismatch").
Proof.
  unfold Do. intros Hrun.
  destruct (returned_from _ _ _ _ _ _ _ Hrun) as ((m & _ & Hrt) & Hrest).
  split; [by exists m|done].
Qed.

Lemma mode_events_from fuel c env : ∀ n tr,
  Forall (mode_event c) tr →
  Forall (mode_event c) (doWithRetry fuel c env n tr).2.
Proof.
  induction fuel as [|fuel IH]; intros n tr Htr; simpl; [done|].
  destruct (cloneOk env n); simpl; [|done].
  destruct (if devMode c then Some DebugSub else Bearer <$> getToken env n)
    as [auth|] eqn:Hauth; simpl; [|done].
  destruct (if hasSessionMgr c then Some <$> ensureSession env n else Some None)
    as [session|] eqn:Hsess; simpl; [|done].
  assert (Forall (mode_event c) (tr ++ [EvHTTP auth session])) as Htr1.
  { apply Forall_app. split; [done|]. apply Forall_singleton. simpl. split.
    - destruct (devMode c); [by simplify_eq|].
      destruct (getToken env n) as [tok|]; simpl in Hauth; simplify_eq.
      by exists tok.
    - destruct (hasSessionMgr c); [|by simplify_eq].
      destruct (ensureSession env n) as [p|]; simpl in Hsess; by simplify_eq. }
  destruct (roundTrip env n) as [e|resp]; simpl; [done|].
  destruct (Z.eqb (StatusCode resp) 401).
  { unfold handleUnauthorized. case_bool_decide; [done|].
    destruct (devMode c) eqn:Hdev; [done|].
    apply IH, Forall_app. split; [done|]. by apply Forall_singleton. }
  destruct (Z.eqb (StatusCode resp) 409).
  { unfold handleConflict, handleEpochMismatch.
    destruct (ErrorBody resp) as [[error epoch]|]; [|done].
    destruct (String.eqb error "epoch_mismatch"); [|done].
    case_bool_decide; [done|].
    destruct (hasSessionMgr c) eqn:Hmgr; simpl; [|done].
    apply IH, Forall_app. split; [done|]. by apply Forall_singleton. }
  destruct (Z.eqb (StatusCode resp) 429); [|done].
  unfold handleRateLimit. case_bool_decide; [done|].
  destruct (ctxDone env n); [done|].
  apply IH, Forall_app. split; [done|]. by apply Forall_singleton.
Qed.

(** X25. Every request of a call carries the credentials of the client's
    mode and nothing of the other: in dev mode each attempt is sent with the
    debug subject, no token is asked for and none is invalidated; outside
    dev mode each attempt carries a bearer token; session headers are sent,
    and a session is invalidated, only by a client with a session manager. *)
Theorem X25_credentials_by_mode c env :
  Forall (mode_event c) (Do c env).2.
Proof. unfold Do. by apply mode_events_from. Qed.

(** Between two attempts there is one recovery step. *)
Lemma alternation_from fuel c env : ∀ n tr,
  ∃ ext, (doWithRetry fuel c env n tr).2 = tr ++ ext
       ∧ ∀ i ev, ext !! i = Some ev → is_http ev = Nat.even i.
Proof.
  induction fuel as [|fuel IH]; intros n tr; simpl.
  { exists []. by rewrite app_nil_r. }
  assert (∃ ext : list Event, tr = tr ++ ext
            ∧ ∀ i ev, ext !! i = Some ev → is_http ev = Nat.even i) as Hnil.
  { exists []. by rewrite app_nil_r. }
  destruct (cloneOk env n); simpl; [|done].
  destruct (if devMode c then Some DebugSub else Bearer <$> getToken env n)
    as [auth|]; simpl; [|done].
  destruct (if hasSessionMgr c then Some <$> ensureSession env n else Some None)
    as [session|]; simpl; [|done].
  assert (∃ ext : list Event, tr ++ [EvHTTP auth session] = tr ++ ext
            ∧ ∀ i ev, ext !! i = Some ev → is_http ev = Nat.even i) as Hone.
  { exists [EvHTTP auth session]. split; [done|].
    intros [|i] ev; simpl; [by intros [= <-]|done]. }
  assert (∀ rec, is_http rec = false →
            ∃ ext : list Event,
              (doWithRetry fuel c env (n + 1) ((tr ++ [EvHTTP auth session]) ++ [rec])).2
              = tr ++ ext
              ∧ ∀ i ev, ext !! i = Some ev → is_http ev = Nat.even i) as Hrec.
  { intros rec Hrec.
    destruct (IH (n + 1)%nat ((tr ++ [EvHTTP auth session]) ++ [rec]))
      as (ext & -> & Halt).
    exists (EvHTTP auth session :: rec :: ext). split.
    - by rewrite <- !app_assoc.
    - intros [|[|i]] ev; simpl.
      + by intros [= <-].
      + by intros [= <-].
      + apply Halt. }
  destruct (roundTrip env n) as [e|resp]; simpl; [done|].
  destruct (Z.eqb (StatusCode resp) 401).
  { unfold handleUnauthorized. case_bool_decide; [done|].
    destruct (devMode c); [done|]. by apply Hrec. }
  destruct (Z.eqb (StatusCode resp) 409).
  { unfold handleConflict, handleEpochMismatch.
    destruct (ErrorBody resp) as [[error epoch]|]; [|done].
    destruct (String.eqb error "epoch_mismatch"); [|done].
    case_bool_decide; [done|].
    destruct (hasSessionMgr c); simpl; [|done]. by apply Hrec. }
  destruct (Z.eqb (StatusCode resp) 429); [|done].
  unfold handleRateLimit. case_bool_decide; [done|].
  destruct (ctxDone env n); [done|]. by apply Hrec.
Qed.

(** X26. What a call does to the outside alternates: an HTTP attempt, one
    recovery step (a token invalidation, a session invalidation or a pause),
    the next attempt, and so on, starting with an attempt. No attempt
    follows another without a recovery step in between, and no two recovery
    steps are taken in a row. *)
Theorem X26_attempts_and_recoveries_alternate c env i ev :
  (Do c env).2 !! i = Some ev → is_http ev = Nat.even i.
Proof.
  unfold Do. destruct (alternation_from (S MaxRetries) c env 0 []) as (ext & -> & Halt).
  apply Halt.
Qed.

End ClientMore.

(** X24 at the server that is busy once: the 200 that is returned is the
    answer to the second attempt. *)
Lemma X24_witness :
  ∃ m, Client.roundTrip Demo2.busy_once m
       = inr (Client.mkResponse 200 Client.HAbsent Client.HAbsent None).
Proof.
  edestruct (ClientMore.X24_retryable_never_returned Demo.prod_client Demo2.busy_once
               (Client.mkResponse 200 Client.HAbsent Client.HAbsent None))
    as [Hgiven _]; [vm_compute; reflexivity|exact Hgiven].
Defined.

(** X26 at the server that always answers 429: the second thing the call
    does is a pause. *)
Lemma X26_witness :
  Client.is_http (Client.EvSleep (1 * Client.Second)) = Nat.even 1.
Proof.
  apply (ClientMore.X26_attempts_and_recoveries_alternate Demo.prod_client
           Demo.always_429 1 (Client.EvSleep (1 * Client.Second))).
  vm_compute. reflexivity.
Defined.

Module ClientPauses.
Import Client.



End ClientPauses.


(** ** Request cloning and header injection *)

Module ClientHeaders.
Import Client ClientSession.

Lemma kept_header (k : string) (h : gmap string (list string)) :
  reinjected k = false →
  filter (λ kv : string * list string, reinjected kv.1 = false) h !! k = h !! k.
Proof.
  intros Hk. destruct (h !! k) as [v|] eqn:E.
  - by apply map_lookup_filter_Some.
  - apply map_lookup_filter_None. by left.
Qed.

Lemma dropped_header (k : string) (h : gmap string (list string)) :
  reinjected k = true →
  filter (λ kv : string * list string, reinjected kv.1 = false) h !! k = None.
Proof.
  intros Hk. apply map_lookup_filter_None. right. intros v _. simpl.
  by rewrite Hk.
Qed.

Local Ltac headers :=
  repeat (rewrite lookup_insert_eq || rewrite lookup_insert_ne by done);
  try done; try (by apply dropped_header).

(** X28. What goes out on the wire. Cloning fails only when the body of
    the request cannot be read or the request cannot be built anew.
    Otherwise the request sent has the method,
    the URL and the body of the caller's; an [Authorization],
    [X-Debug-Sub], [X-Sync-Session] or [X-Sync-Epoch] header of the caller
    never goes out: each of the four is either the value injected for this
    attempt or absent; the correlation id is set; every other header of the
    caller goes out unchanged. *)
Theorem X28_sent_headers c debugSub cid auth session readOk rebuildOk req :
  (cloneRequest readOk rebuildOk req = None
   ↔ (readOk = false ∧ is_Some (Body req)) ∨ rebuildOk = false)
  ∧ ∀ clone, cloneRequest readOk rebuildOk req = Some clone →
      let sent := inject c debugSub cid auth session clone in
      Method sent = Method req ∧ URL sent = URL req
      ∧ Body sent = Some (default "" (Body req))
      ∧ Header sent !! "X-Correlation-Id" = Some [cid]
      ∧ Header sent !! "Authorization"
        = match auth with
          | Bearer tok => Some ["Bearer " +:+ tok]
          | DebugSub => None
          end
      ∧ Header sent !! "X-Debug-Sub"
        = match auth with
          | DebugSub => Some [debugSub]
          | Bearer _ => None
          end
      ∧ Header sent !! "X-Sync-Session" = (λ p : string * Z, [p.1]) <$> session
      ∧ Header sent !! "X-Sync-Epoch" = (λ p : string * Z, [pretty p.2]) <$> session
      ∧ ∀ k, reinjected k = false → k ≠ "X-Correlation-Id" →
             Header sent !! k = Header req !! k.
Proof.
  split.
  - unfold cloneRequest. destruct readOk, rebuildOk; simpl.
    + split; [done|]. by intros [[? _]|?].
    + split; [by right|done].
    + case_bool_decide as Hb; simpl; [split; [by left|done]|].
      split; [done|]. by intros [[_ ?]|?].
    + case_bool_decide as Hb; simpl; (split; [by right|done]).
  - intros clone. unfold cloneRequest.
    destruct (negb readOk && bool_decide (is_Some (Body req))); [done|].
    destruct (negb rebuildOk); [done|].
    intros [= <-]. cbv zeta. unfold inject, Set_. cbn [Method URL Body Header].
    split; [done|]. split; [done|]. split; [done|].
    destruct auth as [|tok], session as [[id epoch]|];
      cbn [fmap option_fmap option_map fst snd];
      (split; [by headers|]); (split; [by headers|]); (split; [by headers|]);
      (split; [by headers|]); (split; [by headers|]);
      intros k Hk Hcid;
      assert (k ≠ "Authorization" ∧ k ≠ "X-Sync-Session"
              ∧ k ≠ "X-Sync-Epoch" ∧ k ≠ "X-Debug-Sub") as (? & ? & ? & ?)
        by (unfold reinjected in Hk; apply bool_decide_eq_false in Hk;
            repeat split; intros ->; apply Hk; auto);
      rewrite ?lookup_insert_ne by done; by apply kept_header.
Qed.

End ClientHeaders.

(** X28 at a request that carries an [Authorization] and an
    [X-Sync-Epoch] header of its own: what goes out carries the injected
    token and epoch, and the content type of the caller. *)
Lemma X28_witness :
  let sent := ClientSession.inject Demo.prod_client "" "c-1" (Client.Bearer "token")
                (Some ("s1", 6))
                (default Demo2.forged_request
                   (ClientSession.cloneRequest true true Demo2.forged_request)) in
  ClientSession.Header sent !! "Authorization" = Some ["Bearer token"]
  ∧ ClientSession.Header sent !! "X-Sync-Epoch" = Some [pretty 6]
  ∧ ClientSession.Header sent !! "Content-Type" = Some ["application/json"].
Proof.
  destruct (ClientHeaders.X28_sent_headers Demo.prod_client "" "c-1"
              (Client.Bearer "token") (Some ("s1", 6)) true true Demo2.forged_request)
    as [_ Hsent].
  destruct (Hsent (default Demo2.forged_request
                     (ClientSession.cloneRequest true true Demo2.forged_request)) eq_refl)
    as (_ & _ & _ & _ & Hauth & _ & _ & Hepoch & Hrest).
  cbv zeta. split; [exact Hauth|]. split; [exact Hepoch|].
  etrans; [apply Hrest; [reflexivity|discriminate]|]. vm_compute. reflexivity.
Defined.

(** ** From a push to the next pull, and what a mutation may touch *)

Section PushPull.
Context {Item : Type} `{!Syncx Item}.
Implicit Types (d : DB Item) (s : TxState Item).

(** X29. What one device pushes, another pulls. After a push that is let
    through and wins against the stored row (if any), every pull of the
    same user and kind from a cursor before the item, whose page is not
    full, holds the item: among the upserts as it was pushed, or, for a
    tombstone, among the deletes with its uid and its deletion time. *)
Theorem X29_push_then_pull k userID (item : Item) ext refs d c limit resp :
  pushed k item = Some (ext, refs) →
  validated item ext refs userID d = true →
  (∀ old, table k d !! (userID, UID ext) = Some old →
          updated_at_ms old < UpdatedAtMs ext) →
  after_cursor c (UpdatedAtMs ext) (UID ext) →
  (pullKind k userID c limit (PushItem k userID item (healthy d)).2).1 = inr resp →
  Z.of_nat (length (Upserts resp) + length (Deletes resp)) < limit →
  match DeletedAtMs ext with
  | None => item ∈ Upserts resp
  | Some t => mkDelete (UUIDString (UID ext)) (RFC3339 t) ∈ Deletes resp
  end.
Proof.
  intros Hp Hv Hwon Hafter Hrun Hshort.
  rewrite (PushItem_validated_state _ _ _ _ _ _ Hp Hv) in Hrun.
  assert (0 ≤ limit) as Hl by lia.
  rewrite pullKind_healthy_eq in Hrun by done. simpl in Hrun.
  injection Hrun as <-. cbn [Upserts Deletes] in *.
  rewrite length_upserts_deletes in Hshort.
  set (d1 := upserted k userID item ext refs d) in *.
  assert (∃ v, table k d1 !! (userID, UID ext)
               = Some (mkRow (UpdatedAtMs ext) (DeletedAtMs ext) v item refs))
    as [v Hrow].
  { unfold d1, upserted. rewrite table_set_table_eq, upsert_row_lookup.
    destruct (table k d !! (userID, UID ext)) as [old|] eqn:E; [|by eexists].
    rewrite (bool_decide_eq_true_2 _ (Hwon old eq_refl)). by eexists. }
  assert ((UID ext, mkRow (UpdatedAtMs ext) (DeletedAtMs ext) v item refs)
          ∈ page userID c limit (table k d1)) as Hin.
  { unfold page in *. rewrite length_take in Hshort.
    rewrite take_ge by lia. by apply elem_of_scan. }
  destruct (DeletedAtMs ext) as [t|] eqn:Hdel.
  - apply list_elem_of_omap. eexists. split; [exact Hin|]. done.
  - apply list_elem_of_omap. eexists. split; [exact Hin|]. done.
Qed.

Lemma only_rows_of_refl k (userID : string) d : only_rows_of k userID d d.
Proof. by split. Qed.

Lemma only_rows_of_trans k (userID : string) d1 d2 d3 :
  only_rows_of k userID d1 d2 → only_rows_of k userID d2 d3 →
  only_rows_of k userID d1 d3.
Proof.
  intros [Ho1 Ht1] [Ho2 Ht2]. split; [by rewrite Ho2|].
  intros k' o uid Hne. by rewrite Ht2, Ht1.
Qed.

Lemma QueryMsVersion_view k (owner : string) (uid : UUID) s :
  view (QueryMsVersion k owner uid s).2 = view s.
Proof.
  destruct s as [d [|[e|] fs]];
    unfold QueryMsVersion, bind, statement, read_view, ret; simpl;
    try done; by destruct (table k d !! (owner, uid)).
Qed.

Lemma PushItem_only_rows k (userID : string) (item : Item) s :
  only_rows_of k userID (view s) (view (PushItem k userID item s).2).
Proof.
  destruct (PushItem_view k userID item s) as [->|(ext & refs & _ & ->)];
    [apply only_rows_of_refl|].
  unfold upserted. split; [apply owner_state_set_table|].
  intros k' o uid Hne.
  destruct (decide (k' = k)) as [->|Hk]; [|by rewrite table_set_table_ne].
  rewrite table_set_table_eq, upsert_row_lookup_ne; [done|].
  intros [= -> _]. by destruct Hne.
Qed.

Lemma ExecSetSyncVersion_only_rows k v (userID : string) (uid : UUID) s :
  only_rows_of k userID (view s) (view (ExecSetSyncVersion k v userID uid s).2).
Proof.
  unfold ExecSetSyncVersion, bind.
  pose proof (statement_view s) as Hs.
  destruct (statement s) as [[f|] s1]; simpl in *.
  { rewrite Hs. apply only_rows_of_refl. }
  rewrite <- Hs. split; [apply owner_state_set_table|].
  intros k' o uid' Hne.
  destruct (decide (k' = k)) as [->|Hk]; [|by rewrite table_set_table_ne].
  rewrite table_set_table_eq, lookup_alter_ne; [done|].
  intros [= -> _]. by destruct Hne.
Qed.

Lemma applyProbed_only_rows now (userID : string) (uid : UUID) (payload : Item)
    opts isNew ms v s :
  only_rows_of TaskListCategory userID (view s)
    (view (applyProbed now userID uid payload opts isNew ms v s).2).
Proof.
  unfold applyProbed.
  destruct (negb isNew && EnforceVersion opts && negb (Z.eqb v (ExpectedVersion opts)));
    [apply only_rows_of_refl|].
  cbv zeta. unfold bind at 1.
  match goal with
  | |- context [PushTaskListCategoryItem userID ?p s] =>
      pose proof (PushItem_only_rows TaskListCategory userID p s) as H1;
      change (PushItem TaskListCategory userID p s)
        with (PushTaskListCategoryItem userID p s) in H1;
      destruct (PushTaskListCategoryItem userID p s) as [ack s1]
  end.
  cbn [snd] in H1.
  destruct (negb (String.eqb (AckError ack) "")); [done|].
  unfold bind.
  pose proof (ExecSetSyncVersion_only_rows TaskListCategory (AckVersion ack)
                userID uid s1) as H2.
  destruct (ExecSetSyncVersion TaskListCategory (AckVersion ack) userID uid s1)
    as [[e|] s2]; cbn [snd] in H2 |- *; by eapply only_rows_of_trans.
Qed.

(** X30. A REST mutation of a task list category, on any connection and
    whatever its outcome, touches nothing but rows of the calling user in
    [task_list_category]: every other table, every row of another user and
    every epoch is afterwards what it was. *)
Theorem X30_mutation_isolated now fresh userID (payload : Item) opts s :
  only_rows_of TaskListCategory userID (view s)
    (view (ApplyTaskListCategoryMutation now fresh userID payload opts s).2).
Proof.
  unfold ApplyTaskListCategoryMutation.
  match goal with
  | |- context [transaction ?b ?c ?body s] =>
      destruct (transaction_view b c body s) as [->| ->];
      [apply only_rows_of_refl|]
  end.
  pose proof (statement_view s) as Hs.
  destruct (statement s) as [f s1]. cbn [snd] in *. rewrite <- Hs.
  cbv zeta. unfold bind at 1.
  pose proof (QueryMsVersion_view TaskListCategory userID
                (mutation_target fresh payload).1 s1) as Hq.
  destruct (QueryMsVersion TaskListCategory userID (mutation_target fresh payload).1 s1)
    as [[[|e]|[ms v]] s2]; cbn [snd] in Hq |- *; rewrite <- Hq.
  - apply applyProbed_only_rows.
  - apply only_rows_of_refl.
  - apply applyProbed_only_rows.
Qed.

End PushPull.

(** X29 at the four notes of [u1]: note 5, pushed at 1000, is in the next
    pull of ten. *)
Lemma X29_witness :
  ∃ resp,
    (pullKind Note "u1" (mkCursor 0 uuid_Nil) 10
       (PushItem Note "u1" (Demo.note5 1000 "x") (healthy Demo.four_notes)).2).1
    = inr resp
    ∧ Demo.note5 1000 "x" ∈ Upserts resp.
Proof.
  eexists. split; [vm_compute; reflexivity|].
  apply (X29_push_then_pull Note "u1" (Demo.note5 1000 "x")
           (Demo.header (Demo.note5 1000 "x")) NoParent Demo.four_notes
           (mkCursor 0 uuid_Nil) 10).
  - reflexivity.
  - vm_compute. reflexivity.
  - intros old Hold. vm_compute in Hold. discriminate Hold.
  - left. simpl. lia.
  - vm_compute. reflexivity.
  - vm_compute. reflexivity.
Defined.
